(** * ai-cost-tracker: pricing resolver, cost calculator and SQLite storage

    A shallow embedding of [ai_cost_tracker/pricing.py], [models.py],
    [storage.py] and the manual-entry path of [tracker.py], together with the
    properties the specification states about them.

    Conventions of the embedding.
    - Python [str] is [string]; a character is a code point in U+0000..U+00FF
      (the Latin-1 block), on which [str.strip], [str.lower] and
      [str.replace] are modelled exactly.
    - Python [int] is [Z].
    - Python [float] is IEEE-754 binary64, as [spec_float] with the Standard
      Library's [SFadd], [SFmul], [SFdiv] and [SFcompare] at [prec = 53],
      [emax = 1024].
    - A raised exception is the [Raise] branch of [result].
    - The SQLite database behind [SQLiteStorage] is an explicit value
      ([Database]); every statement the source issues is given its SQLite
      meaning on that value. Every method holds the storage lock for its
      whole body, so calls are modelled one at a time. I/O failures of the
      medium and [close] are outside the model.
    - The order in which a statement visits the rows of the table is the
      choice of SQLite's planner; where a result depends on it, the order is
      a parameter of the query.
    - A database file is known by its path as a string, as holds of plain
      file names in the working directory. *)

From Stdlib Require Import ZArith List String Ascii Bool Lia Permutation Sorted.
From Stdlib Require Import Floats.
From stdpp Require Import gmap strings.

Set Warnings "-inexact-float,-clear-no-such-hyp".
Open Scope string_scope.
Open Scope Z_scope.

(** ** Exceptions and results *)

Inductive exn : Type :=
| ValueError (msg : string)
| KeyError (key : string)
| OverflowError (msg : string)
| TypeError (msg : string)
| IntegrityError (msg : string)
| OperationalError (msg : string).

Inductive result (A : Type) : Type :=
| Ok (a : A)
| Raise (e : exn).
Arguments Ok {A} a.
Arguments Raise {A} e.

Definition bind {A B : Type} (r : result A) (k : A -> result B) : result B :=
  match r with
  | Ok a => k a
  | Raise e => Raise e
  end.

Notation "x <- r ;; k" := (bind r (fun x => k))
  (at level 100, r at next level, right associativity).

(** The specification's error kinds, as the exceptions the source raises.
    [UnsupportedModel] is the [ValueError] of [_resolve_model_key];
    [InvalidTokenCount] is any of the three [ValueError]s that reject a
    negative count in [calculate_cost] and [track_manual]. *)

Definition UnsupportedModel (model : string) : exn :=
  ValueError ("Unsupported model for pricing: " +:+ model).

Definition InvalidTokenCount (e : exn) : Prop :=
  e = ValueError "Token counts must be non-negative" \/
  e = ValueError "tokens_in and tokens_out must be non-negative" \/
  e = ValueError "latency_ms must be non-negative".

(** ** Binary64 floats *)

Module F64.

Definition t : Type := spec_float.

Definition add : t -> t -> t := SFadd prec emax.
Definition mul : t -> t -> t := SFmul prec emax.
Definition div : t -> t -> t := SFdiv prec emax.
Definition leb : t -> t -> bool := SFleb.
Definition eqb : t -> t -> bool := SFeqb.

Definition is_nan (x : t) : bool :=
  match x with S754_nan => true | _ => false end.

(** [x >= 0]: neither NaN nor of negative sign, [-0.0] included as Python's
    [-0.0 >= 0] holds. *)
Definition nonneg (x : t) : bool :=
  match x with
  | S754_zero _ => true
  | S754_infinity s => negb s
  | S754_nan => false
  | S754_finite s _ _ => negb s
  end.

Definition zero : t := S754_zero false.

(** Python's conversion of an [int] to a [float]: round to nearest, ties to
    even, and [OverflowError] when the rounded value is out of range. *)
Definition of_int (z : Z) : result t :=
  match binary_normalize prec emax z 0 false with
  | S754_infinity _ => Raise (OverflowError "int too large to convert to float")
  | f => Ok f
  end.

(** Left-to-right summation from [0.0]. *)
Definition sum (l : list t) : t := fold_left add l zero.

(** The literals of the source. *)
Definition lit_1000000 : t := Eval vm_compute in Prim2SF 1000000.0%float.
Definition lit_30 : t := Eval vm_compute in Prim2SF 30.0%float.
Definition lit_60 : t := Eval vm_compute in Prim2SF 60.0%float.
Definition lit_10 : t := Eval vm_compute in Prim2SF 10.0%float.
Definition lit_5 : t := Eval vm_compute in Prim2SF 5.0%float.
Definition lit_15 : t := Eval vm_compute in Prim2SF 15.0%float.
Definition lit_0_15 : t := Eval vm_compute in Prim2SF 0.15%float.
Definition lit_0_6 : t := Eval vm_compute in Prim2SF 0.6%float.
Definition lit_0_5 : t := Eval vm_compute in Prim2SF 0.5%float.
Definition lit_1_5 : t := Eval vm_compute in Prim2SF 1.5%float.
Definition lit_75 : t := Eval vm_compute in Prim2SF 75.0%float.
Definition lit_3 : t := Eval vm_compute in Prim2SF 3.0%float.
Definition lit_0_8 : t := Eval vm_compute in Prim2SF 0.8%float.
Definition lit_4 : t := Eval vm_compute in Prim2SF 4.0%float.
Definition lit_0_06 : t := Eval vm_compute in Prim2SF 0.06%float.
Definition lit_0_0002 : t := Eval vm_compute in Prim2SF 0.0002%float.
Definition lit_0_0014 : t := Eval vm_compute in Prim2SF 0.0014%float.
Definition lit_0_00009 : t := Eval vm_compute in Prim2SF 0.00009%float.
Definition lit_0_00169 : t :=
  Eval vm_compute in Prim2SF (0.0002 + 0.0014 + 0.00009)%float.
Definition lit_0_00029 : t := Eval vm_compute in Prim2SF (0.0002 + 0.00009)%float.
Definition lit_0_00149 : t := Eval vm_compute in Prim2SF (0.0014 + 0.00009)%float.

End F64.

(** ** Python strings *)

Module Str.

Definition code (c : ascii) : N := N_of_ascii c.

(** [str.isspace] on one character of U+0000..U+00FF. *)
Definition is_space (c : ascii) : bool :=
  let n := code c in
  ((9 <=? n) && (n <=? 13) || (28 <=? n) && (n <=? 32)
   || (n =? 133) || (n =? 160))%N.

(** [str.lower] on one character of U+0000..U+00FF. *)
Definition lower_char (c : ascii) : ascii :=
  let n := code c in
  if ((65 <=? n) && (n <=? 90)
      || (192 <=? n) && (n <=? 222) && negb (n =? 215))%N
  then ascii_of_N (n + 32) else c.

Fixpoint map (f : ascii -> ascii) (s : string) : string :=
  match s with
  | EmptyString => EmptyString
  | String c s' => String (f c) (map f s')
  end.

Definition is_empty (s : string) : bool :=
  match s with EmptyString => true | _ => false end.

Fixpoint lstrip (s : string) : string :=
  match s with
  | EmptyString => EmptyString
  | String c s' => if is_space c then lstrip s' else s
  end.

Fixpoint rstrip (s : string) : string :=
  match s with
  | EmptyString => EmptyString
  | String c s' =>
      let r := rstrip s' in
      if is_space c && is_empty r then EmptyString else String c r
  end.

Definition strip (s : string) : string := rstrip (lstrip s).

Definition lower (s : string) : string := map lower_char s.

(** [s.replace(old, new)] for single-character [old] and [new]. *)
Definition replace (old new : ascii) (s : string) : string :=
  map (fun c => if Ascii.eqb c old then new else c) s.

(** [s.startswith(p)]. *)
Definition startswith (s p : string) : bool := String.prefix p s.

(** [sub in s]. *)
Fixpoint contains (sub s : string) : bool :=
  String.prefix sub s
  || match s with
     | EmptyString => false
     | String _ s' => contains sub s'
     end.

Definition len (s : string) : Z := Z.of_nat (String.length s).

Fixpoint all (p : ascii -> bool) (s : string) : bool :=
  match s with
  | EmptyString => true
  | String c s' => p c && all p s'
  end.

End Str.

(** ** Insertion-ordered dictionaries (Python [dict] where order is observed) *)

Module Dict.

Definition t (V : Type) : Type := list (string * V).

Fixpoint get {V : Type} (d : t V) (k : string) : option V :=
  match d with
  | [] => None
  | (k', v) :: d' => if String.eqb k k' then Some v else get d' k
  end.

Definition mem {V : Type} (k : string) (d : t V) : bool :=
  match get d k with Some _ => true | None => false end.

Definition keys {V : Type} (d : t V) : list string := List.map fst d.

(** [d[k]]. *)
Definition item {V : Type} (d : t V) (k : string) : result V :=
  match get d k with
  | Some v => Ok v
  | None => Raise (KeyError k)
  end.

End Dict.

(** ** pricing.py *)

Definition PRICING : Dict.t (F64.t * F64.t) :=
  [ ("gpt-4", (F64.lit_30, F64.lit_60));
    ("gpt-4-turbo", (F64.lit_10, F64.lit_30));
    ("gpt-4o", (F64.lit_5, F64.lit_15));
    ("gpt-4o-mini", (F64.lit_0_15, F64.lit_0_6));
    ("gpt-3.5-turbo", (F64.lit_0_5, F64.lit_1_5));
    ("claude-opus-4", (F64.lit_15, F64.lit_75));
    ("claude-sonnet-4", (F64.lit_3, F64.lit_15));
    ("claude-sonnet-3.5", (F64.lit_3, F64.lit_15));
    ("claude-haiku-3.5", (F64.lit_0_8, F64.lit_4)) ].

Definition _ALIASES : Dict.t string :=
  [ ("claude-3-5-sonnet", "claude-sonnet-3.5");
    ("claude-3-5-haiku", "claude-haiku-3.5");
    ("claude-3-opus", "claude-opus-4") ].

Definition _normalize_model_name (model : string) : string :=
  Str.replace "_" "-" (Str.lower (Str.strip model)).

(** [sorted(l, key=len, reverse=True)]: a stable sort, longest first; equal
    lengths keep the order they have in [l]. *)
Fixpoint insert_by_len (x : string) (l : list string) : list string :=
  match l with
  | [] => [x]
  | y :: l' =>
      if Str.len y <=? Str.len x then x :: l else y :: insert_by_len x l'
  end.

Definition sorted_by_len_desc (l : list string) : list string :=
  fold_right insert_by_len [] l.

Definition keys_by_specificity : list string :=
  sorted_by_len_desc (Dict.keys PRICING).

Definition fuzzy_match (normalized key : string) : bool :=
  Str.startswith normalized key || Str.contains key normalized.

Definition _resolve_model_key (model : string) : result string :=
  let normalized := _normalize_model_name model in
  if Dict.mem normalized PRICING then Ok normalized
  else
    match List.find (fun a => Str.startswith normalized (fst a)) _ALIASES with
    | Some (_, canonical) => Ok canonical
    | None =>
        match List.find (fuzzy_match normalized) keys_by_specificity with
        | Some key => Ok key
        | None => Raise (UnsupportedModel model)
        end
    end.

Definition get_model_pricing (model : string) : result (F64.t * F64.t) :=
  key <- _resolve_model_key model ;;
  Dict.item PRICING key.

Definition calculate_cost (model : string) (tokens_in tokens_out : Z)
  : result F64.t :=
  if (tokens_in <? 0) || (tokens_out <? 0)
  then Raise (ValueError "Token counts must be non-negative")
  else
    rates <- get_model_pricing model ;;
    let '(input_per_million, output_per_million) := rates in
    fin <- F64.of_int tokens_in ;;
    let input_cost := F64.mul (F64.div fin F64.lit_1000000) input_per_million in
    fout <- F64.of_int tokens_out ;;
    let output_cost := F64.mul (F64.div fout F64.lit_1000000) output_per_million in
    Ok (F64.add input_cost output_cost).

(** ** State and exceptions together

    A computation over a state [S] returns a value or raises, and in both
    cases hands back the state it leaves behind. *)

Definition M (S A : Type) : Type := S -> result A * S.

Definition ret {S A : Type} (a : A) : M S A := fun s => (Ok a, s).

Definition throw {S A : Type} (e : exn) : M S A := fun s => (Raise e, s).

Definition mbind {S A B : Type} (m : M S A) (k : A -> M S B) : M S B :=
  fun s =>
    match m s with
    | (Ok a, s') => k a s'
    | (Raise e, s') => (Raise e, s')
    end.

Definition lift {S A : Type} (r : result A) : M S A := fun s => (r, s).

Notation "x <~ m ;; k" := (mbind m (fun x => k))
  (at level 100, m at next level, right associativity).

(** ** models.py *)

(** A timezone-aware [datetime] in UTC, the only kind the package creates. *)
Record datetime : Type := {
  year : Z; month : Z; day : Z;
  hour : Z; minute : Z; second : Z; microsecond : Z
}.

(** [w] decimal digits of [n], zero padded. *)
Fixpoint zfill (w : nat) (n : Z) : string :=
  match w with
  | O => ""
  | S w' => zfill w' (n / 10) +:+ String (ascii_of_N (48 + Z.to_N (n mod 10))) ""
  end.

Definition isoformat (d : datetime) : string :=
  zfill 4 (year d) +:+ "-" +:+ zfill 2 (month d) +:+ "-" +:+ zfill 2 (day d)
  +:+ "T" +:+ zfill 2 (hour d) +:+ ":" +:+ zfill 2 (minute d) +:+ ":"
  +:+ zfill 2 (second d)
  +:+ (if microsecond d =? 0 then "" else "." +:+ zfill 6 (microsecond d))
  +:+ "+00:00".

(** [metadata]: an insertion-ordered mapping; its values are restricted to
    strings here. *)
Record CostLog : Type := {
  user_id : string;
  feature : string;
  model : string;
  tokens_in : Z;
  tokens_out : Z;
  cost_usd : F64.t;
  latency_ms : Z;
  timestamp : datetime;
  org_id : string;
  metadata : Dict.t string
}.

(** ** json.dumps(metadata, ensure_ascii=True) *)

Module Json.

Definition hex_digit (n : N) : ascii :=
  if (n <? 10)%N then ascii_of_N (48 + n) else ascii_of_N (87 + n).

Definition escape_char (c : ascii) : string :=
  let n := Str.code c in
  if (n =? 34)%N then "\" +:+ String c ""
  else if (n =? 92)%N then "\\"
  else if (n =? 10)%N then "\n"
  else if (n =? 13)%N then "\r"
  else if (n =? 9)%N then "\t"
  else if (n =? 8)%N then "\b"
  else if (n =? 12)%N then "\f"
  else if ((32 <=? n) && (n <=? 126))%N then String c ""
  else "\u00" +:+ String (hex_digit (n / 16)) (String (hex_digit (n mod 16)) "").

Fixpoint escape (s : string) : string :=
  match s with
  | EmptyString => ""
  | String c s' => escape_char c +:+ escape s'
  end.

Definition quote (s : string) : string :=
  String "034" (escape s) +:+ String "034" "".

Fixpoint items (d : Dict.t string) : string :=
  match d with
  | [] => ""
  | [(k, v)] => quote k +:+ ": " +:+ quote v
  | (k, v) :: d' => quote k +:+ ": " +:+ quote v +:+ ", " +:+ items d'
  end.

Definition dumps (d : Dict.t string) : string := "{" +:+ items d +:+ "}".

(** The same writer on strings of any code points, U+0000 to U+10FFFF, each
    string the list of its code points. A character that is not printable
    ASCII is written [\uXXXX], and one beyond U+FFFF as the two escapes of
    its surrogate pair. *)

Definition hex4 (n : N) : string :=
  String (hex_digit (n / 4096 mod 16))
    (String (hex_digit (n / 256 mod 16))
       (String (hex_digit (n / 16 mod 16))
          (String (hex_digit (n mod 16)) ""))).

Definition escape_code (n : N) : string :=
  if (n =? 34)%N then "\" +:+ String "034" ""
  else if (n =? 92)%N then "\\"
  else if (n =? 10)%N then "\n"
  else if (n =? 13)%N then "\r"
  else if (n =? 9)%N then "\t"
  else if (n =? 8)%N then "\b"
  else if (n =? 12)%N then "\f"
  else if ((32 <=? n) && (n <=? 126))%N then String (ascii_of_N n) ""
  else if (n <? 65536)%N then "\u" +:+ hex4 n
  else
    let v := (n - 65536)%N in
    "\u" +:+ hex4 (55296 + v / 1024 mod 1024)
    +:+ "\u" +:+ hex4 (56320 + v mod 1024).

Fixpoint escape_codes (s : list N) : string :=
  match s with
  | [] => ""
  | n :: s' => escape_code n +:+ escape_codes s'
  end.

Definition quote_codes (s : list N) : string :=
  String "034" (escape_codes s) +:+ String "034" "".

Fixpoint items_codes (d : list (list N * list N)) : string :=
  match d with
  | [] => ""
  | [(k, v)] => quote_codes k +:+ ": " +:+ quote_codes v
  | (k, v) :: d' =>
      quote_codes k +:+ ": " +:+ quote_codes v +:+ ", " +:+ items_codes d'
  end.

Definition dumps_codes (d : list (list N * list N)) : string :=
  "{" +:+ items_codes d +:+ "}".

(** The code points of a string of U+0000..U+00FF. *)
Fixpoint codes (s : string) : list N :=
  match s with
  | EmptyString => []
  | String c s' => Str.code c :: codes s'
  end.

End Json.

(** ** storage.py: the database *)

(** One row of [cost_logs]; every column is [NOT NULL]. *)
Record Row : Type := {
  row_id : Z;
  row_user_id : string;
  row_feature : string;
  row_model : string;
  row_tokens_in : Z;
  row_tokens_out : Z;
  row_cost_usd : F64.t;
  row_latency_ms : Z;
  row_timestamp : string;
  row_org_id : string;
  row_metadata : string
}.

(** A table with an [AUTOINCREMENT] key: its rows in rowid order and the
    largest rowid ever handed out. *)
Record Table : Type := {
  rows : list Row;
  seq : Z
}.

(** A database file: [cost_logs] when it has been created, and the names of
    the indexes that exist. *)
Record Database : Type := {
  cost_logs : option Table;
  indexes : gset string
}.

Definition empty_database : Database :=
  {| cost_logs := None; indexes := ∅ |}.

Definition required_indexes : list string :=
  [ "idx_cost_logs_user_id"; "idx_cost_logs_feature";
    "idx_cost_logs_timestamp"; "idx_cost_logs_org_id" ].

(** The storage engine's state: [ready] once the schema is present. *)
Definition ready (db : Database) : bool :=
  match cost_logs db with
  | Some _ => forallb (fun i => bool_decide (i ∈ indexes db)) required_indexes
  | None => false
  end.

(** [CREATE TABLE IF NOT EXISTS cost_logs (...)]. *)
Definition create_table_if_not_exists : M Database unit :=
  fun db =>
    match cost_logs db with
    | Some _ => (Ok tt, db)
    | None =>
        (Ok tt, {| cost_logs := Some {| rows := []; seq := 0 |};
                   indexes := indexes db |})
    end.

(** [CREATE INDEX IF NOT EXISTS name ON cost_logs(...)]. *)
Definition create_index_if_not_exists (name : string) : M Database unit :=
  fun db =>
    match cost_logs db with
    | None => (Raise (OperationalError "no such table: main.cost_logs"), db)
    | Some _ =>
        (Ok tt, {| cost_logs := cost_logs db;
                   indexes := {[ name ]} ∪ indexes db |})
    end.

Definition int64_min : Z := - 2 ^ 63.
Definition int64_max : Z := 2 ^ 63 - 1.

(** Binding a Python [int] to a statement parameter. *)
Definition bind_int (z : Z) : result Z :=
  if (int64_min <=? z) && (z <=? int64_max) then Ok z
  else Raise (OverflowError "Python int too large to convert to SQLite INTEGER").

(** Binding a Python [float]: NaN is bound as [NULL]. *)
Definition bind_float (x : F64.t) : option F64.t :=
  if F64.is_nan x then None else Some x.

Definition max_rowid (l : list Row) : Z :=
  fold_right (fun r acc => Z.max (row_id r) acc) 0 l.

(** [INSERT INTO cost_logs (...) VALUES (?, ...)] followed by [commit]:
    the statement is prepared, its parameters are bound in order, and the
    row is checked against the [NOT NULL] constraints when it is written.
    This is the statement on the records of the model, whose texts are
    strings of U+0000..U+00FF and whose metadata has string values, and on
    a table that has rowids left; the failures of [json.dumps] and of the
    binding on other values, and [SQLITE_FULL] at rowid [2^63 - 1], are not
    part of it. *)
Definition insert_cost_log (c : CostLog) (ts meta : string) : M Database unit :=
  fun db =>
    match cost_logs db with
    | None => (Raise (OperationalError "no such table: cost_logs"), db)
    | Some t =>
        match bind_int (tokens_in c), bind_int (tokens_out c),
              bind_int (latency_ms c) with
        | Raise e, _, _ | _, Raise e, _ | _, _, Raise e => (Raise e, db)
        | Ok tin, Ok tout, Ok lat =>
            match bind_float (cost_usd c) with
            | None =>
                (Raise (IntegrityError
                          "NOT NULL constraint failed: cost_logs.cost_usd"), db)
            | Some cost =>
                let id := Z.max (seq t) (max_rowid (rows t)) + 1 in
                let r := {| row_id := id;
                            row_user_id := user_id c;
                            row_feature := feature c;
                            row_model := model c;
                            row_tokens_in := tin;
                            row_tokens_out := tout;
                            row_cost_usd := cost;
                            row_latency_ms := lat;
                            row_timestamp := ts;
                            row_org_id := org_id c;
                            row_metadata := meta |} in
                (Ok tt, {| cost_logs := Some {| rows := (rows t ++ [r])%list; seq := id |};
                           indexes := indexes db |})
            end
        end
    end.

(** *** The WHERE clause *)

Inductive column : Type :=
| col_user_id | col_feature | col_org_id | col_model | col_timestamp.

Definition column_name (c : column) : string :=
  match c with
  | col_user_id => "user_id"
  | col_feature => "feature"
  | col_org_id => "org_id"
  | col_model => "model"
  | col_timestamp => "timestamp"
  end.

Definition column_text (r : Row) (c : column) : string :=
  match c with
  | col_user_id => row_user_id r
  | col_feature => row_feature r
  | col_org_id => row_org_id r
  | col_model => row_model r
  | col_timestamp => row_timestamp r
  end.

Inductive cmp_op : Type := op_eq | op_ge | op_le.

(** One conjunct [column op ?] of a WHERE clause. *)
Record clause : Type := { lhs : column; op : cmp_op }.

(** Comparison of two TEXT values under the BINARY collation. *)
Definition eval_cmp (o : cmp_op) (x y : string) : bool :=
  match o with
  | op_eq => String.eqb x y
  | op_ge => String.leb y x
  | op_le => String.leb x y
  end.

(** [WHERE c1 AND ... AND cn] with its placeholders bound, left to right, to
    [params]; the empty list of conjuncts is the absent clause. *)
Fixpoint eval_where (where_sql : list clause) (params : list string) (r : Row)
  : bool :=
  match where_sql, params with
  | [], _ => true
  | c :: cs, p :: ps =>
      eval_cmp (op c) (column_text r (lhs c)) p && eval_where cs ps r
  | _ :: _, [] => false
  end.

(** A value of the [filters] dictionary: [None] or a string. *)
Inductive pyval : Type := PyNone | PyStr (s : string).

(** [filters.get(key)]. *)
Definition filters_get (filters : gmap string pyval) (key : string) : pyval :=
  default PyNone (filters !! key).

Definition simple_fields : list column :=
  [col_user_id; col_feature; col_org_id; col_model].

Definition _build_where_clause (filters : option (gmap string pyval))
  : list clause * list string :=
  match filters with
  | None => ([], [])
  | Some f =>
      if bool_decide (f = ∅) then ([], [])
      else
        let step (acc : list clause * list string) (field : column) :=
          match filters_get f (column_name field) with
          | PyStr value =>
              ((fst acc ++ [{| lhs := field; op := op_eq |}])%list,
               (snd acc ++ [value])%list)
          | PyNone => acc
          end in
        let acc := fold_left step simple_fields ([], []) in
        let acc :=
          match filters_get f "start_time" with
          | PyStr value =>
              ((fst acc ++ [{| lhs := col_timestamp; op := op_ge |}])%list,
               (snd acc ++ [value])%list)
          | PyNone => acc
          end in
        match filters_get f "end_time" with
        | PyStr value =>
            ((fst acc ++ [{| lhs := col_timestamp; op := op_le |}])%list,
             (snd acc ++ [value])%list)
        | PyNone => acc
        end
  end.

(** *** Aggregates *)

(** [SUM(x)] over the values of the rows in the order in which the statement
    visits them: [NULL] over no rows; otherwise the values are accumulated
    one by one in binary64, as SQLite 3.40 does, and a NaN result is
    [NULL]. *)
Definition sql_sum (l : list F64.t) : option F64.t :=
  match l with
  | [] => None
  | _ => bind_float (F64.sum l)
  end.

Definition coalesce (x : option F64.t) (d : F64.t) : F64.t :=
  match x with Some v => v | None => d end.

(** [float(v)] on a fetched value. *)
Definition py_float (v : option F64.t) : result F64.t :=
  match v with
  | Some x => Ok x
  | None =>
      Raise (TypeError
               "float() argument must be a string or a real number, not 'NoneType'")
  end.

(** The rows [FROM cost_logs WHERE ...] ranges over, in rowid order: the
    order of a scan of the table, and of a search of an index for one
    value. *)
Definition select_where (filters : option (gmap string pyval)) (t : Table)
  : list Row :=
  let '(where_sql, params) := _build_where_clause filters in
  List.filter (eval_where where_sql params) (rows t).

Definition with_table {A : Type} (k : Table -> result A) : M Database A :=
  fun db =>
    match cost_logs db with
    | None => (Raise (OperationalError "no such table: cost_logs"), db)
    | Some t => (k t, db)
    end.

(** The distinct values of a list, in order of first occurrence. *)
Fixpoint distinct (l : list string) : list string :=
  match l with
  | [] => []
  | x :: l' => x :: List.filter (fun y => negb (String.eqb x y)) (distinct l')
  end.

(** The rows of the group whose [col] is [k]. *)
Definition members (col : column) (matching : list Row) (k : string)
  : list Row :=
  List.filter (fun r => String.eqb (column_text r col) k) matching.

(** One output row of [SELECT col, SUM(cost_usd), COUNT( * ) ... GROUP BY col]. *)
Definition group_row (col : column) (matching : list Row) (k : string)
  : string * option F64.t * Z :=
  (k, sql_sum (List.map row_cost_usd (members col matching k)),
   Z.of_nat (List.length (members col matching k))).

Definition group_by (col : column) (matching : list Row)
  : list (string * option F64.t * Z) :=
  List.map (group_row col matching)
           (distinct (List.map (fun r => column_text r col) matching)).

(** [x >= y] in the order of [ORDER BY]: [NULL] is below every number. *)
Definition sql_ge (x y : option F64.t) : bool :=
  match x, y with
  | _, None => true
  | None, Some _ => false
  | Some a, Some b => F64.leb b a
  end.

Definition total_of (g : string * option F64.t * Z) : option F64.t := snd (fst g).

(** [ORDER BY total DESC]. SQLite leaves the order of rows with equal totals
    open; here they keep the order in which their groups first occur. *)
Fixpoint insert_desc (g : string * option F64.t * Z)
  (l : list (string * option F64.t * Z)) : list (string * option F64.t * Z) :=
  match l with
  | [] => [g]
  | h :: l' =>
      if sql_ge (total_of g) (total_of h) then g :: l else h :: insert_desc g l'
  end.

Definition order_by_total_desc (l : list (string * option F64.t * Z))
  : list (string * option F64.t * Z) :=
  fold_right insert_desc [] l.

(** [LIMIT n]: a negative [n] puts no bound on the number of rows. *)
Definition sql_limit {A : Type} (n : Z) (l : list A) : list A :=
  if n <? 0 then l else firstn (Z.to_nat n) l.

Definition select_top (col : column) (limit : Z)
  (filters : option (gmap string pyval)) (t : Table)
  : result (list (string * option F64.t * Z)) :=
  n <- bind_int limit ;;
  Ok (sql_limit n (order_by_total_desc (group_by col (select_where filters t)))).

Fixpoint fetch_rows (l : list (string * option F64.t * Z))
  : result (list (string * F64.t * Z)) :=
  match l with
  | [] => Ok []
  | (k, total, n) :: l' =>
      x <- py_float total ;;
      rest <- fetch_rows l' ;;
      Ok ((k, x, n) :: rest)
  end.

(** *** class SQLiteStorage, on the database its connection is open on *)

Definition _init_db : M Database unit :=
  _ <~ create_table_if_not_exists ;;
  _ <~ create_index_if_not_exists "idx_cost_logs_user_id" ;;
  _ <~ create_index_if_not_exists "idx_cost_logs_feature" ;;
  _ <~ create_index_if_not_exists "idx_cost_logs_timestamp" ;;
  create_index_if_not_exists "idx_cost_logs_org_id".

Definition log (cost_log : CostLog) : M Database unit :=
  insert_cost_log cost_log (isoformat (timestamp cost_log))
                  (Json.dumps (metadata cost_log)).

Definition get_total_cost (filters : option (gmap string pyval))
  : M Database F64.t :=
  with_table (fun t =>
    Ok (coalesce (sql_sum (List.map row_cost_usd (select_where filters t)))
                 F64.zero)).

Definition get_top_users (limit : Z) (filters : option (gmap string pyval))
  : M Database (list (string * F64.t * Z)) :=
  with_table (fun t =>
    fetched <- select_top col_user_id limit filters t ;;
    fetch_rows fetched).

Definition get_top_features (limit : Z) (filters : option (gmap string pyval))
  : M Database (list (string * F64.t * Z)) :=
  with_table (fun t =>
    fetched <- select_top col_feature limit filters t ;;
    fetch_rows fetched).

(** *** The access path

    Which rows a statement ranges over is fixed by its WHERE clause; the
    order in which it visits them is chosen by SQLite's planner. A scan of
    the table visits the rows in rowid order, and so does the search of an
    index for one value. A search of [idx_cost_logs_timestamp] for a range,
    which SQLite 3.40 makes when the filters give [start_time] and
    [end_time] and no [user_id], [feature] or [org_id], visits them in the
    order of the timestamp text, rows with one timestamp in rowid order.
    The path shows in a result only in the order in which [SUM] adds up the
    costs and in the order of entries with equal totals. The three queries
    below are the methods with the order of the visit, [scan], made
    explicit; [get_total_cost], [get_top_users] and [get_top_features]
    above are their instances for the rowid order. *)

(** Insertion into a list of rows sorted by the text of [col] (BINARY
    collation), before the first row that is not smaller. *)
Fixpoint insert_by_text (col : column) (r : Row) (l : list Row) : list Row :=
  match l with
  | [] => [r]
  | x :: l' =>
      if String.leb (column_text r col) (column_text x col)
      then r :: l
      else x :: insert_by_text col r l'
  end.

(** The order of the index on [col]: by the indexed text, then by rowid. *)
Definition index_scan (col : column) (l : list Row) : list Row :=
  fold_right (insert_by_text col) [] l.

Definition select_where_on (scan : list Row -> list Row)
  (filters : option (gmap string pyval)) (t : Table) : list Row :=
  let '(where_sql, params) := _build_where_clause filters in
  List.filter (eval_where where_sql params) (scan (rows t)).

Definition select_top_on (scan : list Row -> list Row) (col : column)
  (limit : Z) (filters : option (gmap string pyval)) (t : Table)
  : result (list (string * option F64.t * Z)) :=
  n <- bind_int limit ;;
  Ok (sql_limit n (order_by_total_desc
                     (group_by col (select_where_on scan filters t)))).

Definition get_total_cost_on (scan : list Row -> list Row)
  (filters : option (gmap string pyval)) : M Database F64.t :=
  with_table (fun t =>
    Ok (coalesce (sql_sum (List.map row_cost_usd
                             (select_where_on scan filters t)))
                 F64.zero)).

Definition get_top_users_on (scan : list Row -> list Row) (limit : Z)
  (filters : option (gmap string pyval))
  : M Database (list (string * F64.t * Z)) :=
  with_table (fun t =>
    fetched <- select_top_on scan col_user_id limit filters t ;;
    fetch_rows fetched).

Definition get_top_features_on (scan : list Row -> list Row) (limit : Z)
  (filters : option (gmap string pyval))
  : M Database (list (string * F64.t * Z)) :=
  with_table (fun t =>
    fetched <- select_top_on scan col_feature limit filters t ;;
    fetch_rows fetched).

(** ** tracker.py: the process and its files *)

(** A [SQLiteStorage] object: a connection to the database file at
    [db_path]. Two objects on one path share the file. The files are told
    apart by their paths as strings, and opening one is taken to succeed:
    the view of the file system that holds for the names of plain files in
    the working directory, such as [ai_cost_tracker.db]. *)
Record SQLiteStorage : Type := { db_path : string }.

(** The database files on disk and the module globals of [tracker.py]. *)
Record World : Type := {
  files : gmap string Database;
  _storage : option SQLiteStorage;
  _org_id : string
}.

(** Run a method of [self] on the file its connection is open on; a file
    that does not exist yet is an empty database. *)
Definition on_connection {A : Type} (self : SQLiteStorage) (m : M Database A)
  : M World A :=
  fun w =>
    let db := default empty_database (files w !! db_path self) in
    let '(r, db') := m db in
    (r, {| files := <[db_path self := db']> (files w);
           _storage := _storage w;
           _org_id := _org_id w |}).

(** [SQLiteStorage(db_path)]. *)
Definition SQLiteStorage_new (path : string) : M World SQLiteStorage :=
  let self := {| db_path := path |} in
  _ <~ on_connection self _init_db ;;
  ret self.

Definition set_globals (s : SQLiteStorage) (org : string) : M World unit :=
  fun w => (Ok tt, {| files := files w; _storage := Some s; _org_id := org |}).

Definition init_tracker (storage_path org_id : string) : M World SQLiteStorage :=
  s <~ SQLiteStorage_new storage_path ;;
  _ <~ set_globals s org_id ;;
  ret s.

Definition set_storage (s : SQLiteStorage) : M World unit :=
  fun w => (Ok tt, {| files := files w; _storage := Some s; _org_id := _org_id w |}).

Definition get_storage : M World SQLiteStorage :=
  fun w =>
    match _storage w with
    | Some s => (Ok s, w)
    | None =>
        (s <~ SQLiteStorage_new "ai_cost_tracker.db" ;;
         _ <~ set_storage s ;;
         ret s) w
    end.

(** [org_id or default]. *)
Definition str_or (x : option string) (default : string) : string :=
  match x with
  | Some s => if Str.is_empty s then default else s
  | None => default
  end.

(** [metadata or {}]. *)
Definition dict_or_empty (x : option (Dict.t string)) : Dict.t string :=
  match x with
  | Some d => match d with [] => [] | _ :: _ => d end
  | None => []
  end.

(** [track_manual]; [now] is what [datetime.now(timezone.utc)] returns
    during the call. *)
Definition track_manual (user_id feature model : string)
  (tokens_in tokens_out latency_ms : Z)
  (metadata : option (Dict.t string)) (org_id : option string)
  (now : datetime) : M World CostLog :=
  if (tokens_in <? 0) || (tokens_out <? 0)
  then throw (ValueError "tokens_in and tokens_out must be non-negative")
  else if latency_ms <? 0
  then throw (ValueError "latency_ms must be non-negative")
  else
    cost <~ lift (calculate_cost model tokens_in tokens_out) ;;
    fun w =>
      let entry := Build_CostLog user_id feature model tokens_in tokens_out
                                 cost latency_ms now
                                 (str_or org_id (_org_id w))
                                 (dict_or_empty metadata) in
      (s <~ get_storage ;;
       _ <~ on_connection s (log entry) ;;
       ret entry) w.

Definition empty_world : World :=
  {| files := ∅; _storage := None; _org_id := "default" |}.

(** ** Vocabulary of the specification *)

(** [x] is the first element of [l] that satisfies [p]. *)
Definition first_match {A : Type} (p : A -> bool) (l : list A) (x : A) : Prop :=
  exists l1 l2, l = (l1 ++ x :: l2)%list /\ p x = true /\
                forall y, In y l1 -> p y = false.

(** [t] is [s] with the whitespace at both ends trimmed. *)
Definition trimmed (s t : string) : Prop :=
  (exists l r, s = l +:+ t +:+ r /\
               Str.all Str.is_space l = true /\ Str.all Str.is_space r = true) /\
  match t with String c _ => Str.is_space c = false | EmptyString => True end /\
  (forall u c, t = u +:+ String c "" -> Str.is_space c = false).

(** Longest first. *)
Definition by_descending_length (l : list string) : Prop :=
  StronglySorted (fun a b => Str.len b <= Str.len a) l.

Definition is_digit (c : ascii) : bool :=
  ((48 <=? Str.code c) && (Str.code c <=? 57))%N.

(** The pieces of [s] between occurrences of [sep]. *)
Fixpoint split_on (sep : ascii) (s : string) : list string :=
  match s with
  | EmptyString => [""]
  | String c s' =>
      if Ascii.eqb c sep then "" :: split_on sep s'
      else match split_on sep s' with
           | h :: t => String c h :: t
           | [] => [String c ""]
           end
  end.

(** One segment of a version/date suffix: a run of digits (a version number
    or a component of a date) or the tag [preview]. *)
Definition version_segment (seg : string) : bool :=
  negb (Str.is_empty seg) && Str.all is_digit seg || String.eqb seg "preview".

(** A version/date suffix: one or more segments, each introduced by a
    hyphen, as in [-0125-preview], [-2024-08-06] or [-20250514]. *)
Definition is_version_date_suffix (s : string) : bool :=
  match s with
  | EmptyString => false
  | String c s' => Ascii.eqb c "-" && forallb version_segment (split_on "-" s')
  end.

(** Characters that normalization leaves alone. *)
Definition plain (c : ascii) : bool :=
  negb (Str.is_space c) && Ascii.eqb (Str.lower_char c) c
  && negb (Ascii.eqb c "_").

(** Characters a pricing key or an alias prefix starts with. *)
Definition initial (c : ascii) : bool := Ascii.eqb c "g" || Ascii.eqb c "c".

(** Characters of a version/date suffix. *)
Definition suffix_char (c : ascii) : bool :=
  is_digit c || Str.contains (String c "") "-preview".

(** What is left of [k'] after its first [length k] characters. *)
Fixpoint rest_after (k k' : string) : string :=
  match k, k' with
  | EmptyString, _ => k'
  | String _ k0, String _ k0' => rest_after k0 k0'
  | String _ _, EmptyString => ""
  end.

(** [r] cannot begin a version/date suffix: it does not open with a hyphen
    followed by a digit or by the [p] of [preview]. *)
Definition extension_blocked (r : string) : bool :=
  match r with
  | EmptyString => false
  | String x EmptyString => negb (Ascii.eqb x "-")
  | String x (String y _) =>
      negb (Ascii.eqb x "-") || negb (is_digit y || Ascii.eqb y "p")
  end.

(** The shape every pricing key has: an initial [g] or [c] that does not
    occur again, and only characters that normalization leaves alone. *)
Definition key_shape (k : string) : bool :=
  match k with
  | EmptyString => false
  | String c r =>
      initial c && Str.all (fun c => negb (initial c)) r && Str.all plain k
  end.

(** The order of [SFcompare] as a lexicographic order on a key. *)
Definition rank (x : spec_float) : Z * Z * Z :=
  match x with
  | S754_nan => (0, 0, 0)
  | S754_infinity true => (-2, 0, 0)
  | S754_finite true m e => (-1, - e, - Zpos m)
  | S754_zero _ => (0, 0, 0)
  | S754_finite false m e => (1, e, Zpos m)
  | S754_infinity false => (2, 0, 0)
  end.

Definition rank_le (p q : Z * Z * Z) : Prop :=
  let '(a1, b1, c1) := p in
  let '(a2, b2, c2) := q in
  a1 < a2 \/ (a1 = a2 /\ (b1 < b2 \/ (b1 = b2 /\ c1 <= c2))).

Definition positive_finite (x : F64.t) : bool :=
  match x with S754_finite false _ _ => true | _ => false end.

(** The rows a database holds. *)
Definition persisted (db : Database) : list Row :=
  match cost_logs db with Some t => rows t | None => [] end.

(** A freshly created store: the schema and no rows. *)
Definition fresh_store : Database := snd (_init_db empty_database).

(** The operations of the storage engine. *)
Inductive call : Type :=
| CallInitDb
| CallLog (cost_log : CostLog)
| CallTotalCost (filters : option (gmap string pyval))
| CallTopUsers (limit : Z) (filters : option (gmap string pyval))
| CallTopFeatures (limit : Z) (filters : option (gmap string pyval)).

(** The database an operation leaves behind, whether it returns or raises. *)
Definition perform (db : Database) (c : call) : Database :=
  match c with
  | CallInitDb => snd (_init_db db)
  | CallLog cost_log => snd (log cost_log db)
  | CallTotalCost filters => snd (get_total_cost filters db)
  | CallTopUsers limit filters => snd (get_top_users limit filters db)
  | CallTopFeatures limit filters => snd (get_top_features limit filters db)
  end.

(** A sequence of appends: the records whose append returned, in order, and
    the database at the end. *)
Fixpoint append_all (cs : list CostLog) (db : Database)
  : list CostLog * Database :=
  match cs with
  | [] => ([], db)
  | c :: cs' =>
      match log c db with
      | (Ok _, db') =>
          let '(appended, db'') := append_all cs' db' in (c :: appended, db'')
      | (Raise _, db') => append_all cs' db'
      end
  end.

(** A row passes the filters. *)
Definition matches (filters : option (gmap string pyval)) (r : Row) : bool :=
  eval_where (fst (_build_where_clause filters))
             (snd (_build_where_clause filters)) r.

(** The value the filters supply under [key], if any. *)
Definition supplied (filters : option (gmap string pyval)) (key : string)
  : option string :=
  match filters with
  | None => None
  | Some f => match f !! key with Some (PyStr v) => Some v | _ => None end
  end.

(** The six predicates a filter dictionary can impose, each with the value
    supplied for it, if any. *)
Definition conditions (filters : option (gmap string pyval))
  : list (column * cmp_op * option string) :=
  [ (col_user_id, op_eq, supplied filters "user_id");
    (col_feature, op_eq, supplied filters "feature");
    (col_org_id, op_eq, supplied filters "org_id");
    (col_model, op_eq, supplied filters "model");
    (col_timestamp, op_ge, supplied filters "start_time");
    (col_timestamp, op_le, supplied filters "end_time") ].

Definition holds (r : Row) (c : column * cmp_op * option string) : bool :=
  match c with
  | (col, o, Some v) => eval_cmp o (column_text r col) v
  | (_, _, None) => true
  end.

(** The [cost_usd] column, in rowid order. *)
Definition costs (db : Database) : list F64.t :=
  List.map row_cost_usd (persisted db).

Definition in_int64 (z : Z) : bool := (int64_min <=? z) && (z <=? int64_max).

(** A record SQLite accepts: its counts fit a 64-bit INTEGER and its cost is
    a number. *)
Definition storable (c : CostLog) : bool :=
  in_int64 (tokens_in c) && in_int64 (tokens_out c) && in_int64 (latency_ms c)
  && negb (F64.is_nan (cost_usd c)).

(** What a top-N query must return for the rows [matching]: one entry per
    group, no group twice; each entry carries its group's summed cost and
    row count; entries in non-increasing order of summed cost; at most
    [limit] of them when [limit >= 0]; and a group is left out only when the
    result is full and no entry in it has a smaller sum. *)
Definition is_top (col : column) (limit : Z) (matching : list Row)
  (res : list (string * F64.t * Z)) : Prop :=
  List.NoDup (List.map (fun g => fst (fst g)) res) /\
  (forall k x n, In (k, x, n) res ->
     members col matching k <> [] /\
     x = F64.sum (List.map row_cost_usd (members col matching k)) /\
     n = Z.of_nat (List.length (members col matching k))) /\
  StronglySorted (fun a b => F64.leb (snd (fst b)) (snd (fst a)) = true) res /\
  (0 <= limit -> Z.of_nat (List.length res) <= limit) /\
  (forall r, In r matching ->
     In (column_text r col) (List.map (fun g => fst (fst g)) res) \/
     (0 <= limit /\ Z.of_nat (List.length res) = limit /\
      forall g, In g res ->
        F64.leb (F64.sum (List.map row_cost_usd
                            (members col matching (column_text r col))))
                (snd (fst g)) = true)).

(** A total as SQLite holds it: [NULL] or a number, never NaN. *)
Definition sql_real (v : option F64.t) : Prop :=
  match v with Some x => F64.is_nan x = false | None => True end.

Definition wrap (g : string * F64.t * Z) : string * option F64.t * Z :=
  (fst (fst g), Some (snd (fst g)), snd g).

(** The tracker's storage, when it has one, is a ready store on disk, as
    [init_tracker] and [get_storage] leave it. *)
Definition world_ok (w : World) : bool :=
  match _storage w with
  | None => true
  | Some s =>
      match files w !! db_path s with
      | Some db => ready db
      | None => false
      end
  end.

(** *** The records of the repository's storage test *)

Definition example_time : datetime :=
  {| year := 2024; month := 1; day := 5;
     hour := 7; minute := 0; second := 9; microsecond := 0 |}.

Definition example_records : list CostLog :=
  [ {| user_id := "alice"; feature := "chat"; model := "gpt-4o-mini";
       tokens_in := 100; tokens_out := 200; cost_usd := F64.lit_0_0002;
       latency_ms := 120; timestamp := example_time; org_id := "org-1";
       metadata := [("env", "test")] |};
    {| user_id := "bob"; feature := "summary"; model := "claude-sonnet-3.5";
       tokens_in := 300; tokens_out := 500; cost_usd := F64.lit_0_0014;
       latency_ms := 90; timestamp := example_time; org_id := "org-1";
       metadata := [("env", "test")] |};
    {| user_id := "alice"; feature := "summary"; model := "gpt-4o-mini";
       tokens_in := 200; tokens_out := 100; cost_usd := F64.lit_0_00009;
       latency_ms := 70; timestamp := example_time; org_id := "org-1";
       metadata := [("env", "test")] |} ].

Definition example_store : Database :=
  snd (append_all example_records fresh_store).

(** *** A store filled out of time order

    Three calls of one user, logged latest first, and the filters that
    select the three days. *)

Definition cost_0_1 : F64.t := Eval vm_compute in Prim2SF 0.1%float.
Definition cost_0_2 : F64.t := Eval vm_compute in Prim2SF 0.2%float.
Definition cost_0_3 : F64.t := Eval vm_compute in Prim2SF 0.3%float.
Definition cost_0_6000000000000001 : F64.t :=
  Eval vm_compute in Prim2SF (0.1 + 0.2 + 0.3)%float.

Definition january (d : Z) : datetime :=
  {| year := 2024; month := 1; day := d;
     hour := 0; minute := 0; second := 0; microsecond := 0 |}.

Definition backfilled_call (cost : F64.t) (d : Z) : CostLog :=
  {| user_id := "alice"; feature := "chat"; model := "gpt-4o";
     tokens_in := 1; tokens_out := 1; cost_usd := cost;
     latency_ms := 0; timestamp := january d; org_id := "org-1";
     metadata := [] |}.

Definition backfilled_store : Database :=
  snd (append_all [ backfilled_call cost_0_1 3; backfilled_call cost_0_2 2;
                    backfilled_call cost_0_3 1 ] fresh_store).

Definition first_days : option (gmap string pyval) :=
  Some {[ "start_time" := PyStr (isoformat (january 1));
          "end_time" := PyStr (isoformat (january 3)) ]}.


(** Row ids grow strictly along the table. *)
Definition ids_increasing (db : Database) : Prop :=
  StronglySorted Z.lt (List.map row_id (persisted db)).

(** The conjuncts and parameters that a list of conditions stands for: one
    per supplied value, in the order of the list. *)
Fixpoint clauses_of (conds : list (column * cmp_op * option string))
  : list clause * list string :=
  match conds with
  | [] => ([], [])
  | (col, o, Some v) :: rest =>
      ({| lhs := col; op := o |} :: fst (clauses_of rest),
       v :: snd (clauses_of rest))
  | (_, _, None) :: rest => clauses_of rest
  end.

(** The sum of the call counts of a result. *)
Definition total_calls (res : list (string * F64.t * Z)) : Z :=
  fold_right Z.add 0 (List.map snd res).

Definition example_record : CostLog :=
  {| user_id := "carol"; feature := "chat"; model := "gpt-4o";
     tokens_in := 40; tokens_out := 0; cost_usd := F64.lit_0_0002;
     latency_ms := 15; timestamp := example_time; org_id := "org-2";
     metadata := [] |}.



(** A record whose metadata holds a quote, a line break and a character
    beyond ASCII, U+00E9. *)
Definition accented_record : CostLog :=
  {| user_id := "carol"; feature := "chat"; model := "gpt-4o";
     tokens_in := 40; tokens_out := 0; cost_usd := F64.lit_0_0002;
     latency_ms := 15; timestamp := example_time; org_id := "org-2";
     metadata := [("note", String "034" (String "010" (String "233" "")))] |}.

(** The database a connection to [path] would see. *)
Definition file_at (w : World) (path : string) : Database :=
  default empty_database (files w !! path).

(** The field ranges of a Python [datetime]. *)
Definition valid_datetime (d : datetime) : bool :=
  (1 <=? year d) && (year d <=? 9999) && (1 <=? month d) && (month d <=? 12)
  && (1 <=? day d) && (day d <=? 31) && (0 <=? hour d) && (hour d <=? 23)
  && (0 <=? minute d) && (minute d <=? 59)
  && (0 <=? second d) && (second d <=? 59)
  && (0 <=? microsecond d) && (microsecond d <=? 999999).

Definition then_compare (c1 c2 : comparison) : comparison :=
  match c1 with Eq => c2 | _ => c1 end.

(** Which of two instants comes first. *)
Definition datetime_compare (a b : datetime) : comparison :=
  then_compare (year a ?= year b)
    (then_compare (month a ?= month b)
      (then_compare (day a ?= day b)
        (then_compare (hour a ?= hour b)
          (then_compare (minute a ?= minute b)
            (then_compare (second a ?= second b)
              (microsecond a ?= microsecond b)))))).

(** A printable ASCII character, U+0020 to U+007E. *)
Definition printable (c : ascii) : bool :=
  ((32 <=? Str.code c) && (Str.code c <=? 126))%N.

(** * Properties *)

(** ** Worked examples *)

Example ex_keys_by_specificity :
  keys_by_specificity =
  [ "claude-sonnet-3.5"; "claude-haiku-3.5"; "claude-sonnet-4";
    "gpt-3.5-turbo"; "claude-opus-4"; "gpt-4-turbo"; "gpt-4o-mini";
    "gpt-4o"; "gpt-4" ].
Proof. reflexivity. Qed.

Example ex_resolve_gpt4o_mini :
  get_model_pricing "gpt-4o-mini" = Ok (F64.lit_0_15, F64.lit_0_6).
Proof. reflexivity. Qed.

Example ex_resolve_alias :
  _resolve_model_key " Claude_3_5_Sonnet-20241022 " = Ok "claude-sonnet-3.5".
Proof. reflexivity. Qed.

Example ex_resolve_unknown :
  get_model_pricing "not-a-real-model" = Raise (UnsupportedModel "not-a-real-model").
Proof. reflexivity. Qed.

Example ex_cost_preview :
  calculate_cost "gpt-4-0125-preview" 1000 500 = Ok F64.lit_0_06.
Proof. vm_compute. reflexivity. Qed.

(** ** Strings *)

Lemma append_nil (b : string) : "" +:+ b = b.
Proof. reflexivity. Qed.

Lemma append_cons (x : ascii) (a b : string) :
  String x a +:+ b = String x (a +:+ b).
Proof. reflexivity. Qed.

Lemma append_assoc (a b c : string) : (a +:+ b) +:+ c = a +:+ (b +:+ c).
Proof.
  induction a as [|x a IH]; [reflexivity |].
  rewrite !append_cons. now rewrite IH.
Qed.

Lemma append_empty_r (a : string) : a +:+ "" = a.
Proof.
  induction a as [|x a IH]; [reflexivity |].
  rewrite append_cons. now rewrite IH.
Qed.

Lemma lstrip_spec (s : string) :
  exists l, s = l +:+ Str.lstrip s /\ Str.all Str.is_space l = true.
Proof.
  induction s as [|c s [l [E Hl]]]; simpl.
  - exists "". auto.
  - destruct (Str.is_space c) eqn:Hc.
    + exists (String c l). rewrite append_cons. simpl. rewrite Hc, Hl.
      split; [now f_equal | reflexivity].
    + exists "". auto.
Qed.

Lemma lstrip_head (s : string) :
  match Str.lstrip s with
  | String c _ => Str.is_space c = false
  | EmptyString => True
  end.
Proof.
  induction s as [|c s IH]; simpl; [exact I |].
  destruct (Str.is_space c) eqn:Hc; [exact IH | simpl; exact Hc].
Qed.

Lemma rstrip_spec (s : string) :
  exists r, s = Str.rstrip s +:+ r /\ Str.all Str.is_space r = true.
Proof.
  induction s as [|c s [r [E Hr]]]; simpl.
  - exists "". auto.
  - destruct (Str.is_space c && Str.is_empty (Str.rstrip s)) eqn:Hc.
    + apply andb_true_iff in Hc as [Hc He].
      destruct (Str.rstrip s); [|discriminate]. rewrite append_nil in E.
      exists (String c r). rewrite append_nil. simpl. rewrite Hc, Hr.
      split; [now f_equal | reflexivity].
    + exists r. rewrite append_cons. split; [now f_equal | exact Hr].
Qed.

Lemma rstrip_head (s : string) :
  match Str.rstrip s with
  | String c _ => exists s', s = String c s'
  | EmptyString => True
  end.
Proof.
  destruct s as [|c s]; simpl; [exact I |].
  destruct (Str.is_space c && Str.is_empty (Str.rstrip s)); [exact I | eauto].
Qed.

Lemma rstrip_last (s u : string) (c : ascii) :
  Str.rstrip s = u +:+ String c "" -> Str.is_space c = false.
Proof.
  revert u. induction s as [|x s IH]; intros u; simpl.
  - destruct u; discriminate.
  - destruct (Str.is_space x && Str.is_empty (Str.rstrip s)) eqn:Hx.
    + destruct u; discriminate.
    + destruct u as [|y u].
      * rewrite append_nil. intros E. injection E as E1 E2.
        subst x. rewrite E2 in Hx. simpl in Hx.
        now rewrite andb_true_r in Hx.
      * rewrite append_cons. intros E. injection E as E1 E2.
        now apply (IH u).
Qed.

Lemma strip_trimmed (s : string) : trimmed s (Str.strip s).
Proof.
  unfold trimmed, Str.strip. split; [|split].
  - destruct (lstrip_spec s) as [l [El Hl]].
    destruct (rstrip_spec (Str.lstrip s)) as [r [Er Hr]].
    exists l, r. split; [|auto].
    rewrite <- Er. exact El.
  - pose proof (rstrip_head (Str.lstrip s)) as H.
    pose proof (lstrip_head s) as H'.
    destruct (Str.rstrip (Str.lstrip s)) as [|c t]; [exact I |].
    destruct H as [s' E]. rewrite E in H'. exact H'.
  - intros u c. apply rstrip_last.
Qed.

Lemma prefix_comparable (a b n : string) :
  String.prefix a n = true -> String.prefix b n = true ->
  String.prefix a b = true \/ String.prefix b a = true.
Proof.
  revert a b. induction n as [|x n IH]; intros a b Ha Hb.
  - destruct a; [|discriminate]. left. now destruct b.
  - destruct a as [|y a]; [left; now destruct b |].
    destruct b as [|z b]; [right; reflexivity |].
    simpl in *.
    destruct (ascii_dec y x) as [->|]; [|discriminate].
    destruct (ascii_dec z x) as [->|]; [|discriminate].
    destruct (ascii_dec x x); [|congruence]. now apply IH.
Qed.

(** ** Binary64: order and sign *)

Lemma compare_cont_antisym_eq (m1 m2 : positive) :
  Pos.compare_cont Eq m2 m1 = CompOpp (Pos.compare_cont Eq m1 m2).
Proof. apply (Pos.compare_antisym m1 m2). Qed.

Lemma SFcompare_antisym (a b : spec_float) :
  SFcompare b a = option_map CompOpp (SFcompare a b).
Proof.
  destruct a as [sa|sa| |sa ma ea], b as [sb|sb| |sb mb eb]; simpl;
    try reflexivity; try (destruct sa; reflexivity);
    try (destruct sb; reflexivity);
    try (destruct sa, sb; reflexivity).
  destruct sa, sb; simpl; try reflexivity;
    rewrite (Z.compare_antisym ea eb); destruct (ea ?= eb) eqn:E; simpl;
    try reflexivity; rewrite compare_cont_antisym_eq;
    destruct (Pos.compare_cont Eq ma mb); reflexivity.
Qed.

Lemma SFcompare_some (a b : spec_float) :
  F64.is_nan a = false -> F64.is_nan b = false ->
  exists c, SFcompare a b = Some c.
Proof.
  destruct a, b; simpl; intros; try discriminate; eauto.
Qed.

Lemma F64_leb_total (a b : F64.t) :
  F64.is_nan a = false -> F64.is_nan b = false ->
  F64.leb a b = true \/ F64.leb b a = true.
Proof.
  intros Ha Hb. unfold F64.leb, SFleb.
  rewrite (SFcompare_antisym a b).
  destruct (SFcompare_some a b Ha Hb) as [c ->]. destruct c; simpl; auto.
Qed.

Lemma F64_leb_rank (a b : F64.t) :
  F64.is_nan a = false -> F64.is_nan b = false ->
  (F64.leb a b = true <-> rank_le (rank a) (rank b)).
Proof.
  unfold F64.leb, SFleb.
  destruct a as [sa|sa| |sa ma ea], b as [sb|sb| |sb mb eb]; simpl;
    intros Ha Hb; try discriminate;
    try (destruct sa; simpl; split; intros; try discriminate; try lia; auto; fail);
    try (destruct sb; simpl; split; intros; try discriminate; try lia; auto; fail);
    try (destruct sa, sb; simpl; split; intros; try discriminate; try lia; auto; fail).
  destruct sa, sb; simpl; try (split; intros; try discriminate; try reflexivity; lia).
  - destruct (Z.compare_spec ea eb) as [E|E|E];
      [ | split; intros; [discriminate | lia] | split; intros; [lia | reflexivity] ].
    subst eb. rewrite Pos.compare_cont_spec. simpl.
    destruct (Pos.compare_spec ma mb) as [F|F|F]; simpl;
      split; intros; try discriminate; try reflexivity; lia.
  - destruct (Z.compare_spec ea eb) as [E|E|E];
      [ | split; intros; [lia | reflexivity] | split; intros; [discriminate | lia] ].
    subst eb. rewrite Pos.compare_cont_spec. simpl.
    destruct (Pos.compare_spec ma mb) as [F|F|F]; simpl;
      split; intros; try discriminate; try reflexivity; lia.
Qed.

Lemma F64_leb_trans (a b c : F64.t) :
  F64.leb a b = true -> F64.leb b c = true -> F64.leb a c = true.
Proof.
  intros Hab Hbc.
  assert (Na : F64.is_nan a = false) by (destruct a; [reflexivity.. | destruct b; discriminate | reflexivity]).
  assert (Nb : F64.is_nan b = false) by (destruct b; [reflexivity.. | destruct a; discriminate | reflexivity]).
  assert (Nc : F64.is_nan c = false) by (destruct c; [reflexivity.. | destruct b; discriminate | reflexivity]).
  apply (F64_leb_rank a b Na Nb) in Hab. apply (F64_leb_rank b c Nb Nc) in Hbc.
  apply (F64_leb_rank a c Na Nc).
  destruct (rank a) as [[a1 a2] a3], (rank b) as [[b1 b2] b3],
           (rank c) as [[c1 c2] c3].
  unfold rank_le in *. lia.
Qed.

Lemma nonneg_not_nan (x : F64.t) : F64.nonneg x = true -> F64.is_nan x = false.
Proof. destruct x; simpl; congruence. Qed.

Lemma shr_1_nonneg (mrs : shr_record) :
  0 <= shr_m mrs -> 0 <= shr_m (shr_1 mrs).
Proof.
  destruct mrs as [m r s]. destruct m as [|[p|p|]|[p|p|]]; simpl; lia.
Qed.

Lemma iter_shr_1_nonneg (n : positive) (mrs : shr_record) :
  0 <= shr_m mrs -> 0 <= shr_m (SpecFloat.iter_pos shr_1 n mrs).
Proof.
  revert mrs. induction n as [n IH|n IH|]; intros mrs H; simpl.
  - apply IH, IH, shr_1_nonneg, H.
  - apply IH, IH, H.
  - apply shr_1_nonneg, H.
Qed.

Lemma shr_fexp_nonneg (m e : Z) (l : location) :
  0 <= m -> 0 <= shr_m (fst (shr_fexp prec emax m e l)).
Proof.
  intros H. unfold shr_fexp, shr.
  assert (H0 : 0 <= shr_m (shr_record_of_loc m l))
    by (destruct l as [|[]]; simpl; exact H).
  destruct (fexp prec emax (Zdigits2 m + e) - e); simpl; auto.
  now apply iter_shr_1_nonneg.
Qed.

Lemma round_nearest_even_nonneg (m : Z) (l : location) :
  0 <= m -> 0 <= round_nearest_even m l.
Proof.
  intros H. destruct l as [|[]]; simpl; try lia.
  destruct (Z.even m); lia.
Qed.

(** Rounding a non-negative mantissa with a positive sign gives a
    non-negative float. *)
Lemma binary_round_aux_nonneg (m e : Z) (l : location) :
  0 <= m -> F64.nonneg (binary_round_aux prec emax false m e l) = true.
Proof.
  intros H. unfold binary_round_aux.
  pose proof (shr_fexp_nonneg m e l H) as H1.
  destruct (shr_fexp prec emax m e l) as [mrs' e']. simpl in H1.
  pose proof (round_nearest_even_nonneg _ (loc_of_shr_record mrs') H1) as H2.
  pose proof (shr_fexp_nonneg _ e' loc_Exact H2) as H3.
  destruct (shr_fexp prec emax _ e' loc_Exact) as [mrs'' e'']. simpl in H3.
  destruct (shr_m mrs''); [reflexivity | | lia].
  destruct (e'' <=? emax - prec); reflexivity.
Qed.

Lemma binary_round_nonneg (m : positive) (e : Z) :
  F64.nonneg (binary_round prec emax false m e) = true.
Proof.
  unfold binary_round. destruct (shl_align m e _) as [mz ez].
  apply binary_round_aux_nonneg. lia.
Qed.

Lemma of_int_nonneg (z : Z) (x : F64.t) :
  0 <= z -> F64.of_int z = Ok x -> F64.nonneg x = true.
Proof.
  intros Hz. unfold F64.of_int, binary_normalize.
  destruct z as [|p|p]; [intros [= <-]; reflexivity | | lia].
  pose proof (binary_round_nonneg p 0) as H.
  destruct (binary_round prec emax false p 0); try discriminate;
    intros [= <-]; exact H.
Qed.

Lemma add_nonneg (x y : F64.t) :
  F64.nonneg x = true -> F64.nonneg y = true -> F64.nonneg (F64.add x y) = true.
Proof.
  destruct x as [sx|sx| |sx mx ex], y as [sy|sy| |sy my ey]; simpl;
    try discriminate; try reflexivity; intros Hx Hy;
    try (destruct sx, sy; simpl in *; congruence).
  apply negb_true_iff in Hx, Hy. subst sx sy. simpl.
  unfold binary_normalize.
  destruct (shl_align mx ex (Z.min ex ey)) as [m1 e1].
  destruct (shl_align my ey (Z.min ex ey)) as [m2 e2]. simpl.
  apply binary_round_nonneg.
Qed.

Lemma sum_nonneg (l : list F64.t) :
  Forall (fun x => F64.nonneg x = true) l -> F64.nonneg (F64.sum l) = true.
Proof.
  unfold F64.sum. generalize F64.zero, (eq_refl : F64.nonneg F64.zero = true).
  induction l as [|x l IH]; intros acc Hacc Hl; simpl; [exact Hacc |].
  inversion Hl; subst. apply IH; [|assumption]. now apply add_nonneg.
Qed.

Lemma mul_nonneg_finite (x : F64.t) (m : positive) (e : Z) :
  F64.nonneg x = true ->
  F64.nonneg (F64.mul x (S754_finite false m e)) = true.
Proof.
  destruct x as [sx|sx| |sx mx ex]; simpl; try discriminate; try reflexivity;
    intros Hx.
  - now rewrite xorb_false_r.
  - apply negb_true_iff in Hx. subst sx. simpl.
    apply binary_round_aux_nonneg. lia.
Qed.

Lemma div_nonneg_finite (x : F64.t) (m : positive) (e : Z) :
  F64.nonneg x = true ->
  F64.nonneg (F64.div x (S754_finite false m e)) = true.
Proof.
  destruct x as [sx|sx| |sx mx ex]; simpl; try discriminate; try reflexivity;
    intros Hx.
  - now rewrite xorb_false_r.
  - apply negb_true_iff in Hx. subst sx. simpl.
    unfold SFdiv_core_binary.
    set (s := ex - e - _).
    set (m' := match s with Z.pos _ => Z.shiftl (Z.pos mx) s | 0 => Z.pos mx
                        | Z.neg _ => 0 end).
    assert (Hm' : 0 <= m').
    { unfold m'. destruct s; try lia. apply Z.shiftl_nonneg. lia. }
    pose proof (Z_div_mod m' (Z.pos m) eq_refl) as D.
    destruct (Z.div_eucl m' (Z.pos m)) as [q r].
    apply binary_round_aux_nonneg. nia.
Qed.

(** ** Binary64: conversion of 64-bit counts *)

Lemma digits2_pos_size (p : positive) : digits2_pos p = Pos.size p.
Proof. induction p; simpl; congruence. Qed.

Lemma Zdigits2_nonneg (m : Z) : 0 <= Zdigits2 m.
Proof. destruct m; simpl; lia. Qed.

Lemma Zdigits2_gt (p : positive) : Z.pos p < 2 ^ Zdigits2 (Z.pos p).
Proof.
  simpl. rewrite digits2_pos_size, <- Pos2Z.inj_pow. apply Pos.size_gt.
Qed.

Lemma Zdigits2_bound (p : positive) (n : Z) :
  0 <= n -> Z.pos p < 2 ^ n -> Zdigits2 (Z.pos p) <= n.
Proof.
  intros Hn Hp. simpl. rewrite digits2_pos_size.
  destruct (Z.le_gt_cases (Z.pos (Pos.size p)) n) as [H|H]; [exact H |].
  exfalso. pose proof (Pos.size_le p) as L.
  assert (L' : 2 ^ Z.pos (Pos.size p) <= Z.pos p~0)
    by (rewrite <- Pos2Z.inj_pow; exact L).
  assert (M : 2 ^ (n + 1) <= 2 ^ Z.pos (Pos.size p))
    by (apply Z.pow_le_mono_r; lia).
  rewrite Z.pow_add_r in M by lia. lia.
Qed.

Lemma Zdigits2_succ (m : Z) : 0 <= m -> Zdigits2 (m + 1) <= Zdigits2 m + 1.
Proof.
  intros H. destruct m as [|p|p]; [simpl; lia | | lia].
  change (Z.pos p + 1) with (Z.pos (p + 1)).
  apply Zdigits2_bound; [pose proof (Zdigits2_nonneg (Z.pos p)); lia |].
  pose proof (Zdigits2_gt p) as G.
  rewrite Z.pow_add_r by (pose proof (Zdigits2_nonneg (Z.pos p)); lia).
  lia.
Qed.

Lemma shr_1_digits (mrs : shr_record) :
  0 <= shr_m mrs -> Zdigits2 (shr_m (shr_1 mrs)) <= Zdigits2 (shr_m mrs).
Proof.
  destruct mrs as [m r s]. destruct m as [|[p|p|]|[p|p|]]; simpl; lia.
Qed.

Lemma iter_shr_1_digits (n : positive) (mrs : shr_record) :
  0 <= shr_m mrs ->
  Zdigits2 (shr_m (SpecFloat.iter_pos shr_1 n mrs)) <= Zdigits2 (shr_m mrs).
Proof.
  revert mrs. induction n as [n IH|n IH|]; intros mrs H; simpl.
  - pose proof (shr_1_digits mrs H) as D0.
    pose proof (shr_1_nonneg mrs H) as N1.
    pose proof (IH _ N1) as D1.
    pose proof (iter_shr_1_nonneg n _ N1) as N2.
    pose proof (IH _ N2) as D2. lia.
  - pose proof (IH _ H) as D1.
    pose proof (iter_shr_1_nonneg n _ H) as N2.
    pose proof (IH _ N2) as D2. lia.
  - now apply shr_1_digits.
Qed.

Lemma shr_fexp_bounds (m e : Z) (l : location) :
  0 <= m ->
  Zdigits2 (shr_m (fst (shr_fexp prec emax m e l))) <= Zdigits2 m /\
  snd (shr_fexp prec emax m e l) = Z.max e (fexp prec emax (Zdigits2 m + e)).
Proof.
  intros H. unfold shr_fexp, shr.
  assert (H0 : shr_m (shr_record_of_loc m l) = m)
    by (destruct l as [|[]]; reflexivity).
  destruct (fexp prec emax (Zdigits2 m + e) - e) eqn:E; simpl.
  - rewrite H0. lia.
  - split; [|lia]. rewrite <- H0 at 2. apply iter_shr_1_digits. now rewrite H0.
  - rewrite H0. lia.
Qed.

Lemma round_nearest_even_digits (m : Z) (l : location) :
  0 <= m -> Zdigits2 (round_nearest_even m l) <= Zdigits2 m + 1.
Proof.
  intros H. pose proof (Zdigits2_succ m H).
  destruct l as [|[]]; simpl; try lia. destruct (Z.even m); lia.
Qed.

(** Rounding a moderate mantissa and exponent cannot overflow. *)
Lemma binary_round_aux_no_overflow (m e : Z) (l : location) :
  0 <= m -> Zdigits2 m <= 200 -> -200 <= e <= 200 ->
  match binary_round_aux prec emax false m e l with
  | S754_infinity _ | S754_nan => False
  | _ => True
  end.
Proof.
  intros Hm Hd He. unfold binary_round_aux.
  pose proof (shr_fexp_nonneg m e l Hm) as N1.
  destruct (shr_fexp_bounds m e l Hm) as [D1 E1].
  destruct (shr_fexp prec emax m e l) as [mrs' e']. simpl in N1, D1, E1.
  pose proof (round_nearest_even_nonneg _ (loc_of_shr_record mrs') N1) as N2.
  pose proof (round_nearest_even_digits _ (loc_of_shr_record mrs') N1) as D2.
  pose proof (shr_fexp_nonneg _ e' loc_Exact N2) as N3.
  destruct (shr_fexp_bounds _ e' loc_Exact N2) as [_ E3].
  destruct (shr_fexp prec emax _ e' loc_Exact) as [mrs'' e'']. simpl in N3, E3.
  destruct (shr_m mrs''); [exact I | | lia].
  assert (B : e'' <= emax - prec).
  { subst e'' e'. unfold fexp, SpecFloat.emin, emax, prec.
    pose proof (Zdigits2_nonneg m).
    pose proof (Zdigits2_nonneg (round_nearest_even (shr_m mrs')
                                   (loc_of_shr_record mrs'))).
    lia. }
  apply Z.leb_le in B. now rewrite B.
Qed.

Lemma iter_xO_digits (p d : positive) :
  Z.pos (digits2_pos (Pos.iter xO p d)) = Z.pos (digits2_pos p) + Z.pos d.
Proof.
  induction d as [|d IH] using Pos.peano_ind.
  - simpl. lia.
  - rewrite Pos.iter_succ. simpl. lia.
Qed.

(** Every count of the 64-bit range converts to a float. *)
Lemma of_int_int64 (z : Z) :
  0 <= z <= int64_max -> exists x, F64.of_int z = Ok x.
Proof.
  unfold int64_max. intros Hz. unfold F64.of_int, binary_normalize.
  destruct z as [|p|p]; [eauto | | lia].
  assert (Hd : Zdigits2 (Z.pos p) <= 63)
    by (apply Zdigits2_bound; lia).
  simpl in Hd. unfold binary_round, shl_align.
  assert (Hf : -52 <= fexp prec emax (Z.pos (digits2_pos p) + 0) <= 10)
    by (unfold fexp, SpecFloat.emin, emax, prec; lia).
  destruct (fexp prec emax (Z.pos (digits2_pos p) + 0) - 0) as [|q|q] eqn:E.
  - pose proof (binary_round_aux_no_overflow (Z.pos p) 0 loc_Exact) as B.
    destruct (binary_round_aux prec emax false (Z.pos p) 0 loc_Exact);
      eauto; exfalso; apply B; simpl; lia.
  - pose proof (binary_round_aux_no_overflow (Z.pos p) 0 loc_Exact) as B.
    destruct (binary_round_aux prec emax false (Z.pos p) 0 loc_Exact);
      eauto; exfalso; apply B; simpl; lia.
  - pose proof (binary_round_aux_no_overflow
                  (Z.pos (Pos.iter xO p q))
                  (fexp prec emax (Z.pos (digits2_pos p) + 0)) loc_Exact) as B.
    destruct (binary_round_aux prec emax false (Z.pos (Pos.iter xO p q)) _
                               loc_Exact);
      eauto; exfalso; apply B; try lia;
      simpl; rewrite iter_xO_digits; lia.
Qed.

(** ** The pricing resolver *)

Lemma insert_by_len_perm (x : string) (l : list string) :
  Permutation (insert_by_len x l) (x :: l).
Proof.
  induction l as [|y l IH]; simpl; [reflexivity |].
  destruct (Str.len y <=? Str.len x); [reflexivity |].
  rewrite IH. apply perm_swap.
Qed.

Lemma sorted_by_len_desc_perm (l : list string) :
  Permutation (sorted_by_len_desc l) l.
Proof.
  induction l as [|x l IH]; simpl; [reflexivity |].
  rewrite insert_by_len_perm. now constructor.
Qed.

Lemma insert_by_len_sorted (x : string) (l : list string) :
  by_descending_length l -> by_descending_length (insert_by_len x l).
Proof.
  unfold by_descending_length.
  induction 1 as [|y l Hs IH Hy]; simpl.
  - repeat constructor.
  - destruct (Str.len y <=? Str.len x) eqn:E.
    + apply Z.leb_le in E. constructor; [now constructor |].
      constructor; [exact E |].
      eapply List.Forall_impl; [|exact Hy]. simpl. intros; lia.
    + apply Z.leb_gt in E. constructor; [exact IH |].
      eapply Permutation_Forall; [symmetry; apply insert_by_len_perm |].
      constructor; [lia | exact Hy].
Qed.

Lemma sorted_by_len_desc_sorted (l : list string) :
  by_descending_length (sorted_by_len_desc l).
Proof.
  induction l as [|x l IH]; simpl; [constructor |].
  now apply insert_by_len_sorted.
Qed.

Lemma first_match_find {A : Type} (p : A -> bool) (l : list A) (x : A) :
  first_match p l x -> List.find p l = Some x.
Proof.
  intros (l1 & l2 & -> & Hx & Hl1).
  induction l1 as [|y l1 IH]; simpl.
  - now rewrite Hx.
  - rewrite (Hl1 y (or_introl eq_refl)). apply IH.
    intros z Hz. apply Hl1. now right.
Qed.

Lemma find_first_match {A : Type} (p : A -> bool) (l : list A) (x : A) :
  List.find p l = Some x -> first_match p l x.
Proof.
  induction l as [|y l IH]; simpl; [discriminate |].
  destruct (p y) eqn:Hy.
  - intros [= ->]. exists [], l. simpl.
    split; [reflexivity |]. split; [exact Hy | intros ? []].
  - intros H. destruct (IH H) as (l1 & l2 & -> & Hx & Hl1).
    exists (y :: l1), l2. simpl. split; [reflexivity |]. split; [exact Hx |].
    intros z [<- | Hz]; auto.
Qed.

Lemma mem_get {V : Type} (d : Dict.t V) (k : string) :
  Dict.mem k d = true <-> exists v, Dict.get d k = Some v.
Proof.
  unfold Dict.mem. destruct (Dict.get d k); split; eauto; try discriminate.
  now intros [v [=]].
Qed.

Lemma get_In_keys {V : Type} (d : Dict.t V) (k : string) :
  In k (Dict.keys d) <-> exists v, Dict.get d k = Some v.
Proof.
  induction d as [|[k' v'] d IH]; simpl.
  - split; [tauto | now intros [v [=]]].
  - destruct (String.eqb_spec k k') as [->|Hne].
    + split; eauto.
    + rewrite <- IH. split; [intros [E|H]; [congruence | exact H] | auto].
Qed.

Lemma alias_canonical_priced (p c : string) :
  In (p, c) _ALIASES -> exists rates, Dict.get PRICING c = Some rates.
Proof.
  simpl. intros [E|[E|[E|[]]]]; injection E as <- <-; eexists; reflexivity.
Qed.

Lemma alias_unique (n p1 c1 p2 c2 : string) :
  In (p1, c1) _ALIASES -> In (p2, c2) _ALIASES ->
  Str.startswith n p1 = true -> Str.startswith n p2 = true -> c1 = c2.
Proof.
  unfold Str.startswith. intros H1 H2 P1 P2.
  destruct (prefix_comparable _ _ _ P1 P2) as [C|C]; revert C; clear P1 P2;
    simpl in H1, H2;
    destruct H1 as [E1|[E1|[E1|[]]]]; injection E1 as <- <-;
    destruct H2 as [E2|[E2|[E2|[]]]]; injection E2 as <- <-;
    vm_compute; congruence.
Qed.

Lemma find_alias_none (n : string) :
  List.find (fun a => Str.startswith n (fst a)) _ALIASES = None <->
  forall p c, In (p, c) _ALIASES -> Str.startswith n p = false.
Proof.
  split.
  - intros H p c Hin. exact (find_none _ _ H (p, c) Hin).
  - intros H. destruct (List.find _ _) as [[p c]|] eqn:E; [|reflexivity].
    apply find_some in E as [Hin Hp]. simpl in Hp.
    rewrite (H p c Hin) in Hp. discriminate.
Qed.

(** C1. The resolver normalizes its input (whitespace trimmed at both ends,
    lowercased, underscores turned into hyphens) and then follows a fixed
    precedence: a normalized name that is a pricing-table key gets that key's
    rates; otherwise a name that starts with an alias prefix gets the rates
    of the alias's canonical key; otherwise the keys are scanned longest
    first and the first key that the name starts with, or that occurs in the
    name, gives the rates; otherwise the call fails with UnsupportedModel.
    Resolving "gpt-4o-mini" yields (0.15, 0.6). *)
Theorem C1_resolver_precedence (name : string) :
  let n := _normalize_model_name name in
  (exists t, trimmed name t /\
             n = Str.map (fun c => if Ascii.eqb c "_" then "-"%char else c)
                         (Str.map Str.lower_char t)) /\
  (forall rates, Dict.get PRICING n = Some rates ->
                 get_model_pricing name = Ok rates) /\
  (Dict.get PRICING n = None ->
   forall p c, In (p, c) _ALIASES -> Str.startswith n p = true ->
   exists rates, Dict.get PRICING c = Some rates /\
                 get_model_pricing name = Ok rates) /\
  (Permutation keys_by_specificity (Dict.keys PRICING) /\
   by_descending_length keys_by_specificity) /\
  (Dict.get PRICING n = None ->
   (forall p c, In (p, c) _ALIASES -> Str.startswith n p = false) ->
   forall k,
     first_match (fun k => Str.startswith n k || Str.contains k n)
                 keys_by_specificity k ->
     exists rates, Dict.get PRICING k = Some rates /\
                   get_model_pricing name = Ok rates) /\
  (Dict.get PRICING n = None ->
   (forall p c, In (p, c) _ALIASES -> Str.startswith n p = false) ->
   (forall k, In k (Dict.keys PRICING) ->
              Str.startswith n k || Str.contains k n = false) ->
   get_model_pricing name = Raise (UnsupportedModel name)) /\
  get_model_pricing "gpt-4o-mini" = Ok (F64.lit_0_15, F64.lit_0_6).
Proof.
  intros n. repeat split.
  - exists (Str.strip name). split; [apply strip_trimmed | reflexivity].
  - intros rates H. unfold get_model_pricing, _resolve_model_key. fold n.
    assert (Hm : Dict.mem n PRICING = true) by (apply mem_get; eauto).
    rewrite Hm. simpl. unfold Dict.item. now rewrite H.
  - intros Hn p c Hin Hp.
    unfold get_model_pricing, _resolve_model_key. fold n.
    assert (Hm : Dict.mem n PRICING = false)
      by (unfold Dict.mem; now rewrite Hn).
    rewrite Hm.
    destruct (List.find _ _ALIASES) as [[p' c']|] eqn:E.
    + apply find_some in E as [Hin' Hp']. simpl in Hp'.
      assert (c' = c) as -> by (eapply alias_unique; eauto).
      destruct (alias_canonical_priced _ _ Hin) as [rates Hr].
      exists rates. split; [exact Hr |]. simpl. unfold Dict.item. now rewrite Hr.
    + pose proof (find_none _ _ E (p, c) Hin) as F. simpl in F. congruence.
  - apply sorted_by_len_desc_perm.
  - apply sorted_by_len_desc_sorted.
  - intros Hn Ha k Hk.
    unfold get_model_pricing, _resolve_model_key. fold n.
    assert (Hm : Dict.mem n PRICING = false)
      by (unfold Dict.mem; now rewrite Hn).
    rewrite Hm. apply find_alias_none in Ha. rewrite Ha.
    pose proof (first_match_find _ _ _ Hk) as F.
    unfold fuzzy_match. rewrite F.
    assert (Hin : In k (Dict.keys PRICING)).
    { destruct Hk as (l1 & l2 & E & _).
      eapply Permutation_in; [apply sorted_by_len_desc_perm |].
      fold keys_by_specificity. rewrite E. apply in_elt. }
    apply get_In_keys in Hin as [rates Hr].
    exists rates. split; [exact Hr |]. simpl. unfold Dict.item. now rewrite Hr.
  - intros Hn Ha Hk.
    unfold get_model_pricing, _resolve_model_key. fold n.
    assert (Hm : Dict.mem n PRICING = false)
      by (unfold Dict.mem; now rewrite Hn).
    rewrite Hm. apply find_alias_none in Ha. rewrite Ha.
    destruct (List.find (fuzzy_match n) keys_by_specificity) as [k|] eqn:E.
    + apply find_some in E as [Hin Hf]. unfold fuzzy_match in Hf.
      rewrite Hk in Hf; [discriminate |].
      eapply Permutation_in; [apply sorted_by_len_desc_perm | exact Hin].
    + reflexivity.
Qed.

(** ** Prefix matching of suffixed keys *)

Lemma all_app (p : ascii -> bool) (a b : string) :
  Str.all p (a +:+ b) = Str.all p a && Str.all p b.
Proof.
  induction a as [|x a IH]; [reflexivity |].
  rewrite append_cons. simpl. rewrite IH. now rewrite andb_assoc.
Qed.

Lemma all_impl (p q : ascii -> bool) (s : string) :
  (forall c, p c = true -> q c = true) ->
  Str.all p s = true -> Str.all q s = true.
Proof.
  intros H. induction s as [|c s IH]; simpl; [auto |].
  intros [Hc Hs]%andb_true_iff. rewrite (H c Hc). now apply IH.
Qed.

Lemma map_id_on (f : ascii -> ascii) (s : string) :
  Str.all (fun c => Ascii.eqb (f c) c) s = true -> Str.map f s = s.
Proof.
  induction s as [|c s IH]; simpl; [reflexivity |].
  intros [Hc Hs]%andb_true_iff. apply Ascii.eqb_eq in Hc.
  now rewrite Hc, IH.
Qed.

Lemma rstrip_no_space (s : string) :
  Str.all (fun c => negb (Str.is_space c)) s = true -> Str.rstrip s = s.
Proof.
  induction s as [|c s IH]; simpl; [reflexivity |].
  intros [Hc Hs]%andb_true_iff. apply negb_true_iff in Hc.
  now rewrite Hc, IH.
Qed.

Lemma lstrip_no_space (s : string) :
  Str.all (fun c => negb (Str.is_space c)) s = true -> Str.lstrip s = s.
Proof.
  destruct s as [|c s]; simpl; [reflexivity |].
  intros [Hc Hs]%andb_true_iff. apply negb_true_iff in Hc. now rewrite Hc.
Qed.

Lemma normalize_plain (s : string) :
  Str.all plain s = true -> _normalize_model_name s = s.
Proof.
  intros H. unfold _normalize_model_name, Str.strip, Str.lower, Str.replace.
  assert (Hs : Str.all (fun c => negb (Str.is_space c)) s = true).
  { eapply all_impl; [|exact H]. unfold plain. intros c Hc.
    now apply andb_true_iff in Hc as [[Hc _]%andb_true_iff _]. }
  rewrite (lstrip_no_space _ Hs), (rstrip_no_space _ Hs).
  rewrite (map_id_on Str.lower_char).
  - apply map_id_on. eapply all_impl; [|exact H]. unfold plain. intros c Hc.
    apply andb_true_iff in Hc as [_ Hc]. apply negb_true_iff in Hc.
    rewrite Hc. apply Ascii.eqb_refl.
  - eapply all_impl; [|exact H]. unfold plain. intros c Hc.
    now apply andb_true_iff in Hc as [[_ Hc]%andb_true_iff _].
Qed.

Lemma suffix_char_plain (c : ascii) : suffix_char c = true -> plain c = true.
Proof.
  destruct c as [[] [] [] [] [] [] [] []]; vm_compute; congruence.
Qed.

Lemma suffix_char_not_initial (c : ascii) :
  suffix_char c = true -> initial c = false.
Proof.
  destruct c as [[] [] [] [] [] [] [] []]; vm_compute; congruence.
Qed.

Lemma prefix_length (a b : string) :
  String.prefix a b = true -> (String.length a <= String.length b)%nat.
Proof.
  revert b. induction a as [|x a IH]; intros [|y b]; simpl; try lia;
    try discriminate.
  destruct (ascii_dec x y); [|discriminate]. intros H. apply IH in H. lia.
Qed.

Lemma prefix_same_length (a b : string) :
  String.prefix a b = true -> String.length a = String.length b -> a = b.
Proof.
  revert b. induction a as [|x a IH]; intros [|y b]; simpl; try discriminate;
    auto.
  destruct (ascii_dec x y) as [->|]; [|discriminate].
  intros H [= E]. f_equal. now apply IH.
Qed.

Lemma prefix_refl (a : string) : String.prefix a a = true.
Proof.
  induction a as [|x a IH]; simpl; [reflexivity |].
  destruct (ascii_dec x x); [exact IH | congruence].
Qed.

Lemma prefix_app (a b : string) : String.prefix a (a +:+ b) = true.
Proof.
  induction a as [|x a IH]; [now destruct b |].
  rewrite append_cons. simpl. destruct (ascii_dec x x); [exact IH | congruence].
Qed.

(** A prefix of [a +:+ b] lies within [a] or runs over into [b]. *)
Lemma prefix_app_inv (p a b : string) :
  String.prefix p (a +:+ b) = true ->
  String.prefix p a = true \/
  exists r, p = a +:+ r /\ String.prefix r b = true.
Proof.
  revert p. induction a as [|x a IH]; intros p.
  - rewrite append_nil. intros H. right. exists p. auto.
  - rewrite append_cons. destruct p as [|y p]; [now left |]. simpl.
    destruct (ascii_dec y x) as [->|]; [|discriminate].
    intros H. destruct (IH p H) as [Hp | (r & -> & Hr)]; [now left |].
    right. exists r. now rewrite append_cons.
Qed.

Lemma contains_not_initial (x : ascii) (p t : string) :
  initial x = true ->
  Str.all (fun c => negb (initial c)) t = true ->
  Str.contains (String x p) t = false.
Proof.
  intros Hx. induction t as [|c t IH]; simpl; [reflexivity |].
  intros [Hc Ht]%andb_true_iff. rewrite (IH Ht), orb_false_r.
  destruct (ascii_dec x c) as [->|]; [|reflexivity].
  rewrite Hx in Hc. discriminate.
Qed.

Lemma startswith_contains (n k : string) :
  Str.startswith n k = true -> Str.contains k n = true.
Proof.
  unfold Str.startswith. intros H. destruct n; simpl in *; now rewrite H.
Qed.

Lemma length_app (a b : string) :
  String.length (a +:+ b) = (String.length a + String.length b)%nat.
Proof.
  induction a as [|x a IH]; [reflexivity |].
  rewrite append_cons. simpl. now rewrite IH.
Qed.

Lemma rest_after_app (k r : string) : rest_after k (k +:+ r) = r.
Proof.
  induction k as [|x k IH]; [reflexivity |].
  rewrite append_cons. exact IH.
Qed.

Lemma split_on_all (C : ascii -> bool) (sep : ascii) (s : string) :
  C sep = true ->
  forallb (Str.all C) (split_on sep s) = true -> Str.all C s = true.
Proof.
  intros Hsep. induction s as [|c s IH]; simpl; [reflexivity |].
  destruct (Ascii.eqb_spec c sep) as [->|Hne]; simpl.
  - intros H. now rewrite Hsep, IH.
  - destruct (split_on sep s) as [|h t]; simpl.
    + rewrite !andb_true_r. intros H. rewrite H. now apply IH.
    + intros [[Hc Hh]%andb_true_iff Ht]%andb_true_iff.
      rewrite Hc. apply IH. simpl. now rewrite Hh, Ht.
Qed.

Lemma version_segment_chars (seg : string) :
  version_segment seg = true -> Str.all suffix_char seg = true.
Proof.
  unfold version_segment.
  intros [[_ H]%andb_true_iff | H%String.eqb_eq]%orb_true_iff.
  - eapply all_impl; [|exact H]. intros c Hc. unfold suffix_char.
    now rewrite Hc.
  - subst seg. reflexivity.
Qed.

Lemma version_segment_head (c : ascii) (h : string) :
  version_segment (String c h) = true -> is_digit c || Ascii.eqb c "p" = true.
Proof.
  unfold version_segment.
  intros [[_ H]%andb_true_iff | H%String.eqb_eq]%orb_true_iff.
  - simpl in H. apply andb_true_iff in H as [H _]. now rewrite H.
  - injection H as -> _. reflexivity.
Qed.

(** A version/date suffix opens with a hyphen and then a digit or [p], and
    is made of suffix characters throughout. *)
Lemma version_date_suffix_shape (b : string) :
  is_version_date_suffix b = true ->
  exists c b', b = String "-" (String c b') /\
               is_digit c || Ascii.eqb c "p" = true /\
               Str.all suffix_char b = true.
Proof.
  destruct b as [|a s]; simpl; [discriminate |].
  intros [Ha H]%andb_true_iff. apply Ascii.eqb_eq in Ha. subst a.
  assert (Hall : Str.all suffix_char s = true).
  { apply (split_on_all _ "-"); [reflexivity |].
    apply forallb_forall. intros seg Hseg. apply version_segment_chars.
    now apply (proj1 (forallb_forall _ _) H). }
  destruct s as [|c b']; simpl in H; [discriminate |].
  destruct (Ascii.eqb c "-"); simpl in H; [discriminate |].
  exists c, b'. split; [reflexivity |]. split.
  - destruct (split_on "-" b') as [|h t]; simpl in H;
      apply andb_true_iff in H as [H _]; now apply version_segment_head in H.
  - simpl. simpl in Hall. exact Hall.
Qed.

Lemma extension_blocked_prefix (r c b' : _) :
  extension_blocked r = true ->
  is_digit c || Ascii.eqb c "p" = true ->
  String.prefix r (String "-" (String c b')) = false.
Proof.
  intros Hr Hc. destruct r as [|x [|y r]]; simpl in *; [discriminate | |].
  - destruct (ascii_dec x "-") as [->|]; [discriminate | reflexivity].
  - destruct (ascii_dec x "-") as [->|]; [|reflexivity]. simpl in Hr.
    destruct (ascii_dec y c) as [->|]; [|reflexivity].
    rewrite Hc in Hr. discriminate.
Qed.

Lemma keys_shape (k : string) : In k (Dict.keys PRICING) -> key_shape k = true.
Proof.
  apply (proj1 (forallb_forall key_shape (Dict.keys PRICING))). reflexivity.
Qed.

Lemma keys_extension_blocked (k k' : string) :
  In k (Dict.keys PRICING) -> In k' (Dict.keys PRICING) ->
  String.prefix k k' = true -> k <> k' ->
  extension_blocked (rest_after k k') = true.
Proof.
  intros Hk Hk' Hp Hne.
  assert (H : forallb (fun a => forallb (fun b =>
                negb (String.prefix a b) || String.eqb a b
                || extension_blocked (rest_after a b))
              (Dict.keys PRICING)) (Dict.keys PRICING) = true)
    by reflexivity.
  pose proof (proj1 (forallb_forall _ _)
               (proj1 (forallb_forall _ _) H k Hk) k' Hk') as E.
  simpl in E. rewrite Hp in E. simpl in E.
  apply orb_true_iff in E as [E%String.eqb_eq | E]; [contradiction | exact E].
Qed.

Lemma keys_aliases_apart (k p c : string) :
  In k (Dict.keys PRICING) -> In (p, c) _ALIASES ->
  String.prefix p k = false /\ String.prefix k p = false.
Proof.
  intros Hk Hp.
  assert (H : forallb (fun a => forallb (fun b =>
                negb (String.prefix (fst b) a) && negb (String.prefix a (fst b)))
              _ALIASES) (Dict.keys PRICING) = true)
    by reflexivity.
  pose proof (proj1 (forallb_forall _ _)
               (proj1 (forallb_forall _ _) H k Hk) (p, c) Hp) as E.
  simpl in E. apply andb_true_iff in E as [E1 E2].
  now apply negb_true_iff in E1, E2.
Qed.

(** On a suffixed key, only keys that are prefixes of the key itself can
    match. *)
Lemma fuzzy_match_suffixed (k k' b : string) :
  In k (Dict.keys PRICING) -> In k' (Dict.keys PRICING) ->
  is_version_date_suffix b = true ->
  Str.contains k' (k +:+ b) = true -> String.prefix k' k = true.
Proof.
  intros Hk Hk' Hb Hc.
  destruct (version_date_suffix_shape b Hb) as (c & b' & -> & Hhead & Hall).
  pose proof (keys_shape k Hk) as Sk. pose proof (keys_shape k' Hk') as Sk'.
  destruct k as [|x kr]; [discriminate |].
  destruct k' as [|x' kr']; [discriminate |].
  simpl in Sk, Sk'.
  apply andb_true_iff in Sk as [[_ Skr]%andb_true_iff _].
  apply andb_true_iff in Sk' as [[Sx' _]%andb_true_iff _].
  rewrite append_cons in Hc. simpl in Hc.
  rewrite (contains_not_initial x' kr') in Hc; [|exact Sx' |].
  2:{ rewrite all_app, Skr, andb_true_l.
      eapply all_impl; [|exact Hall]. intros a Ha.
      now rewrite (suffix_char_not_initial a Ha). }
  rewrite orb_false_r in Hc.
  change (String.prefix (String x' kr')
            (String x kr +:+ String "-" (String c b')) = true) in Hc.
  apply prefix_app_inv in Hc as [Hc | (r & E & Hr)]; [exact Hc |].
  destruct (string_dec (String x kr) (String x' kr')) as [<-|Hne];
    [apply prefix_refl |].
  rewrite E in Hk', Hne.
  pose proof (keys_extension_blocked _ _ Hk Hk' (prefix_app _ _) Hne) as B.
  rewrite rest_after_app in B.
  rewrite (extension_blocked_prefix r c b' B Hhead) in Hr. discriminate.
Qed.

(** In a list sorted longest first, the scan stops at [k] when [k] matches
    and every matching element is a prefix of [k]. *)
Lemma find_longest (p : string -> bool) (l : list string) (k : string) :
  by_descending_length l -> In k l -> p k = true ->
  (forall k', In k' l -> p k' = true -> String.prefix k' k = true) ->
  List.find p l = Some k.
Proof.
  unfold by_descending_length.
  induction 1 as [|h t Hs IH Hh]; intros Hin Hk Hpre; [destruct Hin |].
  simpl. destruct (p h) eqn:Eh.
  - destruct Hin as [->|Hin]; [reflexivity |].
    pose proof (Hpre h (or_introl eq_refl) Eh) as P.
    pose proof (prefix_length _ _ P) as L.
    pose proof (proj1 (List.Forall_forall _ _) Hh k Hin) as L'.
    simpl in L'. unfold Str.len in L'.
    f_equal. apply prefix_same_length; [exact P | lia].
  - destruct Hin as [->|Hin]; [congruence |].
    apply IH; auto. intros k' Hk'. apply Hpre. now right.
Qed.

(** C2. Appending a version/date suffix to a canonical pricing-table key
    gives a name that resolves to exactly that key's rate pair. *)
Theorem C2_suffixed_key_resolves (k suffix : string) (rates : F64.t * F64.t) :
  Dict.get PRICING k = Some rates ->
  is_version_date_suffix suffix = true ->
  get_model_pricing (k +:+ suffix) = Ok rates.
Proof.
  intros Hget Hsuf.
  assert (Hk : In k (Dict.keys PRICING)) by (apply get_In_keys; eauto).
  destruct (version_date_suffix_shape _ Hsuf) as (c & b' & Eb & Hhead & Hall).
  assert (Hnorm : _normalize_model_name (k +:+ suffix) = k +:+ suffix).
  { apply normalize_plain. rewrite all_app. apply andb_true_iff. split.
    - pose proof (keys_shape k Hk) as S. destruct k; [discriminate |].
      simpl in S. now apply andb_true_iff in S as [_ S].
    - eapply all_impl; [apply suffix_char_plain | exact Hall]. }
  assert (Hfuzzy : forall k', In k' (Dict.keys PRICING) ->
            fuzzy_match (k +:+ suffix) k' = true -> String.prefix k' k = true).
  { intros k' Hk' F. apply (fuzzy_match_suffixed k k' suffix); auto.
    unfold fuzzy_match in F. apply orb_true_iff in F as [F|F]; [|exact F].
    now apply startswith_contains. }
  unfold get_model_pricing, _resolve_model_key. rewrite Hnorm.
  assert (Hmem : Dict.mem (k +:+ suffix) PRICING = false).
  { destruct (Dict.mem (k +:+ suffix) PRICING) eqn:E; [|reflexivity].
    apply mem_get, get_In_keys in E.
    assert (P : String.prefix (k +:+ suffix) k = true).
    { apply Hfuzzy; [exact E |]. unfold fuzzy_match, Str.startswith.
      now rewrite prefix_refl. }
    apply prefix_length in P. rewrite length_app, Eb in P. simpl in P. lia. }
  rewrite Hmem.
  assert (Halias : List.find (fun a => Str.startswith (k +:+ suffix) (fst a))
                             _ALIASES = None).
  { apply find_alias_none. intros p c' Hp.
    destruct (keys_aliases_apart k p c' Hk Hp) as [A1 A2].
    unfold Str.startswith.
    destruct (String.prefix p (k +:+ suffix)) eqn:E; [|reflexivity].
    apply prefix_app_inv in E as [E | (r & -> & _)]; [congruence |].
    now rewrite prefix_app in A2. }
  rewrite Halias.
  rewrite (find_longest _ _ k).
  - simpl. unfold Dict.item. now rewrite Hget.
  - apply sorted_by_len_desc_sorted.
  - eapply Permutation_in; [symmetry; apply sorted_by_len_desc_perm | exact Hk].
  - unfold fuzzy_match, Str.startswith. now rewrite prefix_app.
  - intros k' Hk'. apply Hfuzzy.
    eapply Permutation_in; [apply sorted_by_len_desc_perm | exact Hk'].
Qed.

Lemma C2_suffixed_key_resolves_witness :
  get_model_pricing ("gpt-4" +:+ "-0125-preview") = Ok (F64.lit_30, F64.lit_60).
Proof.
  apply C2_suffixed_key_resolves; reflexivity.
Defined.

(** ** The cost calculator *)

Lemma nonneg_ltb (a b : Z) : 0 <= a -> 0 <= b -> (a <? 0) || (b <? 0) = false.
Proof.
  intros Ha Hb. apply orb_false_iff. split; apply Z.ltb_ge; assumption.
Qed.

(** C3, as the code has it. For a resolvable model and token counts
    [tokens_in, tokens_out >= 0] that Python can convert to a float, which
    every count of the signed 64-bit range is, the cost is exactly
    [tokens_in / 1_000_000.0 * input_rate + tokens_out / 1_000_000.0 * output_rate]
    in binary64 arithmetic, with the resolver's rates and no rounding step
    of its own; for an unresolvable model and counts [>= 0] the resolver's
    UnsupportedModel comes back unchanged; and
    [cost("gpt-4-0125-preview", 1000, 500) = 0.06]. *)
Theorem C3_cost_formula (name : string) (tokens_in tokens_out : Z) :
  0 <= tokens_in -> 0 <= tokens_out ->
  (forall input_rate output_rate fin fout,
      get_model_pricing name = Ok (input_rate, output_rate) ->
      F64.of_int tokens_in = Ok fin ->
      F64.of_int tokens_out = Ok fout ->
      calculate_cost name tokens_in tokens_out =
      Ok (F64.add (F64.mul (F64.div fin F64.lit_1000000) input_rate)
                  (F64.mul (F64.div fout F64.lit_1000000) output_rate))) /\
  (tokens_in <= int64_max -> tokens_out <= int64_max ->
   forall input_rate output_rate,
     get_model_pricing name = Ok (input_rate, output_rate) ->
     exists fin fout,
       F64.of_int tokens_in = Ok fin /\ F64.of_int tokens_out = Ok fout /\
       calculate_cost name tokens_in tokens_out =
       Ok (F64.add (F64.mul (F64.div fin F64.lit_1000000) input_rate)
                   (F64.mul (F64.div fout F64.lit_1000000) output_rate))) /\
  (forall e, get_model_pricing name = Raise e ->
             calculate_cost name tokens_in tokens_out = Raise e) /\
  (_resolve_model_key name = Raise (UnsupportedModel name) ->
   calculate_cost name tokens_in tokens_out = Raise (UnsupportedModel name)) /\
  calculate_cost "gpt-4-0125-preview" 1000 500 = Ok F64.lit_0_06.
Proof.
  intros Hin Hout. unfold calculate_cost.
  rewrite (nonneg_ltb _ _ Hin Hout). split; [|split; [|split; [|split]]].
  - intros ri ro fin fout Hp Hfi Hfo. rewrite Hp. simpl.
    rewrite Hfi. simpl. rewrite Hfo. reflexivity.
  - intros Bi Bo ri ro Hp.
    destruct (of_int_int64 tokens_in (conj Hin Bi)) as [fin Hfi].
    destruct (of_int_int64 tokens_out (conj Hout Bo)) as [fout Hfo].
    exists fin, fout. split; [exact Hfi |]. split; [exact Hfo |].
    rewrite Hp. simpl. rewrite Hfi. simpl. rewrite Hfo. reflexivity.
  - intros e He. now rewrite He.
  - intros He. unfold get_model_pricing. now rewrite He.
  - vm_compute. reflexivity.
Qed.

Lemma C3_cost_formula_witness :
  calculate_cost "gpt-4o-mini" 250 125 =
  Ok (F64.add (F64.mul (F64.div (S754_finite false 8796093022208000 (-45))
                                F64.lit_1000000) F64.lit_0_15)
              (F64.mul (F64.div (S754_finite false 8796093022208000 (-46))
                                F64.lit_1000000) F64.lit_0_6)).
Proof.
  apply (C3_cost_formula "gpt-4o-mini" 250 125); [lia | lia | | |];
    vm_compute; reflexivity.
Defined.

(** C3 as stated fails: [2 ^ 1024 >= 0] is a token count and "gpt-4" is
    resolvable, yet [calculate_cost] returns no cost; the conversion of the
    count to a float raises OverflowError. *)
Lemma C3_counterexample :
  0 <= 2 ^ 1024 /\
  get_model_pricing "gpt-4" = Ok (F64.lit_30, F64.lit_60) /\
  calculate_cost "gpt-4" (2 ^ 1024) 0 =
  Raise (OverflowError "int too large to convert to float").
Proof.
  split; [lia |]. split; vm_compute; reflexivity.
Qed.

Lemma invalid_not_unsupported (e : exn) (name : string) :
  InvalidTokenCount e -> e <> UnsupportedModel name.
Proof.
  unfold InvalidTokenCount, UnsupportedModel.
  intros [H | [H | H]]; subst e; discriminate.
Qed.

(** C4. A negative [tokens_in], [tokens_out] or [latency_ms] makes the
    manual-entry append fail with InvalidTokenCount and leaves the files and
    the tracker's globals as they were: nothing is persisted, no storage is
    created. A negative token count makes the cost computation fail with
    InvalidTokenCount. Both fail whatever the model is, an unsupported one
    included, so the error is never UnsupportedModel. *)
Theorem C4_negative_counts_rejected
  (user feat name : string) (tokens_in tokens_out latency : Z)
  (meta : option (Dict.t string)) (org : option string) (now : datetime)
  (w : World) :
  tokens_in < 0 \/ tokens_out < 0 \/ latency < 0 ->
  (exists e,
      track_manual user feat name tokens_in tokens_out latency meta org now w
      = (Raise e, w) /\
      InvalidTokenCount e /\ e <> UnsupportedModel name) /\
  (tokens_in < 0 \/ tokens_out < 0 ->
   exists e,
     calculate_cost name tokens_in tokens_out = Raise e /\
     InvalidTokenCount e /\ e <> UnsupportedModel name).
Proof.
  intros H. split.
  - unfold track_manual.
    destruct ((tokens_in <? 0) || (tokens_out <? 0)) eqn:E.
    + eexists. split; [reflexivity |].
      split; [|apply invalid_not_unsupported]; unfold InvalidTokenCount; auto.
    + apply orb_false_iff in E as [E1%Z.ltb_ge E2%Z.ltb_ge].
      assert (L : (latency <? 0) = true) by (apply Z.ltb_lt; lia).
      rewrite L. eexists. split; [reflexivity |].
      split; [|apply invalid_not_unsupported]; unfold InvalidTokenCount; auto.
  - intros H'. unfold calculate_cost.
    assert (E : (tokens_in <? 0) || (tokens_out <? 0) = true).
    { apply orb_true_iff. destruct H'; [left | right]; now apply Z.ltb_lt. }
    rewrite E. eexists. split; [reflexivity |].
    split; [|apply invalid_not_unsupported]; unfold InvalidTokenCount; auto.
Qed.

Lemma C4_negative_counts_rejected_witness :
  (exists e,
      track_manual "alice" "chat" "not-a-real-model" (-1) 10 0 None None
                   {| year := 2024; month := 1; day := 5; hour := 7;
                      minute := 0; second := 9; microsecond := 0 |}
                   empty_world
      = (Raise e, empty_world) /\
      InvalidTokenCount e /\ e <> UnsupportedModel "not-a-real-model") /\
  (-1 < 0 \/ 10 < 0 ->
   exists e,
     calculate_cost "not-a-real-model" (-1) 10 = Raise e /\
     InvalidTokenCount e /\ e <> UnsupportedModel "not-a-real-model").
Proof.
  apply C4_negative_counts_rejected. left. lia.
Defined.

(** ** The storage engine: schema *)

Lemma ready_indexes (t : Table) (idx : gset string) :
  ready {| cost_logs := Some t; indexes := idx |} = true <->
  "idx_cost_logs_user_id" ∈ idx /\ "idx_cost_logs_feature" ∈ idx /\
  "idx_cost_logs_timestamp" ∈ idx /\ "idx_cost_logs_org_id" ∈ idx.
Proof.
  unfold ready. simpl. rewrite !andb_true_iff, !bool_decide_eq_true.
  tauto.
Qed.

Lemma init_db_eq (db : Database) :
  _init_db db =
  (Ok tt,
   {| cost_logs := Some (default {| rows := []; seq := 0 |} (cost_logs db));
      indexes := {[ "idx_cost_logs_org_id" ]} ∪
                 ({[ "idx_cost_logs_timestamp" ]} ∪
                  ({[ "idx_cost_logs_feature" ]} ∪
                   ({[ "idx_cost_logs_user_id" ]} ∪ indexes db))) |}).
Proof.
  destruct db as [[t|] idx]; reflexivity.
Qed.

(** C8. Schema creation is idempotent: it always succeeds and leaves the
    store ready; run again it changes nothing; a table that already exists
    keeps its rows and their data; and on a store that is already ready it
    has no effect at all. *)
Theorem C8_schema_init_idempotent (db : Database) :
  let db1 := snd (_init_db db) in
  fst (_init_db db) = Ok tt /\
  ready db1 = true /\
  _init_db db1 = (Ok tt, db1) /\
  (forall t, cost_logs db = Some t ->
             cost_logs db1 = Some t /\ persisted db1 = rows t) /\
  (ready db = true -> _init_db db = (Ok tt, db)).
Proof.
  intros db1. unfold db1. rewrite !init_db_eq. simpl.
  split; [reflexivity |]. split; [|split; [|split]].
  - apply ready_indexes. set_solver.
  - f_equal. f_equal. set_solver.
  - intros t Ht. rewrite Ht. unfold persisted. simpl. auto.
  - destruct db as [[t|] idx]; [|discriminate]. intros H.
    apply ready_indexes in H. simpl. f_equal. f_equal. set_solver.
Qed.

(** ** The storage engine: persisted rows are never touched *)

Lemma with_table_state {A : Type} (k : Table -> result A) (db : Database) :
  snd (with_table k db) = db.
Proof. unfold with_table. now destruct (cost_logs db). Qed.

Lemma log_persisted (c : CostLog) (db : Database) :
  (exists r, fst (log c db) = Ok tt /\
             persisted (snd (log c db)) = (persisted db ++ [r])%list /\
             indexes (snd (log c db)) = indexes db) \/
  (exists e, log c db = (Raise e, db)).
Proof.
  unfold log, insert_cost_log, persisted.
  destruct (cost_logs db) as [t|] eqn:Ht; [|right; eauto].
  destruct (bind_int (tokens_in c)); [|right; eauto].
  destruct (bind_int (tokens_out c)); [|right; eauto].
  destruct (bind_int (latency_ms c)); [|right; eauto].
  destruct (bind_float (cost_usd c)); [|right; eauto].
  left. simpl. eauto.
Qed.

Lemma perform_persisted (db : Database) (c : call) :
  exists new, persisted (perform db c) = (persisted db ++ new)%list.
Proof.
  destruct c as [|cl|f|l f|l f]; simpl.
  - rewrite init_db_eq. unfold persisted. simpl.
    destruct (cost_logs db); exists []; now rewrite ?app_nil_r.
  - destruct (log_persisted cl db) as [(r & _ & H & _) | (e & H)].
    + eauto.
    + rewrite H. exists []. now rewrite app_nil_r.
  - unfold get_total_cost. rewrite with_table_state.
    exists []. now rewrite app_nil_r.
  - unfold get_top_users. rewrite with_table_state.
    exists []. now rewrite app_nil_r.
  - unfold get_top_features. rewrite with_table_state.
    exists []. now rewrite app_nil_r.
Qed.

(** C9. Whatever operations run, in whatever order, the rows a store held
    before are still there afterwards, unchanged and in place: the store's
    rows afterwards are the old rows followed by the newly appended ones.
    An append adds one row at the end or fails without effect, the three
    aggregate reads leave the whole database as it was, and the engine has
    no other operation on rows. *)
Theorem C9_persisted_rows_immutable (calls : list call) (db : Database) :
  (exists new,
      persisted (fold_left perform calls db) = (persisted db ++ new)%list) /\
  (forall i r, nth_error (persisted db) i = Some r ->
               nth_error (persisted (fold_left perform calls db)) i = Some r) /\
  (forall c,
      (exists r, persisted (perform db (CallLog c)) = (persisted db ++ [r])%list)
      \/ perform db (CallLog c) = db) /\
  (forall f, perform db (CallTotalCost f) = db) /\
  (forall l f, perform db (CallTopUsers l f) = db) /\
  (forall l f, perform db (CallTopFeatures l f) = db).
Proof.
  assert (P : exists new,
             persisted (fold_left perform calls db) = (persisted db ++ new)%list).
  { revert db. induction calls as [|c calls IH]; intros db; simpl.
    - exists []. now rewrite app_nil_r.
    - destruct (IH (perform db c)) as [new1 H1].
      destruct (perform_persisted db c) as [new0 H0].
      exists (new0 ++ new1)%list. now rewrite H1, H0, <- app_assoc. }
  split; [exact P |]. split; [|split; [|split; [|split]]].
  - destruct P as [new ->]. intros i r H.
    rewrite nth_error_app1; [exact H |].
    apply nth_error_Some. congruence.
  - intros c. simpl.
    destruct (log_persisted c db) as [(r & _ & H & _) | (e & H)]; [eauto |].
    right. now rewrite H.
  - intros f. apply with_table_state.
  - intros l f. apply with_table_state.
  - intros l f. apply with_table_state.
Qed.

(** ** The storage engine: filters *)

Lemma supplied_get (f : gmap string pyval) (key : string) :
  supplied (Some f) key =
  match filters_get f key with PyStr v => Some v | PyNone => None end.
Proof.
  unfold supplied, filters_get. now destruct (f !! key) as [[|v]|].
Qed.

Lemma matches_conditions (filters : option (gmap string pyval)) (r : Row) :
  matches filters r = forallb (holds r) (conditions filters).
Proof.
  unfold matches, conditions. destruct filters as [f|]; [|reflexivity].
  unfold _build_where_clause. case_bool_decide as E.
  - subst f. reflexivity.
  - rewrite !supplied_get. simpl.
    destruct (filters_get f "user_id"), (filters_get f "feature"),
      (filters_get f "org_id"), (filters_get f "model"),
      (filters_get f "start_time"), (filters_get f "end_time"); reflexivity.
Qed.

Lemma select_where_filter (filters : option (gmap string pyval)) (t : Table) :
  select_where filters t = List.filter (matches filters) (rows t).
Proof.
  unfold select_where, matches.
  now destruct (_build_where_clause filters).
Qed.

Lemma filter_all {A : Type} (p : A -> bool) (l : list A) :
  (forall x, In x l -> p x = true) -> List.filter p l = l.
Proof.
  induction l as [|x l IH]; simpl; intros H; [reflexivity |].
  rewrite (H x (or_introl eq_refl)). f_equal. apply IH. auto.
Qed.

(** C7. In every aggregate query the filters are a pure conjunction. A row
    is among the rows a query ranges over exactly when it is in the table
    and passes every predicate that is supplied: equality on [user_id],
    [feature], [org_id] and [model], [timestamp >= start_time] and
    [timestamp <= end_time], both bounds inclusive, in the order SQLite
    compares the stored timestamp text. With nothing supplied every row
    matches; a row whose [org_id] differs from the supplied one never
    matches. The three queries see the table only through these rows. *)
Theorem C7_filters_are_conjunction
  (filters : option (gmap string pyval)) (t : Table) (r : Row) :
  (In r (select_where filters t) <->
   In r (rows t) /\
   (forall v, supplied filters "user_id" = Some v -> row_user_id r = v) /\
   (forall v, supplied filters "feature" = Some v -> row_feature r = v) /\
   (forall v, supplied filters "org_id" = Some v -> row_org_id r = v) /\
   (forall v, supplied filters "model" = Some v -> row_model r = v) /\
   (forall v, supplied filters "start_time" = Some v ->
              String.leb v (row_timestamp r) = true) /\
   (forall v, supplied filters "end_time" = Some v ->
              String.leb (row_timestamp r) v = true)) /\
  ((forall key, supplied filters key = None) ->
   select_where filters t = rows t) /\
  (forall o, supplied filters "org_id" = Some o -> row_org_id r <> o ->
             ~ In r (select_where filters t)) /\
  (forall (t' : Table) (idx idx' : gset string) (limit : Z),
      select_where filters t' = select_where filters t ->
      let db := {| cost_logs := Some t; indexes := idx |} in
      let db' := {| cost_logs := Some t'; indexes := idx' |} in
      fst (get_total_cost filters db') = fst (get_total_cost filters db) /\
      fst (get_top_users limit filters db')
      = fst (get_top_users limit filters db) /\
      fst (get_top_features limit filters db')
      = fst (get_top_features limit filters db)).
Proof.
  assert (Hin : In r (select_where filters t) <->
                In r (rows t) /\ forallb (holds r) (conditions filters) = true).
  { rewrite select_where_filter, filter_In. now rewrite matches_conditions. }
  split; [|split; [|split]].
  - rewrite Hin. unfold conditions. simpl.
    rewrite !andb_true_iff.
    destruct (supplied filters "user_id"), (supplied filters "feature"),
      (supplied filters "org_id"), (supplied filters "model"),
      (supplied filters "start_time"), (supplied filters "end_time");
      simpl; rewrite ?String.eqb_eq;
      (split;
       [ intros (? & ? & ? & ? & ? & ? & ? & _);
         repeat split; try assumption; intros ? [= <-]; assumption
       | intros (? & H1 & H2 & H3 & H4 & H5 & H6);
         repeat split; try assumption;
         first [ apply H1 | apply H2 | apply H3 | apply H4 | apply H5
               | apply H6 ]; reflexivity ]).
  - intros Hnone. rewrite select_where_filter. apply filter_all.
    intros x _. rewrite matches_conditions. unfold conditions.
    now rewrite !Hnone.
  - intros o Ho Hne [_ H]%Hin. unfold conditions in H. simpl in H.
    rewrite Ho in H. simpl in H.
    apply andb_true_iff in H as [_ [_ [H _]%andb_true_iff]%andb_true_iff].
    apply String.eqb_eq in H. contradiction.
  - intros t' idx idx' limit E. simpl.
    unfold get_total_cost, get_top_users, get_top_features, with_table,
      select_top. simpl. now rewrite E.
Qed.

(** ** The storage engine: total cost *)

Lemma bind_int_spec (z : Z) :
  bind_int z = if in_int64 z then Ok z
               else Raise (OverflowError
                             "Python int too large to convert to SQLite INTEGER").
Proof. reflexivity. Qed.

Lemma log_spec (c : CostLog) (db : Database) (t : Table) :
  cost_logs db = Some t ->
  if storable c
  then exists r,
      log c db = (Ok tt, {| cost_logs := Some {| rows := (rows t ++ [r])%list;
                                                 seq := row_id r |};
                            indexes := indexes db |}) /\
      row_user_id r = user_id c /\ row_feature r = feature c /\
      row_model r = model c /\ row_tokens_in r = tokens_in c /\
      row_tokens_out r = tokens_out c /\ row_cost_usd r = cost_usd c /\
      row_latency_ms r = latency_ms c /\
      row_timestamp r = isoformat (timestamp c) /\
      row_org_id r = org_id c /\ row_metadata r = Json.dumps (metadata c)
  else exists e, log c db = (Raise e, db).
Proof.
  intros Ht. unfold storable, log, insert_cost_log. rewrite Ht.
  rewrite !bind_int_spec. unfold bind_float.
  destruct (in_int64 (tokens_in c)); simpl; [|eauto].
  destruct (in_int64 (tokens_out c)); simpl; [|eauto].
  destruct (in_int64 (latency_ms c)); simpl; [|eauto].
  destruct (F64.is_nan (cost_usd c)); simpl; [eauto |].
  eexists (Build_Row _ _ _ _ _ _ _ _ _ _ _).
  split; [reflexivity |]. simpl. repeat split.
Qed.

Lemma append_all_spec (cs : list CostLog) (db : Database) (t : Table) :
  cost_logs db = Some t ->
  fst (append_all cs db) = List.filter storable cs /\
  costs (snd (append_all cs db))
  = (costs db ++ List.map cost_usd (fst (append_all cs db)))%list /\
  ready (snd (append_all cs db)) = ready db.
Proof.
  revert db t. induction cs as [|c cs IH]; intros db t Ht; simpl.
  - now rewrite app_nil_r.
  - pose proof (log_spec c db t Ht) as L.
    destruct (storable c).
    + destruct L as (r & -> & _ & _ & _ & _ & _ & Hc & _).
      match goal with |- context [append_all cs ?d] =>
        destruct (IH d _ eq_refl) as (I1 & I2 & I3);
        destruct (append_all cs d) as [appended db''] end.
      simpl in *. split; [now f_equal |]. split.
      * rewrite I2. unfold costs, persisted. simpl. rewrite Ht.
        rewrite map_app. simpl. rewrite Hc. now rewrite <- app_assoc.
      * rewrite I3. unfold ready. simpl. now rewrite Ht.
    + destruct L as (e & ->). now apply (IH db t).
Qed.

Lemma sql_sum_nonneg (l : list F64.t) :
  Forall (fun x => F64.nonneg x = true) l ->
  coalesce (sql_sum l) F64.zero = F64.sum l /\
  (l <> [] -> sql_sum l = Some (F64.sum l)).
Proof.
  intros H. destruct l as [|x l]; [split; [reflexivity | congruence] |].
  unfold sql_sum, bind_float.
  rewrite (nonneg_not_nan _ (sum_nonneg _ H)). auto.
Qed.

Lemma select_where_none (t : Table) : select_where None t = rows t.
Proof.
  rewrite select_where_filter. apply filter_all. reflexivity.
Qed.

Lemma filter_none {A : Type} (p : A -> bool) (l : list A) :
  (forall x, In x l -> p x = false) -> List.filter p l = [].
Proof.
  induction l as [|x l IH]; simpl; intros H; [reflexivity |].
  rewrite (H x (or_introl eq_refl)). apply IH. auto.
Qed.

Lemma ready_table (db : Database) :
  ready db = true -> exists t, cost_logs db = Some t.
Proof. unfold ready. destruct (cost_logs db); [eauto | discriminate]. Qed.

(** C5. Start from an empty store and make any finite sequence of append
    calls with records whose [cost_usd] is non-negative, as the data model
    has it. The appends that return are those of the records SQLite can
    store, and the total cost without filters is then the sum of the
    [cost_usd] of the appended records, added up in binary64 in the order
    of the appends. On any ready store, a query whose filters no row
    matches returns 0.0 and does not fail. *)
Theorem C5_total_cost_is_sum (cs : list CostLog) :
  Forall (fun c => F64.nonneg (cost_usd c) = true) cs ->
  let appended := fst (append_all cs fresh_store) in
  let db := snd (append_all cs fresh_store) in
  appended = List.filter storable cs /\
  get_total_cost None db = (Ok (F64.sum (List.map cost_usd appended)), db) /\
  (forall (filters : option (gmap string pyval)) (db0 : Database),
      ready db0 = true ->
      (forall r, In r (persisted db0) -> matches filters r = false) ->
      get_total_cost filters db0 = (Ok F64.zero, db0)).
Proof.
  intros Hcs appended db.
  destruct (append_all_spec cs fresh_store {| rows := []; seq := 0 |} eq_refl)
    as (A1 & A2 & A3).
  fold appended in A1, A2. fold db in A2, A3.
  split; [exact A1 |]. split.
  - assert (R : ready db = true) by (rewrite A3; reflexivity).
    destruct (ready_table db R) as [t Ht].
    unfold get_total_cost, with_table. rewrite Ht.
    rewrite select_where_none.
    change (List.map row_cost_usd (rows t)) with
      (List.map row_cost_usd (match Some t with Some t => rows t | None => [] end)).
    rewrite <- Ht. fold (persisted db). fold (costs db). rewrite A2. simpl.
    f_equal. f_equal. apply sql_sum_nonneg.
    rewrite A1. apply List.Forall_forall. intros x Hx.
    apply in_map_iff in Hx as (c & <- & Hc). apply filter_In in Hc as [Hc _].
    exact (proj1 (List.Forall_forall _ _) Hcs c Hc).
  - intros filters db0 R Hnone. destruct (ready_table db0 R) as [t Ht].
    unfold get_total_cost, with_table. rewrite Ht.
    rewrite select_where_filter, filter_none; [reflexivity |].
    intros r Hr. apply Hnone. unfold persisted. now rewrite Ht.
Qed.

Lemma C5_total_cost_is_sum_witness :
  let appended := fst (append_all example_records fresh_store) in
  let db := snd (append_all example_records fresh_store) in
  appended = List.filter storable example_records /\
  get_total_cost None db = (Ok (F64.sum (List.map cost_usd appended)), db) /\
  (forall (filters : option (gmap string pyval)) (db0 : Database),
      ready db0 = true ->
      (forall r, In r (persisted db0) -> matches filters r = false) ->
      get_total_cost filters db0 = (Ok F64.zero, db0)).
Proof.
  apply C5_total_cost_is_sum. repeat constructor.
Defined.

(** ** The storage engine: top users and top features *)

Lemma sql_sum_real (l : list F64.t) : sql_real (sql_sum l).
Proof.
  unfold sql_sum, bind_float. destruct l; [exact I |].
  destruct (F64.is_nan _) eqn:E; [exact I | exact E].
Qed.

Lemma sql_ge_total (x y : option F64.t) :
  sql_real x -> sql_real y -> sql_ge x y = true \/ sql_ge y x = true.
Proof.
  destruct x as [a|], y as [b|]; simpl; auto.
  intros Ha Hb. destruct (F64_leb_total a b Ha Hb); auto.
Qed.

Lemma sql_ge_trans (x y z : option F64.t) :
  sql_ge x y = true -> sql_ge y z = true -> sql_ge x z = true.
Proof.
  destruct x as [a|], y as [b|], z as [c|]; simpl; try congruence.
  intros H1 H2. exact (F64_leb_trans c b a H2 H1).
Qed.

Lemma insert_desc_perm (g : string * option F64.t * Z)
  (l : list (string * option F64.t * Z)) :
  Permutation (insert_desc g l) (g :: l).
Proof.
  induction l as [|h l IH]; simpl; [reflexivity |].
  destruct (sql_ge (total_of g) (total_of h)); [reflexivity |].
  rewrite IH. apply perm_swap.
Qed.

Lemma order_by_total_desc_perm (l : list (string * option F64.t * Z)) :
  Permutation (order_by_total_desc l) l.
Proof.
  induction l as [|g l IH]; simpl; [reflexivity |].
  rewrite insert_desc_perm. now constructor.
Qed.

Lemma insert_desc_sorted (g : string * option F64.t * Z)
  (l : list (string * option F64.t * Z)) :
  sql_real (total_of g) -> Forall (fun h => sql_real (total_of h)) l ->
  StronglySorted (fun a b => sql_ge (total_of a) (total_of b) = true) l ->
  StronglySorted (fun a b => sql_ge (total_of a) (total_of b) = true)
                 (insert_desc g l).
Proof.
  intros Hg Hl Hs. induction Hs as [|h l Hs IH Hh]; simpl.
  - repeat constructor.
  - inversion Hl as [|? ? Hrh Hrl]; subst.
    destruct (sql_ge (total_of g) (total_of h)) eqn:E.
    + constructor; [now constructor |]. constructor; [exact E |].
      eapply List.Forall_impl; [|exact Hh]. simpl. intros a Ha.
      eapply sql_ge_trans; eauto.
    + constructor; [now apply IH |].
      eapply Permutation_Forall; [symmetry; apply insert_desc_perm |].
      constructor; [|exact Hh].
      destruct (sql_ge_total _ _ Hg Hrh); congruence.
Qed.

Lemma order_by_total_desc_sorted (l : list (string * option F64.t * Z)) :
  Forall (fun h => sql_real (total_of h)) l ->
  StronglySorted (fun a b => sql_ge (total_of a) (total_of b) = true)
                 (order_by_total_desc l).
Proof.
  induction 1 as [|g l Hg Hl IH]; simpl; [constructor |].
  apply insert_desc_sorted; [exact Hg | | exact IH].
  eapply Permutation_Forall; [symmetry; apply order_by_total_desc_perm | exact Hl].
Qed.

Lemma distinct_In (l : list string) (x : string) : In x (distinct l) <-> In x l.
Proof.
  induction l as [|y l IH]; cbn [distinct In]; [tauto |].
  rewrite filter_In, IH. destruct (String.eqb_spec y x) as [->|Hne]; simpl.
  - tauto.
  - split; [tauto |]. intros [H|H]; auto.
Qed.

Lemma distinct_NoDup (l : list string) : List.NoDup (distinct l).
Proof.
  induction l as [|y l IH]; cbn [distinct]; constructor.
  - rewrite filter_In. intros [_ H]. now rewrite String.eqb_refl in H.
  - now apply List.NoDup_filter.
Qed.

Lemma sql_limit_split {A : Type} (n : Z) (l : list A) :
  exists rest, l = (sql_limit n l ++ rest)%list /\
               (n < 0 -> rest = []) /\
               (0 <= n -> Z.of_nat (List.length (sql_limit n l)) <= n) /\
               (rest <> [] -> Z.of_nat (List.length (sql_limit n l)) = n).
Proof.
  unfold sql_limit. destruct (Z.ltb_spec n 0) as [Hn|Hn].
  - exists []. rewrite app_nil_r. repeat split; try lia; congruence.
  - exists (skipn (Z.to_nat n) l). rewrite firstn_skipn.
    split; [reflexivity |]. split; [lia |]. split.
    + intros _. rewrite List.length_firstn. lia.
    + intros Hrest. rewrite List.length_firstn.
      destruct (Nat.le_gt_cases (List.length l) (Z.to_nat n)) as [L|L].
      * rewrite skipn_all2 in Hrest; [congruence | exact L].
      * lia.
Qed.

Lemma StronglySorted_app_l {A : Type} (R : A -> A -> Prop) (l1 l2 : list A) :
  StronglySorted R (l1 ++ l2) -> StronglySorted R l1.
Proof.
  induction l1 as [|a l1 IH]; simpl; [constructor |].
  intros H. inversion H as [|? ? Hs Hf]; subst.
  constructor; [now apply IH |].
  apply List.Forall_app in Hf. tauto.
Qed.

Lemma StronglySorted_app_cross {A : Type} (R : A -> A -> Prop)
  (l1 l2 : list A) (a b : A) :
  StronglySorted R (l1 ++ l2) -> In a l1 -> In b l2 -> R a b.
Proof.
  induction l1 as [|h l1 IH]; simpl; [tauto |].
  intros H [->|Ha] Hb; inversion H as [|? ? Hs Hf]; subst.
  - apply (proj1 (List.Forall_forall _ _) Hf). apply in_or_app. now right.
  - now apply IH.
Qed.

Lemma fetch_rows_wrap (l : list (string * option F64.t * Z)) :
  Forall (fun g => total_of g <> None) l ->
  exists res, fetch_rows l = Ok res /\ l = List.map wrap res.
Proof.
  induction 1 as [|[[k [x|]] n] l Hg Hl (res & E & ->)]; simpl.
  - exists []. auto.
  - rewrite E. simpl. exists ((k, x, n) :: res). auto.
  - now contradiction Hg.
Qed.

Lemma StronglySorted_map {A B : Type} (R : B -> B -> Prop) (f : A -> B)
  (l : list A) :
  StronglySorted R (List.map f l) ->
  StronglySorted (fun a b => R (f a) (f b)) l.
Proof.
  induction l as [|a l IH]; simpl; intros H; [constructor |].
  inversion H as [|? ? Hs Hf]; subst. constructor; [now apply IH |].
  apply List.Forall_forall. intros b Hb.
  apply (proj1 (List.Forall_forall _ _) Hf). now apply in_map.
Qed.

Lemma group_by_keys (col : column) (matching : list Row) :
  List.map (fun g => fst (fst g)) (group_by col matching)
  = distinct (List.map (fun r => column_text r col) matching).
Proof.
  unfold group_by. rewrite List.map_map. simpl. apply List.map_id.
Qed.

Lemma group_by_In (col : column) (matching : list Row)
  (g : string * option F64.t * Z) :
  In g (group_by col matching) <->
  exists r, In r matching /\ g = group_row col matching (column_text r col).
Proof.
  unfold group_by. rewrite in_map_iff. split.
  - intros (k & <- & Hk). apply distinct_In, in_map_iff in Hk as (r & <- & Hr).
    eauto.
  - intros (r & Hr & ->). exists (column_text r col). split; [reflexivity |].
    apply distinct_In, in_map_iff. eauto.
Qed.

Lemma members_In (col : column) (matching : list Row) (r : Row) :
  In r matching -> In r (members col matching (column_text r col)).
Proof.
  intros H. unfold members. apply filter_In. split; [exact H |].
  apply String.eqb_refl.
Qed.

Lemma members_sum (col : column) (matching : list Row) (k : string) :
  Forall (fun r => F64.nonneg (row_cost_usd r) = true) matching ->
  members col matching k <> [] ->
  sql_sum (List.map row_cost_usd (members col matching k))
  = Some (F64.sum (List.map row_cost_usd (members col matching k))).
Proof.
  intros Hn Hne. apply sql_sum_nonneg.
  - apply List.Forall_forall. intros x (r & <- & Hr)%in_map_iff.
    apply filter_In in Hr as [Hr _].
    exact (proj1 (List.Forall_forall _ _) Hn r Hr).
  - destruct (members col matching k); [congruence | discriminate].
Qed.

(** The SELECT behind [get_top_users] and [get_top_features], fetched. *)
Lemma select_top_is_top (col : column) (limit : Z) (matching : list Row) :
  Forall (fun r => F64.nonneg (row_cost_usd r) = true) matching ->
  exists res,
    fetch_rows (sql_limit limit (order_by_total_desc (group_by col matching)))
    = Ok res /\
    is_top col limit matching res.
Proof.
  intros Hn.
  set (groups := group_by col matching).
  set (ordered := order_by_total_desc groups).
  assert (Hperm : Permutation ordered groups)
    by apply order_by_total_desc_perm.
  assert (Hgroup : forall g, In g ordered ->
            exists r, In r matching /\
                      g = (column_text r col,
                           Some (F64.sum (List.map row_cost_usd
                                   (members col matching (column_text r col)))),
                           Z.of_nat (List.length
                                   (members col matching (column_text r col))))).
  { intros g Hg. apply (Permutation_in _ Hperm), group_by_In in Hg
      as (r & Hr & ->).
    exists r. split; [exact Hr |]. unfold group_row.
    rewrite members_sum; [reflexivity | exact Hn |].
    intros E. pose proof (members_In col matching r Hr) as M.
    rewrite E in M. destruct M. }
  assert (Hsorted : StronglySorted
            (fun a b => sql_ge (total_of a) (total_of b) = true) ordered).
  { apply order_by_total_desc_sorted. apply List.Forall_forall.
    intros g (r & _ & ->)%group_by_In. apply sql_sum_real. }
  assert (Hnodup : List.NoDup (List.map (fun g => fst (fst g)) ordered)).
  { eapply Permutation_NoDup;
      [symmetry; apply Permutation_map; exact Hperm |].
    unfold groups. rewrite group_by_keys. apply distinct_NoDup. }
  destruct (sql_limit_split limit ordered) as (rest & E & Hneg & Hlen & Hfull).
  set (limited := sql_limit limit ordered) in *.
  assert (Hsub : forall g, In g limited -> In g ordered).
  { intros g Hg. rewrite E. apply in_or_app. now left. }
  destruct (fetch_rows_wrap limited) as (res & Hfetch & Hwrap).
  { apply List.Forall_forall. intros g Hg.
    destruct (Hgroup g (Hsub g Hg)) as (r & _ & ->). discriminate. }
  exists res. split; [exact Hfetch |].
  assert (Hkeys : List.map (fun g => fst (fst g)) res
                  = List.map (fun g => fst (fst g)) limited).
  { rewrite Hwrap, List.map_map. reflexivity. }
  assert (Hlength : List.length res = List.length limited)
    by (rewrite Hwrap; now rewrite List.length_map).
  unfold is_top. split; [|split; [|split; [|split]]].
  - rewrite Hkeys. rewrite E, map_app in Hnodup.
    now apply NoDup_app_remove_r in Hnodup.
  - intros k x n Hin.
    assert (Hw : In (wrap (k, x, n)) limited)
      by (rewrite Hwrap; now apply in_map).
    destruct (Hgroup _ (Hsub _ Hw)) as (r & Hr & Eg).
    unfold wrap in Eg. simpl in Eg. injection Eg as -> -> ->.
    split; [|split; reflexivity].
    intros Em. pose proof (members_In col matching r Hr) as M.
    rewrite Em in M. destruct M.
  - rewrite E in Hsorted. apply StronglySorted_app_l in Hsorted.
    rewrite Hwrap in Hsorted. apply StronglySorted_map in Hsorted.
    exact Hsorted.
  - rewrite Hlength. exact Hlen.
  - intros r Hr.
    assert (Hg : In (group_row col matching (column_text r col)) ordered).
    { apply (Permutation_in _ (Permutation_sym Hperm)), group_by_In. eauto. }
    rewrite E in Hg. apply in_app_or in Hg as [Hg|Hg].
    + left. rewrite Hkeys.
      apply (in_map (fun g => fst (fst g))) in Hg. exact Hg.
    + right. assert (Hrest : rest <> []) by (intros ->; destruct Hg).
      split; [|split].
      * destruct (Z.lt_ge_cases limit 0) as [L|L]; [|exact L].
        now specialize (Hneg L).
      * rewrite Hlength. now apply Hfull.
      * intros g Hin.
        assert (Hw : In (wrap g) limited)
          by (rewrite Hwrap; now apply in_map).
        rewrite E in Hsorted.
        pose proof (StronglySorted_app_cross _ _ _ _ _ Hsorted Hw Hg) as C.
        unfold group_row, total_of in C. simpl in C.
        rewrite members_sum in C; [exact C | exact Hn |].
        intros Em. pose proof (members_In col matching r Hr) as M.
        rewrite Em in M. destruct M.
Qed.

Lemma top_query_is_top (col : column) (limit : Z)
  (filters : option (gmap string pyval)) (db : Database) (t : Table) :
  cost_logs db = Some t ->
  Forall (fun x => F64.nonneg x = true) (costs db) ->
  in_int64 limit = true ->
  exists res,
    with_table (fun t => fetched <- select_top col limit filters t ;;
                         fetch_rows fetched) db = (Ok res, db) /\
    is_top col limit (select_where filters t) res.
Proof.
  intros Ht Hn Hl. unfold with_table, select_top. rewrite Ht.
  rewrite bind_int_spec, Hl. simpl.
  destruct (select_top_is_top col limit (select_where filters t))
    as (res & E & Htop).
  - apply List.Forall_forall. intros r Hr.
    rewrite select_where_filter in Hr. apply filter_In in Hr as [Hr _].
    apply (proj1 (List.Forall_forall _ _) Hn). unfold costs, persisted.
    rewrite Ht. now apply in_map.
  - exists res. rewrite E. auto.
Qed.

(** *** The queries on an access path *)

Lemma select_where_on_filter (scan : list Row -> list Row)
  (filters : option (gmap string pyval)) (t : Table) :
  select_where_on scan filters t
  = List.filter (matches filters) (scan (rows t)).
Proof.
  unfold select_where_on, matches.
  now destruct (_build_where_clause filters).
Qed.

Lemma filter_Permutation {A : Type} (p : A -> bool) (l l' : list A) :
  Permutation l l' -> Permutation (List.filter p l) (List.filter p l').
Proof.
  induction 1 as [|x l l' _ IH|x y l|l l' l'' _ IH1 _ IH2]; simpl.
  - constructor.
  - destruct (p x); [now constructor | exact IH].
  - destruct (p x), (p y); try reflexivity. apply perm_swap.
  - now transitivity (List.filter p l').
Qed.

Lemma select_where_on_perm (scan : list Row -> list Row)
  (filters : option (gmap string pyval)) (t : Table) :
  Permutation (scan (rows t)) (rows t) ->
  Permutation (select_where_on scan filters t) (select_where filters t).
Proof.
  intros H. rewrite select_where_on_filter, select_where_filter.
  now apply filter_Permutation.
Qed.

Lemma insert_by_text_perm (col : column) (r : Row) (l : list Row) :
  Permutation (insert_by_text col r l) (r :: l).
Proof.
  induction l as [|x l IH]; simpl; [reflexivity |].
  destruct (String.leb _ _); [reflexivity |].
  rewrite IH. apply perm_swap.
Qed.

(** An index holds every row of the table once. *)
Lemma index_scan_perm (col : column) (l : list Row) :
  Permutation (index_scan col l) l.
Proof.
  induction l as [|r l IH]; simpl; [constructor |].
  rewrite insert_by_text_perm. now constructor.
Qed.

(** The definitions named after the three methods are the queries read in
    rowid order. *)
Lemma rowid_order (limit : Z) (filters : option (gmap string pyval)) :
  get_total_cost_on (fun l => l) filters = get_total_cost filters /\
  get_top_users_on (fun l => l) limit filters = get_top_users limit filters /\
  get_top_features_on (fun l => l) limit filters
  = get_top_features limit filters.
Proof. repeat split. Qed.

Lemma top_query_on_is_top (scan : list Row -> list Row) (col : column)
  (limit : Z) (filters : option (gmap string pyval)) (db : Database)
  (t : Table) :
  cost_logs db = Some t ->
  Forall (fun x => F64.nonneg x = true) (costs db) ->
  in_int64 limit = true ->
  Permutation (scan (persisted db)) (persisted db) ->
  exists res,
    with_table (fun t => fetched <- select_top_on scan col limit filters t ;;
                         fetch_rows fetched) db = (Ok res, db) /\
    is_top col limit (select_where_on scan filters t) res.
Proof.
  intros Ht Hn Hl Hp. unfold with_table, select_top_on. rewrite Ht.
  rewrite bind_int_spec, Hl. simpl.
  unfold persisted in Hp. rewrite Ht in Hp.
  destruct (select_top_is_top col limit (select_where_on scan filters t))
    as (res & E & Htop).
  - apply List.Forall_forall. intros r Hr.
    apply (Permutation_in _ (select_where_on_perm scan filters t Hp)) in Hr.
    rewrite select_where_filter in Hr. apply filter_In in Hr as [Hr _].
    apply (proj1 (List.Forall_forall _ _) Hn). unfold costs, persisted.
    rewrite Ht. now apply in_map.
  - exists res. rewrite E. auto.
Qed.

(** C6, as the code has it. On a ready store whose rows have [cost_usd >= 0],
    for all filters, every [limit] of the 64-bit range and whatever order
    SQLite's planner has the two statements visit the rows in,
    [get_top_users] returns one entry per [user_id] among the rows that pass
    the filters, no group twice; each entry carries the number of the
    group's rows and the sum of their [cost_usd], added up in binary64 in
    the order in which the rows are visited, so fixed only up to the order
    of the additions; the entries are in non-increasing order of summed
    cost; a group is missing only when the result is full and no returned
    sum is smaller; and for [limit >= 0] the length is at most [limit]. A
    negative [limit] bounds nothing: every group is returned.
    [get_top_features] does the same with [feature]. The rows visited are
    those the WHERE clause selects, each once. *)
Theorem C6_top_queries (db : Database) (limit : Z)
  (filters : option (gmap string pyval))
  (scan_users scan_features : list Row -> list Row) :
  ready db = true ->
  Forall (fun x => F64.nonneg x = true) (costs db) ->
  in_int64 limit = true ->
  Permutation (scan_users (persisted db)) (persisted db) ->
  Permutation (scan_features (persisted db)) (persisted db) ->
  exists t users features,
    cost_logs db = Some t /\
    Permutation (select_where_on scan_users filters t)
                (select_where filters t) /\
    Permutation (select_where_on scan_features filters t)
                (select_where filters t) /\
    get_top_users_on scan_users limit filters db = (Ok users, db) /\
    is_top col_user_id limit (select_where_on scan_users filters t) users /\
    get_top_features_on scan_features limit filters db = (Ok features, db) /\
    is_top col_feature limit (select_where_on scan_features filters t)
           features /\
    (limit < 0 ->
     forall r, In r (select_where filters t) ->
       In (row_user_id r) (List.map (fun g => fst (fst g)) users) /\
       In (row_feature r) (List.map (fun g => fst (fst g)) features)).
Proof.
  intros R Hn Hl Pu Pf. destruct (ready_table db R) as [t Ht].
  destruct (top_query_on_is_top scan_users col_user_id limit filters db t
              Ht Hn Hl Pu) as (users & Eu & Tu).
  destruct (top_query_on_is_top scan_features col_feature limit filters db t
              Ht Hn Hl Pf) as (features & Ef & Tf).
  unfold persisted in Pu, Pf. rewrite Ht in Pu, Pf.
  pose proof (select_where_on_perm scan_users filters t Pu) as Su.
  pose proof (select_where_on_perm scan_features filters t Pf) as Sf.
  exists t, users, features. repeat (split; [assumption |]).
  intros Hneg r Hr. split.
  - destruct Tu as (_ & _ & _ & _ & H).
    apply (Permutation_in _ (Permutation_sym Su)) in Hr.
    destruct (H r Hr) as [H'|H']; [exact H' | lia].
  - destruct Tf as (_ & _ & _ & _ & H).
    apply (Permutation_in _ (Permutation_sym Sf)) in Hr.
    destruct (H r Hr) as [H'|H']; [exact H' | lia].
Qed.

Lemma C6_top_queries_witness :
  exists t users features,
    cost_logs backfilled_store = Some t /\
    Permutation (select_where_on (index_scan col_timestamp) first_days t)
                (select_where first_days t) /\
    Permutation (select_where_on (index_scan col_timestamp) first_days t)
                (select_where first_days t) /\
    get_top_users_on (index_scan col_timestamp) 2 first_days backfilled_store
    = (Ok users, backfilled_store) /\
    is_top col_user_id 2
           (select_where_on (index_scan col_timestamp) first_days t) users /\
    get_top_features_on (index_scan col_timestamp) 2 first_days
                        backfilled_store
    = (Ok features, backfilled_store) /\
    is_top col_feature 2
           (select_where_on (index_scan col_timestamp) first_days t)
           features /\
    (2 < 0 ->
     forall r, In r (select_where first_days t) ->
       In (row_user_id r) (List.map (fun g => fst (fst g)) users) /\
       In (row_feature r) (List.map (fun g => fst (fst g)) features)).
Proof.
  apply C6_top_queries;
    [vm_compute; reflexivity | | reflexivity
     | apply index_scan_perm | apply index_scan_perm].
  repeat constructor.
Defined.

(** C6 as stated fails for a negative [limit]: on the store of the storage
    test, [get_top_users] with [limit = -1] returns both users, and 2 is not
    at most -1. *)
Lemma C6_counterexample :
  exists res,
    get_top_users (-1) None example_store = (Ok res, example_store) /\
    List.map (fun g => fst (fst g)) res = ["bob"; "alice"] /\
    ~ (Z.of_nat (List.length res) <= -1).
Proof.
  eexists. split; [vm_compute; reflexivity |].
  split; [reflexivity | simpl; lia].
Qed.

Example ex_scenario_3 :
  fst (get_total_cost (Some {[ "org_id" := PyStr "org-1" ]}) example_store)
  = Ok F64.lit_0_00169 /\
  fst (get_top_users 2 None example_store)
  = Ok [("bob", F64.lit_0_0014, 1); ("alice", F64.lit_0_00029, 2)] /\
  fst (get_top_features 2 None example_store)
  = Ok [("summary", F64.lit_0_00149, 2); ("chat", F64.lit_0_0002, 1)].
Proof. vm_compute. repeat split. Qed.

(** The order of the additions shows in the last bit. Three calls of 0.1,
    0.2 and 0.3, logged latest first: read through the timestamp index, as
    SQLite does with a filter on both ends of a time range, the ranking and
    the total are 0.6; read in rowid order, as without filters, they are
    0.6000000000000001. *)
Example ex_order_of_additions :
  (fst (get_top_users_on (index_scan col_timestamp) 5 first_days
                         backfilled_store)
   = Ok [("alice", F64.lit_0_6, 3)]) /\
  (fst (get_total_cost_on (index_scan col_timestamp) first_days
                          backfilled_store)
   = Ok F64.lit_0_6) /\
  (fst (get_top_users 5 None backfilled_store)
   = Ok [("alice", cost_0_6000000000000001, 3)]) /\
  (fst (get_total_cost None backfilled_store)
   = Ok cost_0_6000000000000001) /\
  cost_0_6000000000000001 <> F64.lit_0_6.
Proof. vm_compute. repeat split. discriminate. Qed.

(** ** The manual-entry path *)

Lemma get_In {V : Type} (d : Dict.t V) (k : string) (v : V) :
  Dict.get d k = Some v -> In (k, v) d.
Proof.
  induction d as [|[k' v'] d IH]; simpl; [discriminate |].
  destruct (String.eqb_spec k k') as [->|Hne].
  - intros [= ->]. now left.
  - intros H. right. now apply IH.
Qed.

Lemma pricing_rates_positive (name : string) (ri ro : F64.t) :
  get_model_pricing name = Ok (ri, ro) ->
  positive_finite ri = true /\ positive_finite ro = true.
Proof.
  unfold get_model_pricing. destruct (_resolve_model_key name) as [key|];
    [|discriminate]. simpl. unfold Dict.item.
  destruct (Dict.get PRICING key) as [rates|] eqn:E; [|discriminate].
  intros [= ->]. apply get_In in E.
  assert (H : forallb (fun kv => positive_finite (fst (snd kv))
                                 && positive_finite (snd (snd kv)))
                      PRICING = true) by reflexivity.
  pose proof (proj1 (forallb_forall _ _) H _ E) as P. simpl in P.
  now apply andb_true_iff in P.
Qed.

(** The cost calculator never returns a negative cost or NaN. *)
Lemma calculate_cost_nonneg (name : string) (tokens_in tokens_out : Z)
  (cost : F64.t) :
  calculate_cost name tokens_in tokens_out = Ok cost ->
  F64.nonneg cost = true.
Proof.
  unfold calculate_cost.
  destruct ((tokens_in <? 0) || (tokens_out <? 0)) eqn:E; [discriminate |].
  apply orb_false_iff in E as [E1%Z.ltb_ge E2%Z.ltb_ge].
  destruct (get_model_pricing name) as [[ri ro]|] eqn:P; [|discriminate].
  apply pricing_rates_positive in P as [Pi Po]. simpl.
  destruct (F64.of_int tokens_in) as [fin|] eqn:Fi; [|discriminate]. simpl.
  destruct (F64.of_int tokens_out) as [fout|] eqn:Fo; [|discriminate]. simpl.
  intros [= <-].
  apply of_int_nonneg in Fi; [|exact E1]. apply of_int_nonneg in Fo; [|exact E2].
  destruct ri as [| | |[] mi ei]; try discriminate.
  destruct ro as [| | |[] mo eo]; try discriminate.
  apply add_nonneg; apply mul_nonneg_finite;
    apply (div_nonneg_finite _ 8589934592000000 (-33)).
  - exact Fi.
  - exact Fo.
Qed.

Lemma get_storage_spec (w : World) :
  world_ok w = true ->
  exists s db,
    fst (get_storage w) = Ok s /\
    _storage (snd (get_storage w)) = Some s /\
    files (snd (get_storage w)) !! db_path s = Some db /\
    ready db = true /\
    _org_id (snd (get_storage w)) = _org_id w.
Proof.
  unfold world_ok, get_storage. destruct (_storage w) as [s|] eqn:Es.
  - destruct (files w !! db_path s) as [db|] eqn:Ef; [|discriminate].
    intros R. exists s, db. simpl. auto.
  - intros _. unfold SQLiteStorage_new, mbind, on_connection, set_storage, ret.
    simpl. rewrite init_db_eq. simpl.
    eexists _, _. split; [reflexivity |]. split; [reflexivity |].
    split; [apply lookup_insert_eq |]. split; [|reflexivity].
    apply ready_indexes. set_solver.
Qed.

Lemma on_connection_log (s : SQLiteStorage) (entry : CostLog) (w : World)
  (db : Database) :
  files w !! db_path s = Some db -> ready db = true ->
  storable entry = true ->
  exists r db',
    on_connection s (log entry) w
    = (Ok tt, {| files := <[db_path s := db']> (files w);
                 _storage := _storage w; _org_id := _org_id w |}) /\
    persisted db' = (persisted db ++ [r])%list /\ ready db' = true /\
    row_user_id r = user_id entry /\ row_feature r = feature entry /\
    row_model r = model entry /\ row_tokens_in r = tokens_in entry /\
    row_tokens_out r = tokens_out entry /\ row_cost_usd r = cost_usd entry /\
    row_latency_ms r = latency_ms entry /\
    row_timestamp r = isoformat (timestamp entry) /\
    row_org_id r = org_id entry /\
    row_metadata r = Json.dumps (metadata entry).
Proof.
  intros Hf R Hs. destruct (ready_table db R) as [t Ht].
  pose proof (log_spec entry db t Ht) as L. rewrite Hs in L.
  destruct L as (r & L & Hr).
  unfold on_connection. rewrite Hf. simpl. rewrite L.
  eexists r, _. split; [reflexivity |].
  split; [unfold persisted; simpl; now rewrite Ht |].
  split; [|exact Hr].
  unfold ready in *. rewrite Ht in R. exact R.
Qed.

Lemma init_tracker_spec (path org : string) (w : World) :
  exists w',
    init_tracker path org w = (Ok {| db_path := path |}, w') /\
    world_ok w' = true /\ _org_id w' = org /\
    _storage w' = Some {| db_path := path |}.
Proof.
  unfold init_tracker, SQLiteStorage_new, mbind, on_connection, set_globals,
    ret. simpl. rewrite init_db_eq. simpl.
  eexists. split; [reflexivity |]. split; [|auto].
  unfold world_ok. simpl. rewrite lookup_insert_eq.
  apply ready_indexes. set_solver.
Qed.

(** C10. A manual entry with counts in range and a resolvable model returns
    a record and persists it as the last row of the tracker's store. The
    record's [org_id] is the argument when that is a non-empty string, and
    the configured default when the argument is absent or the empty string;
    so an empty [org_id] in the persisted row can only be the configured
    default itself. Its [metadata] is the argument, or the empty mapping
    when the argument is absent or empty. Its other fields are the
    arguments, its timestamp is the time of the call, and its [cost_usd] is
    what the cost calculator returns. *)
Theorem C10_manual_entry_defaults
  (user feat name : string) (tin tout latency : Z)
  (meta : option (Dict.t string)) (org : option string) (now : datetime)
  (w : World) (cost : F64.t) :
  world_ok w = true ->
  0 <= tin <= int64_max -> 0 <= tout <= int64_max ->
  0 <= latency <= int64_max ->
  calculate_cost name tin tout = Ok cost ->
  exists entry w' s db r old,
    track_manual user feat name tin tout latency meta org now w
    = (Ok entry, w') /\
    (org = None \/ org = Some "" -> org_id entry = _org_id w) /\
    (forall o, org = Some o -> o <> "" -> org_id entry = o) /\
    (meta = None \/ meta = Some [] -> metadata entry = []) /\
    (forall m, meta = Some m -> metadata entry = m) /\
    user_id entry = user /\ feature entry = feat /\ model entry = name /\
    tokens_in entry = tin /\
    tokens_out entry = tout /\
    latency_ms entry = latency /\ timestamp entry = now /\
    cost_usd entry = cost /\
    _storage w' = Some s /\ files w' !! db_path s = Some db /\
    persisted db = (old ++ [r])%list /\
    row_org_id r = org_id entry /\ row_user_id r = user /\
    row_feature r = feat /\ row_model r = name /\
    row_cost_usd r = cost /\
    (row_org_id r = "" -> _org_id w = "").
Proof.
  intros Hw Hi Ho Hl Hc.
  set (entry := Build_CostLog user feat name tin tout cost latency
                              now (str_or org (_org_id w))
                              (dict_or_empty meta)).
  assert (Hst : storable entry = true).
  { unfold storable, in_int64, int64_min, int64_max in *. simpl.
    rewrite (nonneg_not_nan _ (calculate_cost_nonneg _ _ _ _ Hc)).
    repeat (apply andb_true_iff; split); try reflexivity;
      apply Z.leb_le; lia. }
  destruct (get_storage_spec w Hw) as (s & db & G1 & G2 & G3 & G4 & G5).
  destruct (get_storage w) as [rs w1] eqn:Eg. simpl in G1, G2, G3, G5.
  subst rs.
  destruct (on_connection_log s entry w1 db G3 G4 Hst)
    as (r & db' & L & P & R' & Hu & Hf & Hm & _ & _ & Hcost & _ & _ & Horg & _).
  exists entry, {| files := <[db_path s := db']> (files w1);
                   _storage := _storage w1; _org_id := _org_id w1 |},
         s, db', r, (persisted db).
  assert (Horg_empty : org_id entry = "" -> _org_id w = "").
  { simpl. unfold str_or. destruct org as [[|c o]|]; auto. discriminate. }
  split.
  - unfold track_manual.
    assert (E1 : (tin <? 0) || (tout <? 0) = false)
      by (apply nonneg_ltb; lia).
    assert (E2 : (latency <? 0) = false) by (apply Z.ltb_ge; lia).
    rewrite E1, E2. unfold mbind at 1. unfold lift. rewrite Hc.
    fold entry. unfold mbind at 1. rewrite Eg.
    unfold mbind at 1. rewrite L. reflexivity.
  - simpl. split; [intros [->| ->]; reflexivity |].
    split; [intros o -> Hne; destruct o; [congruence | reflexivity] |].
    split; [intros [->| ->]; reflexivity |].
    split; [intros m E; rewrite E; destruct m; reflexivity |].
    repeat (split; [reflexivity |]).
    split; [exact G2 |]. split; [apply lookup_insert_eq |].
    split; [exact P |]. split; [exact Horg |].
    split; [exact Hu |]. split; [exact Hf |]. split; [exact Hm |].
    split; [exact Hcost |].
    intros E. apply Horg_empty. now rewrite <- Horg.
Qed.

Lemma C10_manual_entry_defaults_witness :
  exists entry w' s db r old,
    track_manual "alice" "chat" "gpt-4-0125-preview" 1000 500 3 (Some [])
                 (Some "") example_time empty_world
    = (Ok entry, w') /\
    (Some "" = None \/ Some "" = Some "" -> org_id entry = _org_id empty_world) /\
    (forall o, Some "" = Some o -> o <> "" -> org_id entry = o) /\
    (@Some (Dict.t string) [] = None \/ @Some (Dict.t string) [] = Some [] ->
     metadata entry = []) /\
    (forall m, @Some (Dict.t string) [] = Some m -> metadata entry = m) /\
    user_id entry = "alice" /\ feature entry = "chat" /\
    model entry = "gpt-4-0125-preview" /\
    tokens_in entry = 1000 /\ tokens_out entry = 500 /\
    latency_ms entry = 3 /\ timestamp entry = example_time /\
    cost_usd entry = F64.lit_0_06 /\
    _storage w' = Some s /\ files w' !! db_path s = Some db /\
    persisted db = (old ++ [r])%list /\
    row_org_id r = org_id entry /\ row_user_id r = "alice" /\
    row_feature r = "chat" /\ row_model r = "gpt-4-0125-preview" /\
    row_cost_usd r = F64.lit_0_06 /\
    (row_org_id r = "" -> _org_id empty_world = "").
Proof.
  apply C10_manual_entry_defaults;
    [reflexivity | unfold int64_max; lia | unfold int64_max; lia
    | unfold int64_max; lia | vm_compute; reflexivity].
Defined.


(** * Further properties of the code *)

(** ** pricing.py *)

Lemma map_map (f g : ascii -> ascii) (s : string) :
  Str.map f (Str.map g s) = Str.map (fun c => f (g c)) s.
Proof. induction s as [|c s IH]; simpl; [reflexivity | now rewrite IH]. Qed.

Lemma map_ext (f g : ascii -> ascii) (s : string) :
  (forall c, f c = g c) -> Str.map f s = Str.map g s.
Proof.
  intros H. induction s as [|c s IH]; simpl; [reflexivity |].
  now rewrite H, IH.
Qed.










Lemma resolve_key_priced (name k : string) :
  _resolve_model_key name = Ok k ->
  exists rates, Dict.get PRICING k = Some rates.
Proof.
  unfold _resolve_model_key.
  destruct (Dict.mem _ PRICING) eqn:M.
  - intros [= <-]. now apply mem_get.
  - destruct (List.find _ _ALIASES) as [[p c]|] eqn:A.
    + intros [= <-]. apply find_some in A as [A _].
      now apply alias_canonical_priced in A.
    + destruct (List.find _ keys_by_specificity) as [key|] eqn:F;
        [|discriminate].
      intros [= <-]. apply find_some in F as [F _].
      apply get_In_keys.
      eapply Permutation_in; [apply sorted_by_len_desc_perm | exact F].
Qed.

Lemma pricing_outcomes (name : string) :
  (exists k rates, _resolve_model_key name = Ok k /\
                   Dict.get PRICING k = Some rates /\
                   get_model_pricing name = Ok rates) \/
  (_resolve_model_key name = Raise (UnsupportedModel name) /\
   get_model_pricing name = Raise (UnsupportedModel name)).
Proof.
  unfold get_model_pricing.
  destruct (_resolve_model_key name) as [k|e] eqn:E.
  - left. destruct (resolve_key_priced name k E) as [rates R].
    exists k, rates. simpl. unfold Dict.item. now rewrite R.
  - right. revert E. unfold _resolve_model_key.
    destruct (Dict.mem _ PRICING); [discriminate |].
    destruct (List.find _ _ALIASES) as [[]|]; [discriminate |].
    destruct (List.find _ keys_by_specificity); [discriminate |].
    intros [= <-]. auto.
Qed.

(** X2. The pricing lookup has two outcomes only: the rate pair of a key of
    the pricing table, or the [ValueError] that names the model as it was
    given. The lookup [PRICING[key]] never raises [KeyError]: every key the
    resolver returns, alias targets included, is in the table. *)
Theorem X2_pricing_outcomes (name : string) :
  (exists k rates, _resolve_model_key name = Ok k /\
                   In k (Dict.keys PRICING) /\
                   Dict.get PRICING k = Some rates /\
                   get_model_pricing name = Ok rates) \/
  (_resolve_model_key name = Raise (UnsupportedModel name) /\
   get_model_pricing name = Raise (UnsupportedModel name)).
Proof.
  destruct (pricing_outcomes name) as [(k & rates & R & G & P) | H];
    [left | now right].
  exists k, rates. repeat split; try assumption. apply get_In_keys. eauto.
Qed.

Lemma contains_refl (s : string) : Str.contains s s = true.
Proof.
  destruct s as [|c s]; [reflexivity |].
  change (String.prefix (String c s) (String c s)
          || Str.contains (String c s) s = true).
  now rewrite prefix_refl.
Qed.

(** X3. A model is priced exactly when its normalized name starts with an
    alias prefix or has a key of the pricing table somewhere inside it;
    every other name is rejected. *)
Theorem X3_supported_models (name : string) :
  let n := _normalize_model_name name in
  (exists rates, get_model_pricing name = Ok rates) <->
  (exists p c, In (p, c) _ALIASES /\ Str.startswith n p = true) \/
  (exists k, In k (Dict.keys PRICING) /\ Str.contains k n = true).
Proof.
  intros n. split.
  - intros [rates H]. unfold get_model_pricing in H.
    destruct (_resolve_model_key name) as [k|e] eqn:E; [|discriminate].
    clear H. revert E. unfold _resolve_model_key. fold n.
    destruct (Dict.mem n PRICING) eqn:M.
    + intros _. right. exists n. split; [|apply contains_refl].
      now apply get_In_keys, mem_get.
    + destruct (List.find _ _ALIASES) as [[p c]|] eqn:A.
      * intros _. left. apply find_some in A as [A1 A2]. eauto.
      * destruct (List.find _ keys_by_specificity) as [key|] eqn:F;
          [|discriminate].
        intros _. right. apply find_some in F as [F1 F2]. exists key. split.
        -- eapply Permutation_in; [apply sorted_by_len_desc_perm | exact F1].
        -- unfold fuzzy_match in F2. apply orb_true_iff in F2 as [F2|F2];
             [now apply startswith_contains | exact F2].
  - intros H.
    assert (R : exists k, _resolve_model_key name = Ok k).
    { unfold _resolve_model_key. fold n.
      destruct (Dict.mem n PRICING); [eauto |].
      destruct (List.find (fun a => Str.startswith n (fst a)) _ALIASES)
        as [[p c]|] eqn:A; [eauto |].
      destruct H as [(p & c & Hin & Hp) | (k & Hk & Hc)].
      - pose proof (find_none _ _ A (p, c) Hin) as N. simpl in N. congruence.
      - destruct (List.find (fuzzy_match n) keys_by_specificity) as [key|] eqn:F;
          [eauto |].
        assert (Hk' : In k keys_by_specificity)
          by (eapply Permutation_in;
              [symmetry; apply sorted_by_len_desc_perm | exact Hk]).
        pose proof (find_none _ _ F k Hk') as N. unfold fuzzy_match in N.
        rewrite Hc, orb_true_r in N. discriminate. }
    destruct R as [k R]. destruct (resolve_key_priced name k R) as [rates G].
    exists rates. unfold get_model_pricing. rewrite R. simpl.
    unfold Dict.item. now rewrite G.
Qed.

(** X4. Whatever the model and the counts, a cost that [calculate_cost]
    returns is never negative and never NaN. *)
Theorem X4_cost_never_negative (name : string) (tokens_in tokens_out : Z)
  (cost : F64.t) :
  calculate_cost name tokens_in tokens_out = Ok cost ->
  F64.nonneg cost = true /\ F64.is_nan cost = false.
Proof.
  intros H. pose proof (calculate_cost_nonneg _ _ _ _ H) as N.
  split; [exact N | now apply nonneg_not_nan].
Qed.

Lemma X4_cost_never_negative_witness :
  F64.nonneg F64.lit_0_06 = true /\ F64.is_nan F64.lit_0_06 = false.
Proof.
  apply (X4_cost_never_negative "gpt-4-0125-preview" 1000 500).
  vm_compute. reflexivity.
Defined.

(** X5. No tokens cost nothing: for every model that has a price,
    [calculate_cost(model, 0, 0)] is [0.0]. *)
Theorem X5_zero_tokens_cost_zero (name : string) (rates : F64.t * F64.t) :
  get_model_pricing name = Ok rates ->
  calculate_cost name 0 0 = Ok F64.zero.
Proof.
  intros H. unfold calculate_cost. simpl. rewrite H. simpl.
  destruct rates as [ri ro].
  destruct (pricing_rates_positive name ri ro H) as [Pi Po].
  destruct ri as [| | |[] mi ei]; try discriminate.
  destruct ro as [| | |[] mo eo]; try discriminate.
  reflexivity.
Qed.

Lemma X5_zero_tokens_cost_zero_witness :
  calculate_cost " GPT_4o_Mini " 0 0 = Ok F64.zero.
Proof.
  apply (X5_zero_tokens_cost_zero _ (F64.lit_0_15, F64.lit_0_6)).
  reflexivity.
Defined.

(** X6. For token counts of the signed 64-bit range, [calculate_cost]
    returns a cost exactly when both counts are non-negative and the model
    has a price; a negative count is reported before the model is looked
    at, and otherwise the only failure is the unsupported model. *)
Theorem X6_cost_outcomes (name : string) (tokens_in tokens_out : Z) :
  tokens_in <= int64_max -> tokens_out <= int64_max ->
  ((exists cost, calculate_cost name tokens_in tokens_out = Ok cost) <->
   0 <= tokens_in /\ 0 <= tokens_out /\
   exists rates, get_model_pricing name = Ok rates) /\
  (tokens_in < 0 \/ tokens_out < 0 ->
   calculate_cost name tokens_in tokens_out
   = Raise (ValueError "Token counts must be non-negative")) /\
  (0 <= tokens_in -> 0 <= tokens_out ->
   forall e, calculate_cost name tokens_in tokens_out = Raise e ->
             e = UnsupportedModel name).
Proof.
  intros Bi Bo. unfold calculate_cost.
  destruct ((tokens_in <? 0) || (tokens_out <? 0)) eqn:E.
  - apply orb_true_iff in E.
    assert (N : tokens_in < 0 \/ tokens_out < 0)
      by (destruct E as [E|E]; apply Z.ltb_lt in E; auto).
    split; [|split].
    + split; [intros [c H]; discriminate | intros (? & ? & _); lia].
    + reflexivity.
    + intros; lia.
  - apply orb_false_iff in E as [E1%Z.ltb_ge E2%Z.ltb_ge].
    destruct (of_int_int64 tokens_in (conj E1 Bi)) as [fin Fi].
    destruct (of_int_int64 tokens_out (conj E2 Bo)) as [fout Fo].
    rewrite Fi, Fo.
    destruct (pricing_outcomes name) as [(k & rates & _ & _ & P) | [_ P]];
      rewrite P; simpl.
    + destruct rates as [ri ro]. simpl. split; [|split].
      * split; [intros _; eauto | eauto].
      * intros; lia.
      * intros _ _ e. discriminate.
    + split; [|split].
      * split; [intros [c H]; discriminate | intros (_ & _ & r & H); discriminate].
      * intros; lia.
      * intros _ _ e [= <-]. reflexivity.
Qed.

Lemma X6_cost_outcomes_witness :
  ((exists cost, calculate_cost "not-a-real-model" 5 (-1) = Ok cost) <->
   0 <= 5 /\ 0 <= -1 /\
   exists rates, get_model_pricing "not-a-real-model" = Ok rates) /\
  (5 < 0 \/ -1 < 0 ->
   calculate_cost "not-a-real-model" 5 (-1)
   = Raise (ValueError "Token counts must be non-negative")) /\
  (0 <= 5 -> 0 <= -1 ->
   forall e, calculate_cost "not-a-real-model" 5 (-1) = Raise e ->
             e = UnsupportedModel "not-a-real-model").
Proof.
  apply X6_cost_outcomes; unfold int64_max; lia.
Defined.

(** ** storage.py *)

Lemma max_rowid_ge (l : list Row) (r : Row) :
  In r l -> row_id r <= max_rowid l.
Proof.
  induction l as [|x l IH]; simpl; [tauto |].
  intros [->|H]; [lia |]. specialize (IH H). lia.
Qed.

Lemma log_new_id (c : CostLog) (db : Database) (t : Table) :
  cost_logs db = Some t ->
  snd (log c db) = db \/
  exists r, persisted (snd (log c db)) = (rows t ++ [r])%list /\
            row_id r = Z.max (seq t) (max_rowid (rows t)) + 1.
Proof.
  intros Ht. unfold log, insert_cost_log, persisted. rewrite Ht.
  destruct (bind_int (tokens_in c)); [|now left].
  destruct (bind_int (tokens_out c)); [|now left].
  destruct (bind_int (latency_ms c)); [|now left].
  destruct (bind_float (cost_usd c)); [|now left].
  right. simpl. eexists. split; reflexivity.
Qed.

Lemma sorted_snoc (l : list Row) (r : Row) :
  StronglySorted Z.lt (List.map row_id l) ->
  (forall x, In x l -> row_id x < row_id r) ->
  StronglySorted Z.lt (List.map row_id (l ++ [r])).
Proof.
  induction l as [|x l IH]; simpl; intros Hs Hr.
  - repeat constructor.
  - inversion Hs as [|? ? Hs' Hx]; subst. constructor.
    + apply IH; auto.
    + rewrite map_app, List.Forall_app. split; [exact Hx |].
      repeat constructor. apply Hr. now left.
Qed.

Lemma perform_ids (db : Database) (c : call) :
  ids_increasing db -> ids_increasing (perform db c).
Proof.
  unfold ids_increasing. intros H. destruct c as [|cl|f|l f|l f]; simpl.
  - rewrite init_db_eq. unfold persisted in *. simpl.
    now destruct (cost_logs db).
  - destruct (cost_logs db) as [t|] eqn:Ht.
    + destruct (log_new_id cl db t Ht) as [-> | (r & -> & Hid)]; [exact H |].
      unfold persisted in H. rewrite Ht in H. apply sorted_snoc; [exact H |].
      intros x Hx. pose proof (max_rowid_ge _ _ Hx). lia.
    + unfold log, insert_cost_log. now rewrite Ht.
  - unfold get_total_cost. now rewrite with_table_state.
  - unfold get_top_users. now rewrite with_table_state.
  - unfold get_top_features. now rewrite with_table_state.
Qed.

Lemma sorted_lt_NoDup (l : list Z) : StronglySorted Z.lt l -> List.NoDup l.
Proof.
  induction 1 as [|x l Hs IH Hx]; constructor; [|exact IH].
  intros Hin. pose proof (proj1 (List.Forall_forall _ _) Hx x Hin). lia.
Qed.

(** X7. Surrogate ids only grow. Starting from a store whose row ids
    increase strictly along the table, as in a fresh store, any sequence of
    operations leaves them strictly increasing, so no two rows ever share an
    id; and a row that [log] appends gets an id above every id in the table
    and above the largest id handed out so far. *)
Theorem X7_ids_strictly_increase (calls : list call) (db : Database) :
  ids_increasing db ->
  ids_increasing (fold_left perform calls db) /\
  List.NoDup (List.map row_id (persisted (fold_left perform calls db))) /\
  (forall c t r,
      cost_logs db = Some t ->
      persisted (snd (log c db)) = (rows t ++ [r])%list ->
      seq t < row_id r /\ forall x, In x (rows t) -> row_id x < row_id r) /\
  ids_increasing fresh_store.
Proof.
  intros H.
  assert (I : ids_increasing (fold_left perform calls db)).
  { revert db H. induction calls as [|c calls IH]; intros db H; simpl;
      [exact H |]. apply IH. now apply perform_ids. }
  split; [exact I |]. split; [now apply sorted_lt_NoDup |]. split.
  - intros c t r Ht Hp.
    destruct (log_new_id c db t Ht) as [E | (r' & E & Hid)].
    + rewrite E in Hp. unfold persisted in Hp. rewrite Ht in Hp.
      apply (f_equal (@List.length Row)) in Hp.
      rewrite List.length_app in Hp. simpl in Hp. lia.
    + rewrite E in Hp. apply app_inj_tail in Hp as [_ <-].
      split; [lia |]. intros x Hx. pose proof (max_rowid_ge _ _ Hx). lia.
  - constructor.
Qed.

Lemma X7_ids_strictly_increase_witness :
  ids_increasing (fold_left perform (List.map CallLog example_records)
                            fresh_store) /\
  List.NoDup (List.map row_id
      (persisted (fold_left perform (List.map CallLog example_records)
                            fresh_store))) /\
  (forall c t r,
      cost_logs fresh_store = Some t ->
      persisted (snd (log c fresh_store)) = (rows t ++ [r])%list ->
      seq t < row_id r /\ forall x, In x (rows t) -> row_id x < row_id r) /\
  ids_increasing fresh_store.
Proof.
  apply X7_ids_strictly_increase. constructor.
Defined.

Lemma sum_snoc (l : list F64.t) (x : F64.t) :
  F64.sum (l ++ [x]) = F64.add (F64.sum l) x.
Proof. unfold F64.sum. now rewrite fold_left_app. Qed.

(** X8. A successful append shows in the next read: on a ready store whose
    costs are non-negative, appending a storable record with a non-negative
    cost makes the unfiltered total the old total plus the record's cost,
    and the row count one more. *)
Theorem X8_append_adds_to_total (c : CostLog) (db : Database) :
  ready db = true ->
  Forall (fun x => F64.nonneg x = true) (costs db) ->
  storable c = true -> F64.nonneg (cost_usd c) = true ->
  exists before,
    fst (log c db) = Ok tt /\
    fst (get_total_cost None db) = Ok before /\
    fst (get_total_cost None (snd (log c db)))
    = Ok (F64.add before (cost_usd c)) /\
    List.length (persisted (snd (log c db)))
    = S (List.length (persisted db)).
Proof.
  intros R Hn Hs Hc. destruct (ready_table db R) as [t Ht].
  pose proof (log_spec c db t Ht) as L. rewrite Hs in L.
  destruct L as (r & L & _ & _ & _ & _ & _ & Hr & _).
  exists (F64.sum (costs db)). rewrite L. simpl.
  unfold get_total_cost, with_table. rewrite Ht. simpl.
  rewrite !select_where_none. simpl.
  assert (Ec : costs db = List.map row_cost_usd (rows t))
    by (unfold costs, persisted; now rewrite Ht).
  rewrite <- Ec. split; [reflexivity |]. split; [|split].
  - f_equal. now apply sql_sum_nonneg.
  - f_equal. rewrite map_app. simpl. rewrite <- Ec, Hr, <- sum_snoc.
    apply sql_sum_nonneg. apply List.Forall_app. split; [exact Hn |].
    now repeat constructor.
  - unfold persisted. simpl. rewrite Ht, List.length_app. simpl. lia.
Qed.

Lemma X8_append_adds_to_total_witness :
  exists before,
    fst (log example_record example_store) = Ok tt /\
    fst (get_total_cost None example_store) = Ok before /\
    fst (get_total_cost None (snd (log example_record example_store)))
    = Ok (F64.add before (cost_usd example_record)) /\
    List.length (persisted (snd (log example_record example_store)))
    = S (List.length (persisted example_store)).
Proof.
  apply X8_append_adds_to_total;
    [vm_compute; reflexivity | repeat constructor | reflexivity | reflexivity].
Defined.

Lemma indicator_sum (ks : list string) (a : string) :
  List.NoDup ks -> In a ks ->
  fold_right Z.add 0
    (List.map (fun k => if String.eqb a k then 1 else 0) ks) = 1.
Proof.
  induction 1 as [|k ks Hk Hnd IH]; simpl; [tauto |].
  intros [->|Hin].
  - rewrite String.eqb_refl.
    assert (Z : fold_right Z.add 0
                  (List.map (fun k => if String.eqb a k then 1 else 0) ks) = 0).
    { clear IH Hnd. induction ks as [|k ks IH]; simpl; [reflexivity |].
      destruct (String.eqb_spec a k) as [->|_].
      - exfalso. apply Hk. now left.
      - rewrite IH; [reflexivity |]. intros H. apply Hk. now right. }
    lia.
  - destruct (String.eqb_spec a k) as [->|_]; [contradiction |].
    now rewrite IH.
Qed.

Lemma members_length_sum (col : column) (matching : list Row)
  (ks : list string) :
  List.NoDup ks ->
  (forall r, In r matching -> In (column_text r col) ks) ->
  fold_right Z.add 0
    (List.map (fun k => Z.of_nat (List.length (members col matching k))) ks)
  = Z.of_nat (List.length matching).
Proof.
  intros Hnd. induction matching as [|r m IH]; intros Hin.
  - simpl. induction ks as [|k ks IHk]; simpl; [reflexivity |].
    inversion Hnd; subst. rewrite IHk; auto. intros ? [].
  - assert (E : forall k,
               Z.of_nat (List.length (members col (r :: m) k))
               = (if String.eqb (column_text r col) k then 1 else 0)
                 + Z.of_nat (List.length (members col m k))).
    { intros k. unfold members. simpl.
      destruct (String.eqb (column_text r col) k); simpl; lia. }
    rewrite (List.map_ext _ _ E).
    assert (S : forall (f g : string -> Z) (l : list string),
               fold_right Z.add 0 (List.map (fun k => f k + g k) l)
               = fold_right Z.add 0 (List.map f l)
                 + fold_right Z.add 0 (List.map g l)).
    { intros f g l. induction l as [|x l IHl]; simpl; [reflexivity |].
      rewrite IHl. lia. }
    rewrite S, IH by (intros x Hx; apply Hin; now right).
    rewrite indicator_sum; [|exact Hnd | apply Hin; now left].
    simpl List.length. lia.
Qed.

Lemma is_top_counts (col : column) (limit : Z) (matching : list Row)
  (res : list (string * F64.t * Z)) :
  is_top col limit matching res -> limit < 0 ->
  total_calls res = Z.of_nat (List.length matching).
Proof.
  intros (Hnd & Hrow & _ & _ & Hall) Hneg.
  rewrite <- (members_length_sum col matching
                (List.map (fun g => fst (fst g)) res) Hnd).
  - unfold total_calls. rewrite List.map_map.
    f_equal. apply List.map_ext_in. intros [[k x] n] Hin. simpl.
    now destruct (Hrow k x n Hin) as (_ & _ & ->).
  - intros r Hr. destruct (Hall r Hr) as [H|H]; [exact H | lia].
Qed.

(** X9. With a negative [limit], under which SQLite returns every group,
    the call counts that [get_top_users] and [get_top_features] report add
    up to the number of rows the filters select: each matching row is
    counted in exactly one group. *)
Theorem X9_groups_partition_rows (db : Database) (limit : Z)
  (filters : option (gmap string pyval)) :
  ready db = true ->
  Forall (fun x => F64.nonneg x = true) (costs db) ->
  in_int64 limit = true -> limit < 0 ->
  exists t users features,
    cost_logs db = Some t /\
    fst (get_top_users limit filters db) = Ok users /\
    fst (get_top_features limit filters db) = Ok features /\
    total_calls users = Z.of_nat (List.length (select_where filters t)) /\
    total_calls features = Z.of_nat (List.length (select_where filters t)).
Proof.
  intros R Hn Hl Hneg. destruct (ready_table db R) as [t Ht].
  destruct (top_query_is_top col_user_id limit filters db t Ht Hn Hl)
    as (users & Eu & Tu).
  destruct (top_query_is_top col_feature limit filters db t Ht Hn Hl)
    as (features & Ef & Tf).
  exists t, users, features. unfold get_top_users, get_top_features.
  rewrite Eu, Ef. simpl. repeat split; try assumption.
  - eapply is_top_counts; eauto.
  - eapply is_top_counts; eauto.
Qed.

Lemma X9_groups_partition_rows_witness :
  exists t users features,
    cost_logs example_store = Some t /\
    fst (get_top_users (-1) None example_store) = Ok users /\
    fst (get_top_features (-1) None example_store) = Ok features /\
    total_calls users = Z.of_nat (List.length (select_where None t)) /\
    total_calls features = Z.of_nat (List.length (select_where None t)).
Proof.
  apply X9_groups_partition_rows;
    [vm_compute; reflexivity | repeat constructor | reflexivity | lia].
Defined.

Lemma build_clauses_of (filters : option (gmap string pyval)) :
  _build_where_clause filters = clauses_of (conditions filters).
Proof.
  unfold conditions. destruct filters as [f|]; [|reflexivity].
  unfold _build_where_clause. case_bool_decide as E.
  - subst f. reflexivity.
  - rewrite !supplied_get. simpl.
    destruct (filters_get f "user_id"), (filters_get f "feature"),
      (filters_get f "org_id"), (filters_get f "model"),
      (filters_get f "start_time"), (filters_get f "end_time"); reflexivity.
Qed.

Lemma clauses_of_length (conds : list (column * cmp_op * option string)) :
  List.length (fst (clauses_of conds)) = List.length (snd (clauses_of conds)) /\
  (List.length (fst (clauses_of conds)) <= List.length conds)%nat.
Proof.
  induction conds as [|[[col o] [v|]] rest [IH1 IH2]]; simpl; lia.
Qed.

(** X10. The WHERE clause is built from the six known filter keys and from
    nothing else: it has one conjunct, with its parameter, for each key that
    carries a value other than [None], in the fixed order [user_id],
    [feature], [org_id], [model], [start_time], [end_time]. So the
    placeholders and the parameters always agree in number (at most six),
    a key set to [None] counts as absent, and keys the code does not know
    are ignored. *)
Theorem X10_where_clause_shape (filters : option (gmap string pyval)) :
  _build_where_clause filters = clauses_of (conditions filters) /\
  List.length (fst (_build_where_clause filters))
  = List.length (snd (_build_where_clause filters)) /\
  (List.length (fst (_build_where_clause filters)) <= 6)%nat /\
  (forall filters',
      (forall key, In key ["user_id"; "feature"; "org_id"; "model";
                           "start_time"; "end_time"] ->
                   supplied filters' key = supplied filters key) ->
      _build_where_clause filters' = _build_where_clause filters).
Proof.
  split; [apply build_clauses_of |].
  rewrite build_clauses_of.
  destruct (clauses_of_length (conditions filters)) as [L1 L2].
  split; [exact L1 |]. split; [exact L2 |].
  intros filters' H. rewrite build_clauses_of. unfold conditions.
  rewrite !H; [reflexivity | simpl; tauto..].
Qed.

(** X11. Queries over nothing do not fail. On a ready store, when no row
    passes the filters, or when [limit] is 0, [get_top_users] and
    [get_top_features] return the empty list, for every [limit] of the
    64-bit range; a [limit] outside that range raises [OverflowError]
    instead. *)
Theorem X11_top_of_nothing (db : Database) (limit : Z)
  (filters : option (gmap string pyval)) :
  ready db = true ->
  (in_int64 limit = true ->
   (forall r, In r (persisted db) -> matches filters r = false) \/ limit = 0 ->
   get_top_users limit filters db = (Ok [], db) /\
   get_top_features limit filters db = (Ok [], db)) /\
  (in_int64 limit = false ->
   exists msg,
     get_top_users limit filters db = (Raise (OverflowError msg), db) /\
     get_top_features limit filters db = (Raise (OverflowError msg), db)).
Proof.
  intros R. destruct (ready_table db R) as [t Ht].
  unfold get_top_users, get_top_features, with_table, select_top.
  rewrite Ht, bind_int_spec. split.
  - intros Hl [Hnone | ->]; rewrite Hl; simpl.
    + rewrite select_where_filter, filter_none;
        [|intros r Hr; apply Hnone; unfold persisted; now rewrite Ht].
      unfold group_by. simpl. unfold sql_limit.
      destruct (limit <? 0); [auto | rewrite firstn_nil; auto].
    + auto.
  - intros Hl. rewrite Hl. simpl. eauto.
Qed.

Lemma X11_top_of_nothing_witness :
  (in_int64 5 = true ->
   (forall r, In r (persisted fresh_store) -> matches None r = false) \/ 5 = 0 ->
   get_top_users 5 None fresh_store = (Ok [], fresh_store) /\
   get_top_features 5 None fresh_store = (Ok [], fresh_store)) /\
  (in_int64 5 = false ->
   exists msg,
     get_top_users 5 None fresh_store = (Raise (OverflowError msg), fresh_store) /\
     get_top_features 5 None fresh_store
     = (Raise (OverflowError msg), fresh_store)).
Proof.
  apply X11_top_of_nothing. vm_compute. reflexivity.
Defined.

Lemma perform_ready (db : Database) (c : call) :
  ready db = true -> ready (perform db c) = true.
Proof.
  intros R. destruct c as [|cl|f|l f|l f]; simpl.
  - rewrite init_db_eq. simpl. apply ready_indexes. set_solver.
  - destruct (ready_table db R) as [t Ht].
    pose proof (log_spec cl db t Ht) as L. destruct (storable cl).
    + destruct L as (r & -> & _). simpl. unfold ready in *. simpl.
      now rewrite Ht in R.
    + destruct L as (e & ->). exact R.
  - unfold get_total_cost. now rewrite with_table_state.
  - unfold get_top_users. now rewrite with_table_state.
  - unfold get_top_features. now rewrite with_table_state.
Qed.

(** X12. A ready store stays ready: no operation of the engine, whether it
    returns or raises, removes the table or an index, and [_init_db] makes
    any database ready. So after construction every later operation finds
    the schema in place. *)
Theorem X12_ready_is_kept (calls : list call) (db : Database) :
  ready (fold_left perform calls (perform db CallInitDb)) = true /\
  (ready db = true -> ready (fold_left perform calls db) = true).
Proof.
  assert (K : forall d, ready d = true -> ready (fold_left perform calls d) = true).
  { induction calls as [|c calls IH]; intros d R; simpl; [exact R |].
    apply IH. now apply perform_ready. }
  split; [|apply K].
  apply K. simpl. rewrite init_db_eq. apply ready_indexes. set_solver.
Qed.

Lemma select_where_holds (filters : option (gmap string pyval)) (t : Table)
  (r : Row) :
  In r (select_where filters t) ->
  forallb (holds r) (conditions filters) = true.
Proof.
  rewrite select_where_filter, filter_In, matches_conditions. tauto.
Qed.

(** X13. Filtering on a user narrows the ranking to that user. When the
    filters supply [user_id], [get_top_users] returns at most one entry and
    its key is the supplied user; with [feature] supplied the same holds of
    [get_top_features]. *)
Theorem X13_filtered_ranking_is_single (db : Database) (limit : Z)
  (filters : option (gmap string pyval)) :
  ready db = true ->
  Forall (fun x => F64.nonneg x = true) (costs db) ->
  in_int64 limit = true ->
  (forall u, supplied filters "user_id" = Some u ->
     exists users,
       get_top_users limit filters db = (Ok users, db) /\
       (List.length users <= 1)%nat /\
       forall g, In g users -> fst (fst g) = u) /\
  (forall f, supplied filters "feature" = Some f ->
     exists features,
       get_top_features limit filters db = (Ok features, db) /\
       (List.length features <= 1)%nat /\
       forall g, In g features -> fst (fst g) = f).
Proof.
  intros R Hn Hl. destruct (ready_table db R) as [t Ht].
  assert (One : forall (l : list (string * F64.t * Z)) (v : string),
             List.NoDup (List.map (fun g => fst (fst g)) l) ->
             (forall g, In g l -> fst (fst g) = v) ->
             (List.length l <= 1)%nat).
  { intros [|a [|b l]] v Hnd Hv; simpl; try lia.
    exfalso. simpl in Hnd. inversion Hnd as [|? ? Hno _]; subst.
    apply Hno. left.
    rewrite (Hv a), (Hv b); simpl; auto. }
  assert (Key : forall col res,
             is_top col limit (select_where filters t) res ->
             forall v, (forall r, In r (select_where filters t) ->
                                  column_text r col = v) ->
             forall g, In g res -> fst (fst g) = v).
  { intros col res (_ & Hrow & _) v Hv [[k x] n] Hin. simpl.
    destruct (Hrow k x n Hin) as (Hne & _).
    destruct (members col (select_where filters t) k) as [|r m] eqn:E;
      [congruence |].
    assert (Hr : In r (members col (select_where filters t) k))
      by (rewrite E; now left).
    unfold members in Hr. apply filter_In in Hr as [Hr Hk].
    apply String.eqb_eq in Hk. rewrite <- Hk. now apply Hv. }
  split.
  - intros u Hu.
    destruct (top_query_is_top col_user_id limit filters db t Ht Hn Hl)
      as (users & Eu & Tu).
    exists users. split; [exact Eu |].
    assert (Hv : forall g, In g users -> fst (fst g) = u).
    { apply (Key col_user_id users Tu). intros r Hr.
      apply select_where_holds in Hr. unfold conditions in Hr. simpl in Hr.
      rewrite Hu in Hr. simpl in Hr.
      apply andb_true_iff in Hr as [Hr _]. now apply String.eqb_eq in Hr. }
    split; [|exact Hv]. apply (One users u); [apply Tu | exact Hv].
  - intros f Hf.
    destruct (top_query_is_top col_feature limit filters db t Ht Hn Hl)
      as (features & Ef & Tf).
    exists features. split; [exact Ef |].
    assert (Hv : forall g, In g features -> fst (fst g) = f).
    { apply (Key col_feature features Tf). intros r Hr.
      apply select_where_holds in Hr. unfold conditions in Hr. simpl in Hr.
      rewrite Hf in Hr. simpl in Hr.
      apply andb_true_iff in Hr as [_ [Hr _]%andb_true_iff].
      now apply String.eqb_eq in Hr. }
    split; [|exact Hv]. apply (One features f); [apply Tf | exact Hv].
Qed.

Lemma X13_filtered_ranking_is_single_witness :
  (forall u,
     supplied (Some {[ "user_id" := PyStr "alice" ]}) "user_id" = Some u ->
     exists users,
       get_top_users 10 (Some {[ "user_id" := PyStr "alice" ]}) example_store
       = (Ok users, example_store) /\
       (List.length users <= 1)%nat /\
       forall g, In g users -> fst (fst g) = u) /\
  (forall f,
     supplied (Some {[ "user_id" := PyStr "alice" ]}) "feature" = Some f ->
     exists features,
       get_top_features 10 (Some {[ "user_id" := PyStr "alice" ]})
                        example_store
       = (Ok features, example_store) /\
       (List.length features <= 1)%nat /\
       forall g, In g features -> fst (fst g) = f).
Proof.
  apply X13_filtered_ranking_is_single;
    [vm_compute; reflexivity | repeat constructor | reflexivity].
Defined.

(** ** tracker.py *)

Lemma on_connection_file {A : Type} (self : SQLiteStorage) (m : M Database A)
  (w : World) (path : string) :
  file_at (snd (on_connection self m w)) path
  = (if String.eqb path (db_path self)
     then snd (m (file_at w path)) else file_at w path) /\
  _storage (snd (on_connection self m w)) = _storage w /\
  _org_id (snd (on_connection self m w)) = _org_id w /\
  fst (on_connection self m w) = fst (m (file_at w (db_path self))).
Proof.
  unfold on_connection, file_at.
  destruct (m (default empty_database (files w !! db_path self)))
    as [r db'] eqn:E. simpl.
  split; [|auto].
  destruct (String.eqb_spec path (db_path self)) as [->|Hne].
  - rewrite lookup_insert_eq, E. reflexivity.
  - rewrite lookup_insert_ne by congruence. reflexivity.
Qed.

Lemma init_db_persisted (db : Database) :
  persisted (snd (_init_db db)) = persisted db.
Proof.
  rewrite init_db_eq. unfold persisted. simpl. now destruct (cost_logs db).
Qed.

Lemma new_storage_spec (path : string) (w : World) :
  fst (SQLiteStorage_new path w) = Ok {| db_path := path |} /\
  _storage (snd (SQLiteStorage_new path w)) = _storage w /\
  _org_id (snd (SQLiteStorage_new path w)) = _org_id w /\
  (forall p, file_at (snd (SQLiteStorage_new path w)) p
             = if String.eqb p path then snd (_init_db (file_at w p))
               else file_at w p).
Proof.
  unfold SQLiteStorage_new, mbind, ret.
  pose proof (on_connection_file {| db_path := path |} _init_db w) as H.
  destruct (on_connection {| db_path := path |} _init_db w) as [r w1] eqn:E.
  destruct (H path) as (_ & H2 & H3 & H4). simpl in H2, H3, H4.
  rewrite init_db_eq in H4. simpl in H4. subst r. simpl.
  repeat split; try assumption. intros p. now destruct (H p) as (H1 & _).
Qed.

(** X14. An unsupported model leaves no trace. With non-negative counts and
    latency, a manual entry for a model that has no price raises the
    resolver's error and gives back the world as it was: no record is
    written with a zero or default cost, and no default storage is
    created. *)
Theorem X14_unsupported_model_leaves_no_trace
  (user feat name : string) (tin tout latency : Z)
  (meta : option (Dict.t string)) (org : option string) (now : datetime)
  (w : World) :
  0 <= tin -> 0 <= tout -> 0 <= latency ->
  _resolve_model_key name = Raise (UnsupportedModel name) ->
  track_manual user feat name tin tout latency meta org now w
  = (Raise (UnsupportedModel name), w).
Proof.
  intros Hi Ho Hl Hr. unfold track_manual.
  rewrite (nonneg_ltb _ _ Hi Ho).
  assert (E : (latency <? 0) = false) by (apply Z.ltb_ge; lia).
  rewrite E. unfold mbind, lift, calculate_cost, get_model_pricing.
  now rewrite (nonneg_ltb _ _ Hi Ho), Hr.
Qed.

Lemma X14_unsupported_model_leaves_no_trace_witness :
  track_manual "alice" "chat" "not-a-real-model" 10 20 0 None None
               example_time empty_world
  = (Raise (UnsupportedModel "not-a-real-model"), empty_world).
Proof.
  apply X14_unsupported_model_leaves_no_trace; [lia | lia | lia | reflexivity].
Defined.

Lemma get_storage_cases (w : World) :
  (exists s0, _storage w = Some s0 /\ get_storage w = (Ok s0, w)) \/
  (_storage w = None /\
   exists w1,
     get_storage w = (Ok {| db_path := "ai_cost_tracker.db" |}, w1) /\
     _storage w1 = Some {| db_path := "ai_cost_tracker.db" |} /\
     _org_id w1 = _org_id w /\
     forall p, file_at w1 p
               = if String.eqb p "ai_cost_tracker.db"
                 then snd (_init_db (file_at w p)) else file_at w p).
Proof.
  unfold get_storage. destruct (_storage w) as [s0|] eqn:Es; [left; eauto |].
  right. split; [reflexivity |].
  destruct (new_storage_spec "ai_cost_tracker.db" w) as (N1 & N2 & N3 & N4).
  unfold mbind, set_storage, ret.
  destruct (SQLiteStorage_new "ai_cost_tracker.db" w) as [r w1] eqn:E.
  simpl in N1, N2, N3, N4. subst r. simpl.
  eexists. split; [reflexivity |]. simpl. repeat split; auto.
Qed.

(** X15. [get_storage] always returns a storage. When one is set it is
    returned and nothing changes. When none is set, a storage on
    [ai_cost_tracker.db] is created and kept: the file gets the schema and
    keeps the rows it had, every other file and the default organization
    stay as they were. A second call returns the same storage and changes
    nothing. *)
Theorem X15_get_storage_is_lazy (w : World) :
  exists s,
    fst (get_storage w) = Ok s /\
    _storage (snd (get_storage w)) = Some s /\
    _org_id (snd (get_storage w)) = _org_id w /\
    (forall s0, _storage w = Some s0 -> get_storage w = (Ok s0, w)) /\
    (_storage w = None ->
     db_path s = "ai_cost_tracker.db" /\
     ready (file_at (snd (get_storage w)) "ai_cost_tracker.db") = true) /\
    (forall p, persisted (file_at (snd (get_storage w)) p)
               = persisted (file_at w p)) /\
    (forall p, p <> "ai_cost_tracker.db" ->
               file_at (snd (get_storage w)) p = file_at w p) /\
    get_storage (snd (get_storage w)) = (Ok s, snd (get_storage w)).
Proof.
  destruct (get_storage_cases w)
    as [(s0 & Es & E) | (Es & w1 & E & G1 & G2 & G3)]; rewrite E; simpl.
  - exists s0. repeat split; auto; try congruence.
  - exists {| db_path := "ai_cost_tracker.db" |}.
    split; [reflexivity |]. split; [exact G1 |]. split; [exact G2 |].
    split; [intros s0 H; congruence |]. split; [|split; [|split]].
    + intros _. split; [reflexivity |]. rewrite G3. simpl.
      rewrite init_db_eq. apply ready_indexes. set_solver.
    + intros p. rewrite G3.
      destruct (String.eqb p "ai_cost_tracker.db");
        [apply init_db_persisted | reflexivity].
    + intros p Hp. rewrite G3.
      destruct (String.eqb_spec p "ai_cost_tracker.db"); [contradiction |].
      reflexivity.
    + destruct (get_storage_cases w1) as [(s0 & Es' & E') | (Es' & _)];
        [|congruence].
      rewrite E'. congruence.
Qed.




Lemma track_manual_run (user feat name : string) (tin tout latency : Z)
  (meta : option (Dict.t string)) (org : option string) (now : datetime)
  (w : World) (cost : F64.t) :
  0 <= tin -> 0 <= tout -> 0 <= latency ->
  calculate_cost name tin tout = Ok cost ->
  let entry := Build_CostLog user feat name tin tout cost latency now
                             (str_or org (_org_id w)) (dict_or_empty meta) in
  track_manual user feat name tin tout latency meta org now w
  = match get_storage w with
    | (Ok s, w1) =>
        match on_connection s (log entry) w1 with
        | (Ok _, w2) => (Ok entry, w2)
        | (Raise e, w2) => (Raise e, w2)
        end
    | (Raise e, w1) => (Raise e, w1)
    end.
Proof.
  intros Hi Ho Hl Hc entry. unfold track_manual.
  rewrite (nonneg_ltb _ _ Hi Ho).
  assert (E : (latency <? 0) = false) by (apply Z.ltb_ge; lia).
  rewrite E. unfold mbind at 1. unfold lift. rewrite Hc. fold entry.
  unfold mbind at 1. destruct (get_storage w) as [[s|e] w1]; [|reflexivity].
  unfold mbind at 1. destruct (on_connection s (log entry) w1) as [[u|e] w2];
    reflexivity.
Qed.

Lemma track_manual_early (user feat name : string) (tin tout latency : Z)
  (meta : option (Dict.t string)) (org : option string) (now : datetime)
  (w : World) :
  (tin < 0 \/ tout < 0 \/ latency < 0 \/
   exists e, calculate_cost name tin tout = Raise e) ->
  snd (track_manual user feat name tin tout latency meta org now w) = w.
Proof.
  intros H. unfold track_manual.
  destruct ((tin <? 0) || (tout <? 0)) eqn:E1; [reflexivity |].
  destruct (latency <? 0) eqn:E2; [reflexivity |].
  apply orb_false_iff in E1 as [A%Z.ltb_ge B%Z.ltb_ge]. apply Z.ltb_ge in E2.
  destruct H as [H|[H|[H|[e H]]]]; try lia.
  unfold mbind, lift. now rewrite H.
Qed.

(** X17. Whatever its arguments and whether it returns or raises, a manual
    entry touches the stored rows of no file except by appending: every
    file keeps the rows it had, unchanged and in place, and at most one row
    is added to it. The default organization is never changed. *)
Theorem X17_manual_entry_only_appends
  (user feat name : string) (tin tout latency : Z)
  (meta : option (Dict.t string)) (org : option string) (now : datetime)
  (w : World) (path : string) :
  let w' := snd (track_manual user feat name tin tout latency meta org now w) in
  (exists new,
      persisted (file_at w' path) = (persisted (file_at w path) ++ new)%list /\
      (List.length new <= 1)%nat) /\
  _org_id w' = _org_id w.
Proof.
  intros w'. unfold w'. clear w'.
  assert (Same : forall x, x = w ->
            (exists new,
                persisted (file_at x path)
                = (persisted (file_at w path) ++ new)%list /\
                (List.length new <= 1)%nat) /\ _org_id x = _org_id w).
  { intros x ->. split; [|reflexivity]. exists []. rewrite app_nil_r.
    simpl. auto. }
  destruct (Z.lt_ge_cases tin 0) as [Hi|Hi];
    [apply Same, track_manual_early; auto |].
  destruct (Z.lt_ge_cases tout 0) as [Ho|Ho];
    [apply Same, track_manual_early; auto |].
  destruct (Z.lt_ge_cases latency 0) as [Hl|Hl];
    [apply Same, track_manual_early; auto |].
  destruct (calculate_cost name tin tout) as [cost|e] eqn:Hc;
    [|apply Same, track_manual_early; eauto 6].
  rewrite (track_manual_run user feat name tin tout latency meta org now w cost
             Hi Ho Hl Hc).
  set (entry := Build_CostLog _ _ _ _ _ _ _ _ _ _).
  assert (G : exists s w1,
             get_storage w = (Ok s, w1) /\ _org_id w1 = _org_id w /\
             forall p, persisted (file_at w1 p) = persisted (file_at w p)).
  { destruct (get_storage_cases w)
      as [(s0 & _ & E) | (_ & w1 & E & _ & G2 & G3)].
    - exists s0, w. auto.
    - exists {| db_path := "ai_cost_tracker.db" |}, w1.
      split; [exact E |]. split; [exact G2 |]. intros p. rewrite G3.
      destruct (String.eqb p "ai_cost_tracker.db");
        [apply init_db_persisted | reflexivity]. }
  destruct G as (s & w1 & -> & Go & Gp).
  destruct (on_connection_file s (log entry) w1 path) as (F1 & _ & F3 & _).
  assert (R : snd (match on_connection s (log entry) w1 with
                   | (Ok _, w2) => (Ok entry, w2)
                   | (Raise e, w2) => (Raise e, w2)
                   end) = snd (on_connection s (log entry) w1))
    by (destruct (on_connection s (log entry) w1) as [[u|e] w2]; reflexivity).
  rewrite R, F1, F3, Go. split; [|reflexivity].
  destruct (String.eqb path (db_path s)).
  - destruct (log_persisted entry (file_at w1 path))
      as [(r & _ & H & _) | (e & H)].
    + exists [r]. rewrite H, Gp. simpl. auto.
    + rewrite H. simpl. exists []. rewrite app_nil_r, Gp. simpl. auto.
  - exists []. rewrite app_nil_r, Gp. simpl. auto.
Qed.



(** ** models.py and the serialized columns *)

Lemma compare_app (p1 p2 s1 s2 : string) :
  String.length p1 = String.length p2 ->
  String.compare (p1 +:+ s1) (p2 +:+ s2)
  = then_compare (String.compare p1 p2) (String.compare s1 s2).
Proof.
  revert p2. induction p1 as [|c1 p1 IH]; intros [|c2 p2]; simpl;
    try discriminate; [reflexivity |].
  intros [= L].
  destruct (Ascii.compare c1 c2); [now apply IH | reflexivity..].
Qed.

Lemma zfill_length (w : nat) (n : Z) : String.length (zfill w n) = w.
Proof.
  revert n. induction w as [|w IH]; intros n; simpl; [reflexivity |].
  rewrite length_app, IH. simpl. lia.
Qed.

Lemma digit_compare (x y : Z) :
  0 <= x < 10 -> 0 <= y < 10 ->
  String.compare (String (ascii_of_N (48 + Z.to_N x)) "")
                 (String (ascii_of_N (48 + Z.to_N y)) "")
  = (x ?= y).
Proof.
  intros Hx Hy. simpl. unfold Ascii.compare.
  rewrite !N_ascii_embedding by lia.
  destruct (N.compare_spec (48 + Z.to_N x) (48 + Z.to_N y)) as [E|E|E];
    destruct (Z.compare_spec x y) as [F|F|F]; try reflexivity; lia.
Qed.

Lemma zfill_compare (w : nat) (a b : Z) :
  0 <= a < 10 ^ Z.of_nat w -> 0 <= b < 10 ^ Z.of_nat w ->
  String.compare (zfill w a) (zfill w b) = (a ?= b).
Proof.
  revert a b. induction w as [|w IH]; intros a b Ha Hb.
  - simpl in *. assert (a = 0) by lia. assert (b = 0) by lia. now subst.
  - rewrite Nat2Z.inj_succ, Z.pow_succ_r in Ha, Hb by lia.
    simpl. rewrite compare_app by now rewrite !zfill_length.
    rewrite IH by (split; [apply Z.div_pos; lia
                          | apply Z.div_lt_upper_bound; lia]).
    rewrite digit_compare by (apply Z.mod_pos_bound; lia).
    pose proof (Z.div_mod a 10 ltac:(lia)) as Da.
    pose proof (Z.div_mod b 10 ltac:(lia)) as Db.
    pose proof (Z.mod_pos_bound a 10 ltac:(lia)) as Ma.
    pose proof (Z.mod_pos_bound b 10 ltac:(lia)) as Mb.
    unfold then_compare.
    destruct (Z.compare_spec (a / 10) (b / 10)) as [E|E|E];
      destruct (Z.compare_spec (a mod 10) (b mod 10)) as [F|F|F];
      destruct (Z.compare_spec a b) as [G|G|G]; try reflexivity; lia.
Qed.

Lemma compare_same (s : string) : String.compare s s = Eq.
Proof.
  induction s as [|c s IH]; simpl; [reflexivity |].
  unfold Ascii.compare. now rewrite N.compare_refl.
Qed.

Lemma fraction_compare (ua ub : Z) (tz : string) :
  0 <= ua < 10 ^ 6 -> 0 <= ub < 10 ^ 6 ->
  match tz with String c _ => Ascii.compare c "." = Lt | EmptyString => False end ->
  String.compare ((if ua =? 0 then "" else "." +:+ zfill 6 ua) +:+ tz)
                 ((if ub =? 0 then "" else "." +:+ zfill 6 ub) +:+ tz)
  = (ua ?= ub).
Proof.
  intros Ha Hb Htz.
  destruct (Z.eqb_spec ua 0) as [->|Na], (Z.eqb_spec ub 0) as [->|Nb].
  - rewrite !append_nil. apply compare_same.
  - rewrite append_nil. destruct tz as [|c tz]; [destruct Htz |].
    rewrite append_assoc, append_cons. simpl. rewrite Htz.
    destruct ub; [lia | reflexivity | lia].
  - rewrite append_nil. destruct tz as [|c tz]; [destruct Htz |].
    rewrite append_assoc, append_cons. simpl.
    rewrite Ascii.compare_antisym, Htz. simpl.
    destruct ua; [lia | reflexivity | lia].
  - rewrite !append_assoc.
    rewrite (compare_app "." ".") by reflexivity.
    rewrite compare_app by now rewrite !zfill_length.
    rewrite zfill_compare by (simpl; lia).
    rewrite !compare_same. simpl. now destruct (ua ?= ub).
Qed.

Lemma then_compare_Eq (c : comparison) : then_compare Eq c = c.
Proof. reflexivity. Qed.

Lemma isoformat_compare (a b : datetime) :
  valid_datetime a = true -> valid_datetime b = true ->
  String.compare (isoformat a) (isoformat b) = datetime_compare a b.
Proof.
  unfold valid_datetime. rewrite !andb_true_iff, !Z.leb_le.
  intros Va Vb. unfold isoformat, datetime_compare.
  rewrite (compare_app (zfill 4 (year a)) (zfill 4 (year b)))
    by now rewrite !zfill_length.
  rewrite (zfill_compare 4) by (change (10 ^ Z.of_nat 4) with 10000; lia).
  rewrite (compare_app "-" "-"), (compare_same "-"), then_compare_Eq
    by reflexivity.
  rewrite (compare_app (zfill 2 (month a)) (zfill 2 (month b)))
    by now rewrite !zfill_length.
  rewrite (zfill_compare 2) by (change (10 ^ Z.of_nat 2) with 100; lia).
  rewrite (compare_app "-" "-"), (compare_same "-"), then_compare_Eq
    by reflexivity.
  rewrite (compare_app (zfill 2 (day a)) (zfill 2 (day b)))
    by now rewrite !zfill_length.
  rewrite (zfill_compare 2) by (change (10 ^ Z.of_nat 2) with 100; lia).
  rewrite (compare_app "T" "T"), (compare_same "T"), then_compare_Eq
    by reflexivity.
  rewrite (compare_app (zfill 2 (hour a)) (zfill 2 (hour b)))
    by now rewrite !zfill_length.
  rewrite (zfill_compare 2) by (change (10 ^ Z.of_nat 2) with 100; lia).
  rewrite (compare_app ":" ":"), (compare_same ":"), then_compare_Eq
    by reflexivity.
  rewrite (compare_app (zfill 2 (minute a)) (zfill 2 (minute b)))
    by now rewrite !zfill_length.
  rewrite (zfill_compare 2) by (change (10 ^ Z.of_nat 2) with 100; lia).
  rewrite (compare_app ":" ":"), (compare_same ":"), then_compare_Eq
    by reflexivity.
  rewrite (compare_app (zfill 2 (second a)) (zfill 2 (second b)))
    by now rewrite !zfill_length.
  rewrite (zfill_compare 2) by (change (10 ^ Z.of_nat 2) with 100; lia).
  rewrite fraction_compare;
    [reflexivity | change (10 ^ 6) with 1000000; lia
    | change (10 ^ 6) with 1000000; lia | reflexivity].
Qed.

Lemma datetime_compare_eq (a b : datetime) :
  datetime_compare a b = Eq -> a = b.
Proof.
  unfold datetime_compare, then_compare. destruct a, b. simpl.
  repeat match goal with
         | |- context [?x ?= ?y] =>
             destruct (Z.compare_spec x y); try discriminate; subst
         end.
  reflexivity.
Qed.

Lemma matches_time_range (x y : string) (r : Row) :
  matches (Some {[ "start_time" := PyStr x; "end_time" := PyStr y ]}) r
  = String.leb x (row_timestamp r) && String.leb (row_timestamp r) y.
Proof.
  rewrite matches_conditions. unfold conditions, supplied.
  simplify_map_eq. simpl. now rewrite andb_true_r.
Qed.

(** X19. The timestamp text that is stored orders as time does. For two
    datetimes within Python's field ranges, comparing their [isoformat()]
    texts character by character, as SQLite compares the [timestamp]
    column, gives the same answer as comparing the instants; so equal texts
    mean equal instants, and a row logged at [t] passes the filters
    [start_time = s.isoformat()], [end_time = e.isoformat()] exactly when
    [s <= t <= e]. *)
Theorem X19_timestamp_text_orders_as_time (s t e : datetime) (r : Row) :
  valid_datetime s = true -> valid_datetime t = true ->
  valid_datetime e = true ->
  row_timestamp r = isoformat t ->
  String.compare (isoformat s) (isoformat t) = datetime_compare s t /\
  (String.leb (isoformat s) (isoformat t) = true <-> datetime_compare s t <> Gt) /\
  (isoformat s = isoformat t -> s = t) /\
  (matches (Some {[ "start_time" := PyStr (isoformat s);
                    "end_time" := PyStr (isoformat e) ]}) r = true <->
   datetime_compare s t <> Gt /\ datetime_compare t e <> Gt).
Proof.
  intros Vs Vt Ve Hr.
  pose proof (isoformat_compare s t Vs Vt) as Cst.
  pose proof (isoformat_compare t e Vt Ve) as Cte.
  assert (L : forall x y, String.leb x y = true <-> String.compare x y <> Gt).
  { intros x y. unfold String.leb. destruct (String.compare x y);
      split; congruence. }
  split; [exact Cst |]. split; [now rewrite L, Cst |]. split.
  - intros E. apply datetime_compare_eq. rewrite <- Cst, E.
    apply compare_same.
  - rewrite matches_time_range, Hr, andb_true_iff.
    now rewrite !L, Cst, Cte.
Qed.

Lemma X19_timestamp_text_orders_as_time_witness :
  String.compare (isoformat example_time)
                 (isoformat {| year := 2024; month := 1; day := 5; hour := 7;
                               minute := 0; second := 9; microsecond := 250 |})
  = datetime_compare example_time
      {| year := 2024; month := 1; day := 5; hour := 7;
         minute := 0; second := 9; microsecond := 250 |}.
Proof.
  apply (X19_timestamp_text_orders_as_time
           example_time
           {| year := 2024; month := 1; day := 5; hour := 7;
              minute := 0; second := 9; microsecond := 250 |}
           {| year := 2025; month := 1; day := 1; hour := 0;
              minute := 0; second := 0; microsecond := 0 |}
           {| row_id := 1; row_user_id := "u"; row_feature := "f";
              row_model := "gpt-4"; row_tokens_in := 0; row_tokens_out := 0;
              row_cost_usd := F64.zero; row_latency_ms := 0;
              row_timestamp := "2024-01-05T07:00:09.000250+00:00";
              row_org_id := "default"; row_metadata := "{}" |});
    reflexivity.
Defined.

Lemma hex_digit_printable (n : N) :
  (n < 16)%N -> printable (Json.hex_digit n) = true.
Proof.
  intros H. unfold printable, Json.hex_digit, Str.code.
  destruct (n <? 10)%N eqn:E.
  - apply N.ltb_lt in E. rewrite N_ascii_embedding by lia.
    apply andb_true_iff. split; apply N.leb_le; lia.
  - apply N.ltb_ge in E. rewrite N_ascii_embedding by lia.
    apply andb_true_iff. split; apply N.leb_le; lia.
Qed.

Lemma hex4_printable (n : N) : Str.all printable (Json.hex4 n) = true.
Proof.
  unfold Json.hex4. simpl.
  rewrite !hex_digit_printable; [reflexivity | | | |];
    apply N.mod_lt; discriminate.
Qed.

Lemma hex4_length (n : N) : String.length (Json.hex4 n) = 4%nat.
Proof. reflexivity. Qed.

(** The escape of one code point, by its length. *)
Lemma escape_code_length (n : N) :
  match String.length (Json.escape_code n) with
  | 1%nat => Json.escape_code n = String (ascii_of_N n) "" /\
             (32 <= n <= 126)%N /\ n <> 34%N /\ n <> 92%N
  | 2%nat => In n [34; 92; 10; 13; 9; 8; 12]%N
  | 6%nat => (n < 65536)%N /\ Json.escape_code n = "\u" +:+ Json.hex4 n
  | 12%nat => (65536 <= n)%N
  | _ => False
  end.
Proof.
  unfold Json.escape_code.
  destruct (N.eqb_spec n 34) as [->|H1]; [simpl; auto |].
  destruct (N.eqb_spec n 92) as [->|H2]; [simpl; auto |].
  destruct (N.eqb_spec n 10) as [->|H3]; [simpl; auto |].
  destruct (N.eqb_spec n 13) as [->|H4]; [simpl; auto |].
  destruct (N.eqb_spec n 9) as [->|H5]; [simpl; auto 6 |].
  destruct (N.eqb_spec n 8) as [->|H6]; [simpl; auto 7 |].
  destruct (N.eqb_spec n 12) as [->|H7]; [simpl; auto 8 |].
  destruct ((32 <=? n) && (n <=? 126))%N eqn:E.
  - apply andb_true_iff in E as [A%N.leb_le B%N.leb_le]. simpl. auto.
  - destruct (n <? 65536)%N eqn:L.
    + apply N.ltb_lt in L. rewrite !length_app, hex4_length. simpl. auto.
    + apply N.ltb_ge in L. rewrite !length_app, !hex4_length. simpl. exact L.
Qed.

Lemma escape_code_printable (n : N) :
  Str.all printable (Json.escape_code n) = true.
Proof.
  unfold Json.escape_code.
  repeat match goal with
         | |- context [(n =? ?k)%N] => destruct (n =? k)%N; [reflexivity |]
         end.
  destruct ((32 <=? n) && (n <=? 126))%N eqn:E.
  - simpl. unfold printable, Str.code.
    apply andb_true_iff in E as [A%N.leb_le B%N.leb_le].
    rewrite N_ascii_embedding by lia.
    rewrite andb_true_r. apply andb_true_iff. split; apply N.leb_le; lia.
  - destruct (n <? 65536)%N; rewrite !all_app, !hex4_printable; reflexivity.
Qed.

Lemma escape_codes_printable (s : list N) :
  Str.all printable (Json.escape_codes s) = true.
Proof.
  induction s as [|n s IH]; simpl; [reflexivity |].
  now rewrite all_app, escape_code_printable, IH.
Qed.

Lemma quote_codes_printable (s : list N) :
  Str.all printable (Json.quote_codes s) = true.
Proof.
  unfold Json.quote_codes. rewrite append_cons. simpl.
  now rewrite all_app, escape_codes_printable.
Qed.

Lemma items_codes_printable (d : list (list N * list N)) :
  Str.all printable (Json.items_codes d) = true.
Proof.
  induction d as [|[k v] d IH]; [reflexivity |].
  destruct d as [|kv d].
  - change (Json.items_codes [(k, v)])
      with (Json.quote_codes k +:+ ": " +:+ Json.quote_codes v).
    rewrite !all_app, !quote_codes_printable. reflexivity.
  - change (Json.items_codes ((k, v) :: kv :: d))
      with (Json.quote_codes k +:+ ": " +:+ Json.quote_codes v +:+ ", "
            +:+ Json.items_codes (kv :: d)).
    rewrite !all_app, !quote_codes_printable, IH. reflexivity.
Qed.

Lemma dumps_codes_printable (d : list (list N * list N)) :
  Str.all printable (Json.dumps_codes d) = true.
Proof.
  unfold Json.dumps_codes. now rewrite !all_app, items_codes_printable.
Qed.

(** On U+0000..U+00FF the two writers are one. *)
Lemma escape_char_code (c : ascii) :
  Json.escape_char c = Json.escape_code (Str.code c).
Proof. destruct c as [[] [] [] [] [] [] [] []]; reflexivity. Qed.

Lemma escape_codes_spec (s : string) :
  Json.escape s = Json.escape_codes (Json.codes s).
Proof.
  induction s as [|c s IH]; simpl; [reflexivity |].
  now rewrite escape_char_code, IH.
Qed.

Lemma dumps_codes_spec (d : Dict.t string) :
  Json.dumps d
  = Json.dumps_codes
      (List.map (fun kv => (Json.codes (fst kv), Json.codes (snd kv))) d).
Proof.
  unfold Json.dumps, Json.dumps_codes. f_equal. f_equal.
  induction d as [|[k v] d IH]; [reflexivity |].
  destruct d as [|kv d].
  - simpl. unfold Json.quote, Json.quote_codes.
    now rewrite !escape_codes_spec.
  - change (Json.items ((k, v) :: kv :: d))
      with (Json.quote k +:+ ": " +:+ Json.quote v +:+ ", "
            +:+ Json.items (kv :: d)).
    rewrite IH. destruct kv as [k' v']. simpl.
    unfold Json.quote, Json.quote_codes. now rewrite !escape_codes_spec.
Qed.

(** The escapes of a character of the basic plane and of one beyond it:
    U+00E9 and U+1F600. *)
Example ex_escape_code :
  Json.escape_code 233 = "\u00e9" /\
  Json.escape_code 128512 = "\ud83d\ude00".
Proof. split; reflexivity. Qed.

(** X20. The metadata column is plain ASCII. The row that [log] appends
    holds [json.dumps(metadata, ensure_ascii=True)], and for metadata whose
    keys and values are strings every character of that text is printable
    ASCII, so the text is one line; the empty mapping is written [{}]. The
    same holds of the writer on strings of any code points: a character is
    written as itself when it is printable ASCII other than the quote and
    the backslash, as a two-character escape when it is one of the quote,
    the backslash, newline, carriage return, tab, backspace and form feed,
    as the six characters [\uXXXX] otherwise below U+10000, and as the
    twelve characters of a surrogate pair from U+10000 on. *)
Theorem X20_metadata_json_is_ascii (c : CostLog) (db : Database) :
  ready db = true -> storable c = true ->
  (exists r,
      persisted (snd (log c db)) = (persisted db ++ [r])%list /\
      row_metadata r
      = Json.dumps_codes
          (List.map (fun kv => (Json.codes (fst kv), Json.codes (snd kv)))
                    (metadata c)) /\
      Str.all printable (row_metadata r) = true /\
      (metadata c = [] -> row_metadata r = "{}")) /\
  (forall d, Str.all printable (Json.dumps_codes d) = true) /\
  (forall n,
      match String.length (Json.escape_code n) with
      | 1%nat => Json.escape_code n = String (ascii_of_N n) "" /\
                 (32 <= n <= 126)%N /\ n <> 34%N /\ n <> 92%N
      | 2%nat => In n [34; 92; 10; 13; 9; 8; 12]%N
      | 6%nat => (n < 65536)%N /\ Json.escape_code n = "\u" +:+ Json.hex4 n
      | 12%nat => (65536 <= n)%N
      | _ => False
      end).
Proof.
  intros R St. split; [|split; [apply dumps_codes_printable
                               | apply escape_code_length]].
  destruct (ready_table db R) as [t Ht].
  pose proof (log_spec c db t Ht) as L. rewrite St in L.
  destruct L as (r & L & _ & _ & _ & _ & _ & _ & _ & _ & _ & Hm).
  exists r. rewrite L. unfold persisted. rewrite Ht. simpl.
  split; [reflexivity |]. rewrite Hm, dumps_codes_spec.
  split; [reflexivity |]. split; [apply dumps_codes_printable |].
  intros ->. reflexivity.
Qed.

Lemma X20_metadata_json_is_ascii_witness :
  (exists r,
      persisted (snd (log accented_record fresh_store))
      = (persisted fresh_store ++ [r])%list /\
      row_metadata r
      = Json.dumps_codes
          (List.map (fun kv => (Json.codes (fst kv), Json.codes (snd kv)))
                    (metadata accented_record)) /\
      Str.all printable (row_metadata r) = true /\
      (metadata accented_record = [] -> row_metadata r = "{}")) /\
  (forall d, Str.all printable (Json.dumps_codes d) = true) /\
  (forall n,
      match String.length (Json.escape_code n) with
      | 1%nat => Json.escape_code n = String (ascii_of_N n) "" /\
                 (32 <= n <= 126)%N /\ n <> 34%N /\ n <> 92%N
      | 2%nat => In n [34; 92; 10; 13; 9; 8; 12]%N
      | 6%nat => (n < 65536)%N /\ Json.escape_code n = "\u" +:+ Json.hex4 n
      | 12%nat => (65536 <= n)%N
      | _ => False
      end).
Proof.
  apply X20_metadata_json_is_ascii; vm_compute; reflexivity.
Defined.

(** ** storage.py: agreement between the queries *)

Lemma matches_user (u : string) (r : Row) :
  matches (Some {[ "user_id" := PyStr u ]}) r = String.eqb (row_user_id r) u.
Proof.
  rewrite matches_conditions. unfold conditions, supplied.
  simplify_map_eq. simpl. now rewrite andb_true_r.
Qed.

Lemma matches_feature (f : string) (r : Row) :
  matches (Some {[ "feature" := PyStr f ]}) r = String.eqb (row_feature r) f.
Proof.
  rewrite matches_conditions. unfold conditions, supplied.
  simplify_map_eq. simpl. now rewrite andb_true_r.
Qed.

(** X22. The ranking and the total agree. On a ready store with
    non-negative costs, each entry [(user, total, count)] that the
    unfiltered [get_top_users] returns has as its total exactly what
    [get_total_cost] returns when filtered on that user; likewise each
    entry of [get_top_features] and the total filtered on that feature. *)
Theorem X22_ranking_agrees_with_total (db : Database) (limit : Z) :
  ready db = true ->
  Forall (fun x => F64.nonneg x = true) (costs db) ->
  in_int64 limit = true ->
  exists users features,
    fst (get_top_users limit None db) = Ok users /\
    fst (get_top_features limit None db) = Ok features /\
    (forall u x n, In (u, x, n) users ->
       fst (get_total_cost (Some {[ "user_id" := PyStr u ]}) db) = Ok x) /\
    (forall f x n, In (f, x, n) features ->
       fst (get_total_cost (Some {[ "feature" := PyStr f ]}) db) = Ok x).
Proof.
  intros R Hn Hl. destruct (ready_table db R) as [t Ht].
  destruct (top_query_is_top col_user_id limit None db t Ht Hn Hl)
    as (users & Eu & Tu).
  destruct (top_query_is_top col_feature limit None db t Ht Hn Hl)
    as (features & Ef & Tf).
  exists users, features. unfold get_top_users, get_top_features.
  rewrite Eu, Ef. simpl. split; [reflexivity |]. split; [reflexivity |].
  assert (Hrows : Forall (fun r => F64.nonneg (row_cost_usd r) = true) (rows t)).
  { apply List.Forall_forall. intros r Hr.
    apply (proj1 (List.Forall_forall _ _) Hn). unfold costs, persisted.
    rewrite Ht. now apply in_map. }
  assert (Sum : forall (p : Row -> bool),
             coalesce (sql_sum (List.map row_cost_usd (List.filter p (rows t))))
                      F64.zero
             = F64.sum (List.map row_cost_usd (List.filter p (rows t)))).
  { intros p. apply sql_sum_nonneg. apply List.Forall_forall.
    intros x (r & <- & Hr)%in_map_iff. apply filter_In in Hr as [Hr _].
    exact (proj1 (List.Forall_forall _ _) Hrows r Hr). }
  rewrite select_where_none in Tu, Tf.
  unfold get_total_cost, with_table. rewrite Ht. simpl. split.
  - intros u x n Hin. destruct Tu as (_ & Hrow & _).
    destruct (Hrow u x n Hin) as (_ & -> & _).
    rewrite select_where_filter.
    rewrite (List.filter_ext _ _ (matches_user u)). f_equal. apply Sum.
  - intros f x n Hin. destruct Tf as (_ & Hrow & _).
    destruct (Hrow f x n Hin) as (_ & -> & _).
    rewrite select_where_filter.
    rewrite (List.filter_ext _ _ (matches_feature f)). f_equal. apply Sum.
Qed.

Lemma X22_ranking_agrees_with_total_witness :
  exists users features,
    fst (get_top_users 10 None example_store) = Ok users /\
    fst (get_top_features 10 None example_store) = Ok features /\
    (forall u x n, In (u, x, n) users ->
       fst (get_total_cost (Some {[ "user_id" := PyStr u ]}) example_store)
       = Ok x) /\
    (forall f x n, In (f, x, n) features ->
       fst (get_total_cost (Some {[ "feature" := PyStr f ]}) example_store)
       = Ok x).
Proof.
  apply X22_ranking_agrees_with_total;
    [vm_compute; reflexivity | repeat constructor | reflexivity].
Defined.
